(** * userTableSync.js: the user synchronisation service, embedded and verified

    The development follows the layout of [UserTableSyncService]:
    - [JS]          the fragment of JavaScript's string, number and object
                    semantics the service relies on;
    - [Transformer] the pure record transformer ([transformUserData] and the
                    helpers it calls), and [Diagnostic], the placeholder
                    generator of diagnostic.js;
    - [Engine]      the service object, the effects it performs and the
                    methods that thread them ([logError], [retryWithBackoff],
                    [bulkSyncUsers], the scheduled cycle, the real-time
                    listener);
    - [Health]      [getHealthStatus] and [getHealthRecommendations];
    - [EventLoop]   the interleaving of timers, the suspended pass and the
                    listener's events;
    - [Spec]        observations, readings of the specification and
                    fixtures; the modules after it hold the properties.

    Strings are sequences of code units below 256 (Rocq's [ascii]); every
    literal of the source is in that range.  Numbers that the source keeps
    integral (counters, millisecond timestamps, delays) are [Z]: JavaScript's
    doubles are exact on them below 2^53.  Console output ([this.log],
    [console.error]) changes no state and is left out. *)

From Stdlib Require Import ZArith List String Ascii Bool Lia.
From Stdlib Require Import Sorting.Sorted Sorting.Permutation.
From Stdlib Require Import DecimalString DecimalZ.
Import ListNotations.

Local Open Scope string_scope.
Local Open Scope Z_scope.

(* ================================================================== *)
(** ** JavaScript primitives *)
(* ================================================================== *)

Module JS.

(** *** Characters *)

Definition code (c : ascii) : Z := Z.of_N (N_of_ascii c).

(** [WhiteSpace] and [LineTerminator] code units below 256: TAB, LF, VT,
    FF, CR, SP and NBSP.  Both [String.prototype.trim] and [parseInt]
    strip exactly this class. *)
Definition isWhiteSpace (c : ascii) : bool :=
  let n := code c in
  ((9 <=? n) && (n <=? 13)) || (n =? 32) || (n =? 160).

(** The regular-expression class [\d] (without the unicode flag). *)
Definition isDigit (c : ascii) : bool :=
  let n := code c in (48 <=? n) && (n <=? 57).

(** Value of a radix-16 digit, in either case. *)
Definition hexDigitValue (c : ascii) : option Z :=
  let n := code c in
  if (48 <=? n) && (n <=? 57) then Some (n - 48)
  else if (97 <=? n) && (n <=? 102) then Some (n - 87)
  else if (65 <=? n) && (n <=? 70) then Some (n - 55)
  else None.

(** [toLowerCase] on one code unit: A-Z, and the Latin-1 capitals
    U+00C0-U+00DE except the multiplication sign U+00D7. *)
Definition lowerChar (c : ascii) : ascii :=
  let n := code c in
  if ((65 <=? n) && (n <=? 90))
     || ((192 <=? n) && (n <=? 222) && negb (n =? 215))
  then ascii_of_N (Z.to_N (n + 32))
  else c.

(** *** Strings *)

Fixpoint toLowerCase (s : string) : string :=
  match s with
  | EmptyString => EmptyString
  | String c r => String (lowerChar c) (toLowerCase r)
  end.

Fixpoint trimStart (s : string) : string :=
  match s with
  | EmptyString => EmptyString
  | String c r => if isWhiteSpace c then trimStart r else s
  end.

Fixpoint trimEnd (s : string) : string :=
  match s with
  | EmptyString => EmptyString
  | String c r =>
      match trimEnd r with
      | EmptyString => if isWhiteSpace c then EmptyString
                       else String c EmptyString
      | r' => String c r'
      end
  end.

Definition trim (s : string) : string := trimEnd (trimStart s).

(** [s.substring(0, n)]. *)
Fixpoint substring0 (n : nat) (s : string) : string :=
  match n, s with
  | S k, String c r => String c (substring0 k r)
  | _, _ => EmptyString
  end.

(** [s.replace(/-/g, '')]. *)
Fixpoint removeDashes (s : string) : string :=
  match s with
  | EmptyString => EmptyString
  | String c r =>
      if Ascii.eqb c "-"%char then removeDashes r
      else String c (removeDashes r)
  end.

(** [s.replace(/[^\d]/g, '')]. *)
Fixpoint keepDigits (s : string) : string :=
  match s with
  | EmptyString => EmptyString
  | String c r =>
      if isDigit c then String c (keepDigits r) else keepDigits r
  end.

Fixpoint repeatChar (c : ascii) (n : nat) : string :=
  match n with
  | O => EmptyString
  | S k => String c (repeatChar c k)
  end.

(** [s.padStart(target, c)] for a one-character filler. *)
Definition padStart (target : nat) (c : ascii) (s : string) : string :=
  repeatChar c (target - String.length s) ++ s.

(** Every character is a decimal digit. *)
Fixpoint allDigits (s : string) : bool :=
  match s with
  | EmptyString => true
  | String c r => isDigit c && allDigits r
  end.

(** No character is the separator ["-"]. *)
Fixpoint noDash (s : string) : bool :=
  match s with
  | EmptyString => true
  | String c r => negb (Ascii.eqb c "-"%char) && noDash r
  end.

(** An ASCII capital letter occurs. *)
Fixpoint hasCapital (s : string) : bool :=
  match s with
  | EmptyString => false
  | String c r => ((65 <=? code c) && (code c <=? 90)) || hasCapital r
  end.

(** *** Numbers: the integers and NaN *)

Inductive number : Type :=
| NaN
| Num (z : Z).

(** Value of the longest prefix of radix-16 digits, most significant
    digit first. *)
Fixpoint hexDigits (acc : Z) (s : string) : Z :=
  match s with
  | EmptyString => acc
  | String c r =>
      match hexDigitValue c with
      | Some d => hexDigits (16 * acc + d) r
      | None => acc
      end
  end.

(** [parseInt(s, 16)]: skip leading white space, read an optional sign,
    skip an optional [0x]/[0X], then read the longest run of hexadecimal
    digits; no digit at all gives NaN. *)
Definition parseInt16 (input : string) : number :=
  let s := trimStart input in
  let '(negative, s1) :=
    match s with
    | String c r =>
        if Ascii.eqb c "-"%char then (true, r)
        else if Ascii.eqb c "+"%char then (false, r)
        else (false, s)
    | EmptyString => (false, s)
    end in
  let s2 :=
    match s1 with
    | String c (String x r) =>
        if Ascii.eqb c "0"%char
           && (Ascii.eqb x "x"%char || Ascii.eqb x "X"%char)
        then r else s1
    | _ => s1
    end in
  match s2 with
  | EmptyString => NaN
  | String c _ =>
      match hexDigitValue c with
      | None => NaN
      | Some _ =>
          let v := hexDigits 0 s2 in
          Num (if negative then - v else v)
      end
  end.

(** [Number.prototype.toString()] on an integer or NaN. *)
Definition numberToString (x : number) : string :=
  match x with
  | NaN => "NaN"
  | Num z => NilEmpty.string_of_int (Z.to_int z)
  end.

(** *** Values, truthiness and property lookup *)

(** The values a property read of an object literal with string members
    can produce: [undefined], an own string, or a member inherited from
    [Object.prototype] (a function or an object). *)
Inductive value : Type :=
| VUndefined
| VString (s : string)
| VInherited (name : string).

Definition truthy (v : value) : bool :=
  match v with
  | VUndefined => false
  | VString s => negb (String.eqb s "")
  | VInherited _ => true
  end.

(** [a || b]. *)
Definition orElse (a b : value) : value := if truthy a then a else b.

(** Property names every object literal inherits from
    [Object.prototype]. *)
Definition objectPrototypeKeys : list string :=
  [ "constructor"; "__defineGetter__"; "__defineSetter__";
    "hasOwnProperty"; "__lookupGetter__"; "__lookupSetter__";
    "isPrototypeOf"; "propertyIsEnumerable"; "toString"; "valueOf";
    "__proto__"; "toLocaleString" ].

Fixpoint ownProperty (members : list (string * string)) (key : string)
  : option string :=
  match members with
  | [] => None
  | (k, v) :: rest =>
      if String.eqb k key then Some v else ownProperty rest key
  end.

(** [obj[key]] for an object literal [obj] with the given own members:
    own properties first, then the prototype chain. *)
Definition getProperty (members : list (string * string)) (key : string)
  : value :=
  match ownProperty members key with
  | Some v => VString v
  | None =>
      if existsb (String.eqb key) objectPrototypeKeys
      then VInherited key
      else VUndefined
  end.

(** *** Exceptions *)

(** An [Error] object as the service reads it: [message], [stack] and
    the result of [String(error)]. *)
Record error : Type := mkError {
  message : string;
  stack : option string;
  asString : string
}.

(** What a [throw] can carry here: an [Error], or [undefined] (a
    variable that was never assigned). *)
Inductive thrown : Type :=
| ThrownError (e : error)
| ThrownUndefined.

Definition typeError (msg : string) : thrown :=
  ThrownError (mkError msg None ("TypeError: " ++ msg)).

(** Result of running a piece of code: it returns, it throws, or the
    model's loop bound ran out ([OutOfFuel] is shown unreachable wherever
    a result is claimed). *)
Inductive outcome (A : Type) : Type :=
| Returned (a : A)
| Threw (t : thrown)
| OutOfFuel.
Arguments Returned {A} a.
Arguments Threw {A} t.
Arguments OutOfFuel {A}.

End JS.

(* ================================================================== *)
(** ** The record transformer *)
(* ================================================================== *)

Module Transformer.
Import JS.

(** A row of the source [users] table, as [pg] hands it over: every
    column may be [null].  Timestamps are milliseconds since the epoch.
    The columns that only feed [buildMetaData] are left out, together
    with the [metaData] blob itself: nothing below reads them. *)
Record SourceUser : Type := mkSourceUser {
  id : option string;
  first_name : option string;
  last_name : option string;
  email : option string;
  phone : option string;
  email_verified : option bool;
  role : option string;
  status : option string;
  profile_picture : option string;
  created_at : option Z;
  updated_at : option Z
}.

(** The object [transformUserData] builds. *)
Record ChatUser : Type := mkChatUser {
  chatId : option string;
  externalId : option string;
  name : string;
  chatPhone : string;
  chatEmail : option string;
  chatRole : value;
  socketId : option string;
  isOnline : bool;
  lastSeen : option Z;
  avatar : option string;
  createdAt : option Z;
  updatedAt : option Z;
  firstName : option string;
  lastName : option string
}.

Definition bindO {A B : Type} (x : outcome A) (f : A -> outcome B)
  : outcome B :=
  match x with
  | Returned a => f a
  | Threw t => Threw t
  | OutOfFuel => OutOfFuel
  end.

(** Reading a property of [null]. *)
Definition nullDeref (prop : string) : thrown :=
  typeError ("Cannot read properties of null (reading '" ++ prop ++ "')").

(** [x?.trim() || ''] *)
Definition trimmedOrEmpty (x : option string) : string :=
  match x with
  | Some s => trim s
  | None => ""
  end.

Definition nonEmpty (s : string) : bool := negb (String.eqb s "").

Definition buildFullName (user : SourceUser) : outcome string :=
  let firstName := trimmedOrEmpty (first_name user) in
  let lastName := trimmedOrEmpty (last_name user) in
  if nonEmpty firstName && nonEmpty lastName then
    Returned (firstName ++ " " ++ lastName)
  else if nonEmpty firstName then Returned firstName
  else if nonEmpty lastName then Returned lastName
  else
    match id user with
    | Some i => Returned ("User " ++ substring0 8 i)
    | None => Threw (nullDeref "substring")
    end.

(** The three lines both placeholder branches of [sanitizePhone] run. *)
Definition placeholderPhone (userId : option string) : outcome string :=
  match userId with
  | None => Threw (nullDeref "replace")
  | Some u =>
      let hexPart := substring0 8 (removeDashes u) in
      let numericPart :=
        substring0 9 (numberToString (parseInt16 hexPart)) in
      Returned ("9" ++ padStart 9 "0"%char numericPart)
  end.

Definition sanitizePhone (phone userId : option string) : outcome string :=
  match phone with
  | None => placeholderPhone userId
  | Some p =>
      if String.eqb p "" || String.eqb (trim p) ""
      then placeholderPhone userId
      else
        let cleaned := keepDigits p in
        if String.eqb cleaned "" then placeholderPhone userId
        else Returned cleaned
  end.

Definition roleMapping : list (string * string) :=
  [ ("customer", "customer");
    ("service_provider", "usta");
    ("provider", "usta");
    ("admin", "administrator");
    ("administrator", "administrator");
    ("super_admin", "administrator") ].

(** [roleMapping[sourceRole?.toLowerCase()] || 'customer']; a missing
    role reads the property named ["undefined"]. *)
Definition mapRole (sourceRole : option string) : value :=
  let key :=
    match sourceRole with
    | Some r => toLowerCase r
    | None => "undefined"
    end in
  orElse (getProperty roleMapping key) (VString "customer").

(** [sourceUser.email_verified ? sourceUser.email : null] *)
Definition verifiedEmail (sourceUser : SourceUser) : option string :=
  match email_verified sourceUser with
  | Some true => email sourceUser
  | _ => None
  end.

Definition transformUserData (sourceUser : SourceUser) : outcome ChatUser :=
  bindO (buildFullName sourceUser) (fun fullName =>
  bindO (sanitizePhone (phone sourceUser) (id sourceUser)) (fun phone' =>
  Returned {|
    chatId := id sourceUser;
    externalId := id sourceUser;
    name := fullName;
    chatPhone := phone';
    chatEmail := verifiedEmail sourceUser;
    chatRole := mapRole (role sourceUser);
    socketId := None;
    isOnline := false;
    lastSeen := None;
    avatar := profile_picture sourceUser;
    createdAt := created_at sourceUser;
    updatedAt := updated_at sourceUser;
    firstName := first_name sourceUser;
    lastName := last_name sourceUser
  |})).

End Transformer.

(** The diagnostic tool's copy of the placeholder generator
    ([DiagnosticTool.generatePlaceholderPhone]): it keeps ten decimal
    digits where [sanitizePhone] keeps nine. *)
Module Diagnostic.
Import JS.

Definition generatePlaceholderPhone (userId : string) : string :=
  let hexPart := substring0 8 (removeDashes userId) in
  let numericPart :=
    substring0 10 (numberToString (parseInt16 hexPart)) in
  "9" ++ padStart 9 "0"%char numericPart.

End Diagnostic.

(* ================================================================== *)
(** ** The service: state, effects and methods *)
(* ================================================================== *)

Module Engine.
Import JS Transformer.

(** *** Configuration

    Fields the constructor assigns once and no method writes again. *)

Record RetryConfig : Type := mkRetryConfig {
  maxRetries : Z;
  initialDelayMs : Z;
  maxDelayMs : Z;
  (** read with [parseFloat]; modelled for integral multipliers, as the
      default 2 is *)
  backoffMultiplier : Z
}.

Record Config : Type := mkConfig {
  retryConfig : RetryConfig;
  maxReconnectAttempts : Z;
  syncIntervalMinutes : Z;
  syncWindowMultiplier : Z
}.

(** *** Mutable state of the service object *)

(** The record [logError] builds and keeps in [syncStats.lastError]
    (without the free-form [additionalData]). *)
Record ErrorRecord : Type := mkErrorRecord {
  timestamp : Z;
  errorType : string;
  userId : option string;
  errorMessage : string;
  errorStack : option string
}.

Record SyncStats : Type := mkSyncStats {
  totalSynced : Z;
  lastSyncTime : option Z;
  lastSyncDuration : option Z;
  errors : Z;
  consecutiveFailures : Z;
  lastError : option ErrorRecord;
  realtimeSyncActive : bool;
  scheduledSyncActive : bool
}.

Record Service : Type := mkService {
  (** whether [this.realtimeClient] holds a client *)
  realtimeClient : bool;
  realtimeReconnectAttempts : Z;
  realtimeReconnectTimeout : option nat;
  isListening : bool;
  isSyncInProgress : bool;
  scheduledSyncTimeout : option nat;
  syncStats : SyncStats
}.

(** *** The world around it *)

(** What a pending timer will run. *)
Inductive Callback : Type :=
| RunScheduledSync (intervalMinutes : Z)
| RunScheduledSyncCycle (intervalMinutes : Z)
| Reconnect.

(** A pending [setTimeout]: its handle, the delay asked for, what it
    runs. *)
Record Timer : Type := mkTimer {
  handle : nat;
  delay : Z;
  action : Callback
}.

(** Statements that reached a database. *)
Inductive Statement : Type :=
| SourceSelect (limit offset : nat) (since : option Z)
               (rows : list SourceUser)
| ChatUpsert (row : ChatUser)
| ErrorInsert (record : ErrorRecord).

(** The clock, the source table, the statements executed so far, the
    pending timers, and for each connection the fate of its coming
    calls: [Some e] makes the next call reject with [e], [None] or an
    exhausted list lets it succeed.  [sourceScans] gives, for each coming
    SELECT on the source table that goes through, the order in which
    PostgreSQL scans the table for it (see [scanBy]); with an exhausted
    list the scan follows the table.  The service never writes to the
    source table and the writes of its other clients are left out: what
    is proved of a run is proved over a source table that does not
    change during that run. *)
Record World : Type := mkWorld {
  now : Z;
  sourceUsers : list SourceUser;
  journal : list Statement;
  timers : list Timer;
  nextHandle : nat;
  sourceFaults : list (option error);
  chatFaults : list (option error);
  clientFaults : list (option error);
  sourceScans : list (list nat)
}.

Record State : Type := mkState {
  svc : Service;
  world : World
}.

(** *** Field updates *)

Definition updStats (f : SyncStats -> SyncStats) (st : State) : State :=
  let s := svc st in
  mkState
    (mkService (realtimeClient s) (realtimeReconnectAttempts s)
       (realtimeReconnectTimeout s) (isListening s) (isSyncInProgress s)
       (scheduledSyncTimeout s) (f (syncStats s)))
    (world st).

Definition setConsecutiveFailures (n : Z) (x : SyncStats) : SyncStats :=
  mkSyncStats (totalSynced x) (lastSyncTime x) (lastSyncDuration x)
    (errors x) n (lastError x) (realtimeSyncActive x)
    (scheduledSyncActive x).

Definition recordError (r : ErrorRecord) (x : SyncStats) : SyncStats :=
  mkSyncStats (totalSynced x) (lastSyncTime x) (lastSyncDuration x)
    (errors x + 1) (consecutiveFailures x + 1) (Some r)
    (realtimeSyncActive x) (scheduledSyncActive x).

Definition recordBatch (successCount errorCount time : Z) (x : SyncStats)
  : SyncStats :=
  mkSyncStats (totalSynced x + successCount) (Some time)
    (lastSyncDuration x) (errors x + errorCount) (consecutiveFailures x)
    (lastError x) (realtimeSyncActive x) (scheduledSyncActive x).

Definition setLastSyncDuration (d : Z) (x : SyncStats) : SyncStats :=
  mkSyncStats (totalSynced x) (lastSyncTime x) (Some d) (errors x)
    (consecutiveFailures x) (lastError x) (realtimeSyncActive x)
    (scheduledSyncActive x).

Definition setRealtimeSyncActive (b : bool) (x : SyncStats) : SyncStats :=
  mkSyncStats (totalSynced x) (lastSyncTime x) (lastSyncDuration x)
    (errors x) (consecutiveFailures x) (lastError x) b
    (scheduledSyncActive x).

Definition setScheduledSyncActive (b : bool) (x : SyncStats) : SyncStats :=
  mkSyncStats (totalSynced x) (lastSyncTime x) (lastSyncDuration x)
    (errors x) (consecutiveFailures x) (lastError x)
    (realtimeSyncActive x) b.

Definition setRealtimeClient (b : bool) (st : State) : State :=
  let s := svc st in
  mkState
    (mkService b (realtimeReconnectAttempts s)
       (realtimeReconnectTimeout s) (isListening s) (isSyncInProgress s)
       (scheduledSyncTimeout s) (syncStats s))
    (world st).

Definition setReconnectAttempts (n : Z) (st : State) : State :=
  let s := svc st in
  mkState
    (mkService (realtimeClient s) n (realtimeReconnectTimeout s)
       (isListening s) (isSyncInProgress s) (scheduledSyncTimeout s)
       (syncStats s))
    (world st).

Definition setReconnectTimeout (h : option nat) (st : State) : State :=
  let s := svc st in
  mkState
    (mkService (realtimeClient s) (realtimeReconnectAttempts s) h
       (isListening s) (isSyncInProgress s) (scheduledSyncTimeout s)
       (syncStats s))
    (world st).

Definition setIsListening (b : bool) (st : State) : State :=
  let s := svc st in
  mkState
    (mkService (realtimeClient s) (realtimeReconnectAttempts s)
       (realtimeReconnectTimeout s) b (isSyncInProgress s)
       (scheduledSyncTimeout s) (syncStats s))
    (world st).

Definition setIsSyncInProgress (b : bool) (st : State) : State :=
  let s := svc st in
  mkState
    (mkService (realtimeClient s) (realtimeReconnectAttempts s)
       (realtimeReconnectTimeout s) (isListening s) b
       (scheduledSyncTimeout s) (syncStats s))
    (world st).

Definition setScheduledSyncTimeout (h : option nat) (st : State) : State :=
  let s := svc st in
  mkState
    (mkService (realtimeClient s) (realtimeReconnectAttempts s)
       (realtimeReconnectTimeout s) (isListening s) (isSyncInProgress s)
       h (syncStats s))
    (world st).

Definition updWorld (f : World -> World) (st : State) : State :=
  mkState (svc st) (f (world st)).

Definition advanceClock (ms : Z) (w : World) : World :=
  mkWorld (now w + ms) (sourceUsers w) (journal w) (timers w)
    (nextHandle w) (sourceFaults w) (chatFaults w) (clientFaults w)
    (sourceScans w).

Definition appendJournal (s : Statement) (w : World) : World :=
  mkWorld (now w) (sourceUsers w) (journal w ++ [s]) (timers w)
    (nextHandle w) (sourceFaults w) (chatFaults w) (clientFaults w)
    (sourceScans w).

Definition setTimers (ts : list Timer) (next : nat) (w : World) : World :=
  mkWorld (now w) (sourceUsers w) (journal w) ts next
    (sourceFaults w) (chatFaults w) (clientFaults w) (sourceScans w).

Definition setSourceFaults (fs : list (option error)) (w : World) : World :=
  mkWorld (now w) (sourceUsers w) (journal w) (timers w) (nextHandle w)
    fs (chatFaults w) (clientFaults w) (sourceScans w).

Definition setChatFaults (fs : list (option error)) (w : World) : World :=
  mkWorld (now w) (sourceUsers w) (journal w) (timers w) (nextHandle w)
    (sourceFaults w) fs (clientFaults w) (sourceScans w).

Definition setClientFaults (fs : list (option error)) (w : World) : World :=
  mkWorld (now w) (sourceUsers w) (journal w) (timers w) (nextHandle w)
    (sourceFaults w) (chatFaults w) fs (sourceScans w).

Definition setSourceScans (scans : list (list nat)) (w : World) : World :=
  mkWorld (now w) (sourceUsers w) (journal w) (timers w) (nextHandle w)
    (sourceFaults w) (chatFaults w) (clientFaults w) scans.

(** *** The monad of methods: state and exceptions *)

Definition M (A : Type) : Type := State -> outcome A * State.

Definition ret {A : Type} (a : A) : M A := fun st => (Returned a, st).

Definition throw {A : Type} (t : thrown) : M A := fun st => (Threw t, st).

Definition outOfFuel {A : Type} : M A := fun st => (OutOfFuel, st).

Definition bind {A B : Type} (m : M A) (k : A -> M B) : M B :=
  fun st =>
    match m st with
    | (Returned a, st') => k a st'
    | (Threw t, st') => (Threw t, st')
    | (OutOfFuel, st') => (OutOfFuel, st')
    end.

Definition gets {A : Type} (f : State -> A) : M A :=
  fun st => (Returned (f st), st).

Definition modify (f : State -> State) : M unit :=
  fun st => (Returned tt, f st).

(** [try { body } catch (e) { handler e }] *)
Definition tryCatch {A : Type} (body : M A) (handler : thrown -> M A)
  : M A :=
  fun st =>
    match body st with
    | (Threw t, st') => handler t st'
    | r => r
    end.

(** [try { body } finally { finalizer }]: the finalizer runs whether the
    body returned or threw, and its own exception replaces the body's
    result. *)
Definition tryFinally {A : Type} (body : M A) (finalizer : M unit) : M A :=
  fun st =>
    match body st with
    | (OutOfFuel, st') => (OutOfFuel, st')
    | (o, st') =>
        match finalizer st' with
        | (Returned _, st'') => (o, st'')
        | (Threw t, st'') => (Threw t, st'')
        | (OutOfFuel, st'') => (OutOfFuel, st'')
        end
    end.

Definition liftO {A : Type} (o : outcome A) : M A := fun st => (o, st).

Declare Scope js_scope.
Delimit Scope js_scope with js.
Notation "x <- m ;; k" := (bind m (fun x => k))
  (at level 61, m at next level, right associativity) : js_scope.
Notation "m ;; k" := (bind m (fun _ => k))
  (at level 61, right associativity) : js_scope.
Local Open Scope js_scope.

(** *** Primitive effects *)

(** [Date.now()] *)
Definition dateNow : M Z := gets (fun st => now (world st)).

(** The delay a timer runs with: [setTimeout] takes a delay below 1 or
    above 2^31-1 as 1 ms. *)
Definition timerDelay (ms : Z) : Z :=
  if (ms <? 1) || (2147483647 <? ms) then 1 else ms.

(** [await this.sleep(ms)], a promise resolved by [setTimeout(resolve,
    ms)]: time passes, by the delay the timer runs with. *)
Definition sleep (ms : Z) : M unit :=
  modify (updWorld (advanceClock (timerDelay ms))).

(** [setTimeout(callback, delay)] *)
Definition setTimeout (callback : Callback) (ms : Z) : M nat :=
  fun st =>
    let w := world st in
    let h := nextHandle w in
    (Returned h,
     updWorld (setTimers (timers w ++ [mkTimer h ms callback]) (S h)) st).

(** [clearTimeout(h)] *)
Definition clearTimeout (h : nat) : M unit :=
  modify (updWorld (fun w =>
    setTimers (filter (fun t => negb (Nat.eqb (handle t) h)) (timers w))
              (nextHandle w) w)).

(** The fate of the next call on a connection. *)
Definition nextFault (faults : list (option error))
  : option error * list (option error) :=
  match faults with
  | [] => (None, [])
  | f :: rest => (f, rest)
  end.

(** [await this.chatPool.query(...)] *)
Definition chatQuery (s : Statement) : M unit :=
  fun st =>
    let (fault, rest) := nextFault (chatFaults (world st)) in
    let st' := updWorld (setChatFaults rest) st in
    match fault with
    | Some e => (Threw (ThrownError e), st')
    | None => (Returned tt, updWorld (appendJournal s) st')
    end.

(** [await this.realtimeClient.connect()], [.query(...)], [.end()] *)
Definition clientCall : M unit :=
  fun st =>
    let (fault, rest) := nextFault (clientFaults (world st)) in
    let st' := updWorld (setClientFaults rest) st in
    match fault with
    | Some e => (Threw (ThrownError e), st')
    | None => (Returned tt, st')
    end.

(** *** The paginated SELECT on the source table *)

Definition isActive (u : SourceUser) : bool :=
  match status u with
  | Some s => String.eqb s "active"
  | None => false
  end.

Definition hasId (u : SourceUser) : bool :=
  match id u with
  | Some _ => true
  | None => false
  end.

(** [updated_at > $3]; a comparison with NULL is not true. *)
Definition updatedAfter (since : Z) (u : SourceUser) : bool :=
  match updated_at u with
  | Some t => since <? t
  | None => false
  end.

(** The WHERE clause [bulkSyncUsers] builds. *)
Definition whereClause (sinceDate : option Z) (u : SourceUser) : bool :=
  isActive u && hasId u &&
  match sinceDate with
  | Some since => updatedAfter since u
  | None => true
  end.

(** [a] may precede [b] under ORDER BY updated_at DESC (NULLs first). *)
Definition precedes (a b : SourceUser) : bool :=
  match updated_at a, updated_at b with
  | None, _ => true
  | Some _, None => false
  | Some x, Some y => y <=? x
  end.

Fixpoint insertDesc (u : SourceUser) (l : list SourceUser)
  : list SourceUser :=
  match l with
  | [] => [u]
  | v :: r => if precedes u v then u :: l else v :: insertDesc u r
  end.

Fixpoint orderByUpdatedAtDesc (l : list SourceUser) : list SourceUser :=
  match l with
  | [] => []
  | u :: r => insertDesc u (orderByUpdatedAtDesc r)
  end.

(** Rows of [... WHERE ... ORDER BY updated_at DESC LIMIT $1 OFFSET $2]
    on a table read in the order of the list: the sort is stable, so
    rows with the same [updated_at] come out in the order the scan met
    them. *)
Definition selectPage (table : list SourceUser) (limit offset : nat)
    (sinceDate : option Z) : list SourceUser :=
  firstn limit
    (skipn offset
       (orderByUpdatedAtDesc (filter (whereClause sinceDate) table))).

(** *** The order of a scan

    PostgreSQL fixes no order among the rows an ORDER BY leaves equal,
    and every page of a pass is a query of its own: each one sorts the
    rows in the order its scan of the table met them.  A scan is given by
    the position, among the rows not read yet, of the row it reads next;
    when the positions run out, or point past the rows left, the rest is
    read as it lies.  Every order of the table is the scan of some list
    of positions. *)

Fixpoint removeAt {A : Type} (n : nat) (l : list A) : list A :=
  match l, n with
  | [], _ => []
  | _ :: r, O => r
  | x :: r, S m => x :: removeAt m r
  end.

Fixpoint scanBy (picks : list nat) (table : list SourceUser)
  : list SourceUser :=
  match picks with
  | [] => table
  | p :: rest =>
      match nth_error table p with
      | Some u => u :: scanBy rest (removeAt p table)
      | None => table
      end
  end.

(** The scan of the next SELECT. *)
Definition nextScan (scans : list (list nat))
  : list nat * list (list nat) :=
  match scans with
  | [] => ([], [])
  | s :: rest => (s, rest)
  end.

(** [await this.sourcePool.query(query, queryParams)] *)
Definition sourceQuery (limit offset : nat) (sinceDate : option Z)
  : M (list SourceUser) :=
  fun st =>
    let (fault, rest) := nextFault (sourceFaults (world st)) in
    let st' := updWorld (setSourceFaults rest) st in
    match fault with
    | Some e => (Threw (ThrownError e), st')
    | None =>
        let (scan, scans) := nextScan (sourceScans (world st)) in
        let rows :=
          selectPage (scanBy scan (sourceUsers (world st)))
                     limit offset sinceDate in
        (Returned rows,
         updWorld (appendJournal (SourceSelect limit offset sinceDate rows))
                  (updWorld (setSourceScans scans) st'))
    end.

(** *** Methods *)

(** What reading [error.message] throws when [error] is
    [undefined]. *)
Definition messageOfUndefined : thrown :=
  typeError "Cannot read properties of undefined (reading 'message')".

Section Methods.

Variable cfg : Config.

(** [logError(errorType, userId, error)]: build the record, try to
    persist it (a failure of that insert is only reported), then update
    the counters.  Reading [error.message] of [undefined] throws before
    anything else happens. *)
Definition logError (errorType : string) (userId : option string)
    (err : thrown) : M unit :=
  match err with
  | ThrownUndefined => throw messageOfUndefined
  | ThrownError e =>
      t <- dateNow ;;
      let errorRecord :=
        mkErrorRecord t errorType userId
          (if nonEmpty (message e) then message e else asString e)
          (match stack e with
           | Some trace => if nonEmpty trace then Some trace else None
           | None => None
           end) in
      tryCatch (chatQuery (ErrorInsert errorRecord))
               (fun _ => ret tt) ;;
      modify (updStats (recordError errorRecord))
  end.

(** [min(initialDelayMs * backoffMultiplier^(attempt - 1), maxDelayMs)] *)
Definition backoffDelay (attempt : Z) : Z :=
  let rc := retryConfig cfg in
  Z.min (initialDelayMs rc * backoffMultiplier rc ^ (attempt - 1))
        (maxDelayMs rc).

(** What one run of the retry loop did, in order. *)
Inductive RetryStep : Type :=
| Waited (attempt ms : Z)
| Attempted (attempt : Z).

(** One run of the retry loop: what the caller gets, the steps the loop
    took, and the state it leaves. *)
Record Run (A : Type) : Type := mkRun {
  result : outcome A;
  steps : list RetryStep;
  final : State
}.
Arguments mkRun {A} result steps final.
Arguments result {A} r.
Arguments steps {A} r.
Arguments final {A} r.

(** The loop of [retryWithBackoff] from iteration [attempt] on, with
    [remaining] iterations left before [attempt] exceeds [maxRetries]
    and [lastError] as assigned so far.  The [catch] block keeps the
    error and reads its [message] for the warning it logs: when the
    operation rejected with [undefined] that read throws, and its
    TypeError leaves the loop at once. *)
Fixpoint retryFrom {A : Type} (operation : M A) (remaining : nat)
    (attempt : Z) (lastError : thrown) (st : State) : Run A :=
  match remaining with
  | O => mkRun (Threw lastError) [] st
  | S remaining' =>
      let d := backoffDelay attempt in
      let waits := if 0 <? attempt then [Waited attempt d] else [] in
      let st1 := if 0 <? attempt then snd (sleep d st) else st in
      match operation st1 with
      | (Returned value, st2) =>
          mkRun (Returned value) (waits ++ [Attempted attempt])
                (updStats (setConsecutiveFailures 0) st2)
      | (Threw (ThrownError e), st2) =>
          let r :=
            retryFrom operation remaining' (attempt + 1) (ThrownError e)
                      st2 in
          mkRun (result r) (waits ++ Attempted attempt :: steps r) (final r)
      | (Threw ThrownUndefined, st2) =>
          mkRun (Threw messageOfUndefined) (waits ++ [Attempted attempt])
                st2
      | (OutOfFuel, st2) =>
          mkRun OutOfFuel (waits ++ [Attempted attempt]) st2
      end
  end.

(** [for (let attempt = 0; attempt <= maxRetries; attempt++)] *)
Definition retryRun {A : Type} (operation : M A) (st : State) : Run A :=
  retryFrom operation (Z.to_nat (maxRetries (retryConfig cfg) + 1)) 0
            ThrownUndefined st.

Definition retryWithBackoff {A : Type} (operation : M A) : M A :=
  fun st => let r := retryRun operation st in (result r, final r).

(** The closure [bulkSyncUsers] retries for one row: transform, then
    INSERT ... ON CONFLICT ("externalId") DO UPDATE. *)
Definition upsertOperation (user : SourceUser) : M unit :=
  transformedUser <- liftO (transformUserData user) ;;
  chatQuery (ChatUpsert transformedUser).

(** [for (const user of users) { try {...} catch (error) {...} }] *)
Fixpoint syncEach (users : list SourceUser) (successCount errorCount : Z)
  : M (Z * Z) :=
  match users with
  | [] => ret (successCount, errorCount)
  | user :: rest =>
      synced <-
        tryCatch
          (retryWithBackoff (upsertOperation user) ;; ret true)
          (fun error =>
             logError "BULK_SYNC_USER_FAILED" (id user) error ;;
             ret false) ;;
      if synced : bool
      then syncEach rest (successCount + 1) errorCount
      else syncEach rest successCount (errorCount + 1)
  end.

(** [bulkSyncUsers(limit, offset, sinceDate)]; [limit] and [offset] are
    the non-negative integers its callers pass. *)
Definition bulkSyncUsers (limit offset : nat) (sinceDate : option Z)
  : M bool :=
  tryCatch
    (users <- sourceQuery limit offset sinceDate ;;
     if Nat.eqb (List.length users) 0 then ret false
     else
       counts <- syncEach users 0 0 ;;
       t <- dateNow ;;
       modify (updStats (recordBatch (fst counts) (snd counts) t)) ;;
       ret (Nat.eqb (List.length users) limit))
    (fun error =>
       logError "BULK_SYNC_FAILED" None error ;;
       throw error).

(** *** The scheduled cycle *)

Definition scheduleNextSync (intervalMinutes : Z) : M unit :=
  pending <- gets (fun st => scheduledSyncTimeout (svc st)) ;;
  match pending with
  | Some h => clearTimeout h
  | None => ret tt
  end ;;
  h <- setTimeout (RunScheduledSyncCycle intervalMinutes)
                  (intervalMinutes * 60 * 1000) ;;
  modify (setScheduledSyncTimeout (Some h)).

(** [while (hasMore) { hasMore = await bulkSyncUsers(limit, offset,
    since); if (hasMore) offset += limit; }] *)
Fixpoint syncPages (fuel : nat) (limit offset : nat) (since : Z)
  : M unit :=
  match fuel with
  | O => outOfFuel
  | S fuel' =>
      hasMore <- bulkSyncUsers limit offset (Some since) ;;
      if hasMore : bool
      then syncPages fuel' limit (offset + limit) since
      else ret tt
  end.

(** [new Date(Date.now() - lookbackMinutes * 60 * 1000)] with
    [lookbackMinutes = intervalMinutes * syncWindowMultiplier]. *)
Definition lookbackStart (intervalMinutes t : Z) : Z :=
  t - (intervalMinutes * syncWindowMultiplier cfg) * 60 * 1000.

(** The page size of a scheduled pass. *)
Definition cycleLimit : nat := 500.

(** A pass over a table of [n] rows reads at most [n + 1] pages. *)
Definition cycleFuel (st : State) : nat :=
  S (List.length (sourceUsers (world st))).

(** The [try] block up to its first [await]. *)
Definition cycleEnter (intervalMinutes : Z) : M Z :=
  modify (setIsSyncInProgress true) ;;
  modify (updStats (setScheduledSyncActive true)) ;;
  t <- dateNow ;;
  ret (lookbackStart intervalMinutes t).

(** The rest of the [try] block. *)
Definition cyclePages (startTime since : Z) : M unit :=
  fuel <- gets cycleFuel ;;
  syncPages fuel cycleLimit 0 since ;;
  t <- dateNow ;;
  modify (updStats (setLastSyncDuration (t - startTime))).

Definition cycleCatch (error : thrown) : M unit :=
  logError "SCHEDULED_SYNC_FAILED" None error.

Definition cycleFinally (intervalMinutes : Z) : M unit :=
  modify (setIsSyncInProgress false) ;;
  modify (updStats (setScheduledSyncActive false)) ;;
  scheduleNextSync intervalMinutes.

(** [runScheduledSyncCycle(intervalMinutes)], run without
    interruption. *)
Definition runScheduledSyncCycle (intervalMinutes : Z) : M unit :=
  startTime <- dateNow ;;
  inProgress <- gets (fun st => isSyncInProgress (svc st)) ;;
  if inProgress : bool then scheduleNextSync intervalMinutes
  else
    tryFinally
      (tryCatch
         (since <- cycleEnter intervalMinutes ;;
          cyclePages startTime since)
         cycleCatch)
      (cycleFinally intervalMinutes).

(** [startScheduledSync(intervalMinutes = null)]: the first pass is a
    closure with the body of [runScheduledSyncCycle] (it differs in the
    progress count it logs). *)
Definition startScheduledSync (intervalMinutes : option Z) : M unit :=
  let interval :=
    match intervalMinutes with
    | Some i => if i =? 0 then syncIntervalMinutes cfg else i
    | None => syncIntervalMinutes cfg
    end in
  h <- setTimeout (RunScheduledSync interval) (interval * 60 * 1000) ;;
  modify (setScheduledSyncTimeout (Some h)).

(** *** The real-time listener *)

Definition attemptRealtimeReconnection : M unit :=
  attempts <- gets (fun st => realtimeReconnectAttempts (svc st)) ;;
  if maxReconnectAttempts cfg <=? attempts then ret tt
  else
    modify (setReconnectAttempts (attempts + 1)) ;;
    h <- setTimeout Reconnect (backoffDelay (attempts + 1)) ;;
    modify (setReconnectTimeout (Some h)).

(** The [try] block of [startRealTimeSync]: drop a previous client
    (an error of its [end()] is ignored), connect a new one, install the
    trigger function and the trigger, LISTEN; then mark the listener
    active and reset the reconnection counter. *)
Definition connectAndListen : M unit :=
  hasClient <- gets (fun st => realtimeClient (svc st)) ;;
  (if hasClient : bool
   then tryCatch clientCall (fun _ => ret tt) ;;
        modify (setRealtimeClient false)
   else ret tt) ;;
  modify (setRealtimeClient true) ;;
  clientCall ;;
  clientCall ;;
  clientCall ;;
  clientCall ;;
  modify (setIsListening true) ;;
  modify (updStats (setRealtimeSyncActive true)) ;;
  modify (setReconnectAttempts 0).

Definition startRealTimeSync : M unit :=
  listening <- gets (fun st => isListening (svc st)) ;;
  if listening : bool then ret tt
  else
    tryCatch connectAndListen
      (fun error =>
         logError "REALTIME_SYNC_START_FAILED" None error ;;
         attemptRealtimeReconnection ;;
         throw error).

(** The client's ['error'] handler. *)
Definition onClientError : M unit :=
  modify (setIsListening false) ;;
  modify (updStats (setRealtimeSyncActive false)) ;;
  attemptRealtimeReconnection.

(** The client's ['end'] handler. *)
Definition onClientEnd : M unit :=
  listening <- gets (fun st => isListening (svc st)) ;;
  if listening : bool then
    modify (setIsListening false) ;;
    modify (updStats (setRealtimeSyncActive false)) ;;
    attemptRealtimeReconnection
  else ret tt.

(** The callback [attemptRealtimeReconnection] hands to
    [setTimeout]. *)
Definition reconnectCallback : M unit :=
  tryCatch startRealTimeSync (fun _ => ret tt).

End Methods.

Arguments mkRun {A} result steps final.
Arguments result {A} r.
Arguments steps {A} r.
Arguments final {A} r.

End Engine.

(* ================================================================== *)
(** ** Health evaluation *)
(* ================================================================== *)

Module Health.
Import Engine.

Record HealthChecks : Type := mkHealthChecks {
  realtimeSyncActive : bool;
  scheduledSyncActive : bool;
  recentSyncSuccess : bool;
  lowErrorRate : bool
}.

(** The hints of [getHealthRecommendations], by kind. *)
Inductive Recommendation : Type :=
| RealtimeNotActive
| HighConsecutiveFailures (count : Z)
| NoSuccessfulSync (sinceMs : Z)
| DurationApproachingInterval
| AllSystemsOperational.

Record HealthStatus : Type := mkHealthStatus {
  status : string;
  checks : HealthChecks;
  recommendations : list Recommendation
}.

(** [Date.now() - lastSyncTime.getTime()], or [null] before any sync.
    The source divides by 1000 and compares with 600; on integral
    milliseconds that is the comparison with 600000 made here. *)
Definition timeSinceLastSyncMs (st : State) : option Z :=
  match lastSyncTime (syncStats (svc st)) with
  | Some t => Some (now (world st) - t)
  | None => None
  end.

Definition recentEnough (since : option Z) : bool :=
  match since with
  | None => true
  | Some ms => ms <? 600000
  end.

Definition isHealthy (st : State) : bool :=
  (consecutiveFailures (syncStats (svc st)) <? 5)
  && recentEnough (timeSinceLastSyncMs st)
  && isListening (svc st).

(** [lastSyncDuration > syncIntervalMinutes * 60 * 1000 * 0.8]: on
    integers the right-hand side is [48000 * syncIntervalMinutes]. *)
Definition getHealthRecommendations (cfg : Config) (st : State)
    (healthy : bool) (since : option Z) : list Recommendation :=
  let stats := syncStats (svc st) in
  let r1 := if isListening (svc st) then [] else [RealtimeNotActive] in
  let r2 :=
    if 5 <=? consecutiveFailures stats
    then [HighConsecutiveFailures (consecutiveFailures stats)] else [] in
  let r3 :=
    match since with
    | Some ms => if 600000 <? ms then [NoSuccessfulSync ms] else []
    | None => []
    end in
  let r4 :=
    match lastSyncDuration stats with
    | Some d =>
        if negb (d =? 0) && (syncIntervalMinutes cfg * 48000 <? d)
        then [DurationApproachingInterval] else []
    | None => []
    end in
  let found := (r1 ++ r2 ++ r3 ++ r4)%list in
  if healthy && Nat.eqb (List.length found) 0
  then (found ++ [AllSystemsOperational])%list
  else found.

Definition getHealthStatus (cfg : Config) (st : State) : HealthStatus :=
  let since := timeSinceLastSyncMs st in
  let healthy := isHealthy st in
  mkHealthStatus
    (if healthy then "HEALTHY" else "UNHEALTHY")
    (mkHealthChecks
       (isListening (svc st))
       (Engine.scheduledSyncActive (syncStats (svc st))
        || negb (isSyncInProgress (svc st)))
       (recentEnough since)
       (consecutiveFailures (syncStats (svc st)) <? 5))
    (getHealthRecommendations cfg st healthy since).

End Health.

(* ================================================================== *)
(** ** The event loop

    Methods are [async]: between two [await]s of one call, timers and
    connection events of other calls run.  The loop below interleaves the
    scheduled cycle at the only place where the mutual exclusion can be
    observed: a cycle that found the flag clear is suspended in its first
    query until it settles.  The listener's callbacks run to completion.
    An exception that escapes a callback ends the process in the source;
    here the loop goes on, which only adds behaviours. *)
(* ================================================================== *)

Module EventLoop.
Import JS Transformer Engine.

(** A scheduled pass suspended inside its [try] block. *)
Record Pass : Type := mkPass {
  passInterval : Z;
  passStart : Z;
  passSince : Z
}.

Record Runtime : Type := mkRuntime {
  state : State;
  running : list Pass
}.

(** What can happen next: time passes, a pending timer fires, the
    suspended pass runs to its end, the listener's client reports an error
    or closes, or the host calls [startScheduledSync]. *)
Inductive Occurrence : Type :=
| TimePasses (ms : Z)
| TimerFires (h : nat)
| PassSettles
| ClientError
| ClientEnd
| ScheduledSyncStarts (intervalMinutes : option Z).

(** Remove the pending timer with handle [h], if there is one. *)
Fixpoint takeTimer (h : nat) (ts : list Timer)
  : option (Timer * list Timer) :=
  match ts with
  | [] => None
  | t :: rest =>
      if Nat.eqb (handle t) h then Some (t, rest)
      else
        match takeTimer h rest with
        | Some (found, rest') => Some (found, t :: rest')
        | None => None
        end
  end.

Section Loop.

Variable cfg : Config.

(** [runScheduledSyncCycle] from its entry to its first [await]. *)
Definition cycleBegin (intervalMinutes : Z) (rt : Runtime) : Runtime :=
  let st := state rt in
  let startTime := now (world st) in
  if isSyncInProgress (svc st)
  then mkRuntime (snd (scheduleNextSync intervalMinutes st)) (running rt)
  else
    match cycleEnter cfg intervalMinutes st with
    | (Returned since, st') =>
        mkRuntime st'
          (running rt ++ [mkPass intervalMinutes startTime since])
    | (_, st') => mkRuntime st' (running rt)
    end.

(** The same call from that [await] to its end. *)
Definition cycleResume (p : Pass) : M unit :=
  tryFinally
    (tryCatch (cyclePages cfg (passStart p) (passSince p))
              cycleCatch)
    (cycleFinally (passInterval p)).

Definition step (rt : Runtime) (e : Occurrence) : Runtime :=
  let st := state rt in
  match e with
  | TimePasses ms =>
      if 0 <=? ms
      then mkRuntime (updWorld (advanceClock ms) st) (running rt)
      else rt
  | TimerFires h =>
      match takeTimer h (timers (world st)) with
      | None => rt
      | Some (t, rest) =>
          let st' :=
            updWorld (setTimers rest (nextHandle (world st))) st in
          match action t with
          | RunScheduledSync i => cycleBegin i (mkRuntime st' (running rt))
          | RunScheduledSyncCycle i =>
              cycleBegin i (mkRuntime st' (running rt))
          | Reconnect =>
              mkRuntime (snd (reconnectCallback cfg st')) (running rt)
          end
      end
  | PassSettles =>
      match running rt with
      | [] => rt
      | p :: rest => mkRuntime (snd (cycleResume p st)) rest
      end
  | ClientError => mkRuntime (snd (onClientError cfg st)) (running rt)
  | ClientEnd => mkRuntime (snd (onClientEnd cfg st)) (running rt)
  | ScheduledSyncStarts i =>
      mkRuntime (snd (startScheduledSync cfg i st)) (running rt)
  end.

Definition run (rt : Runtime) (events : list Occurrence) : Runtime :=
  fold_left step events rt.

End Loop.

(** The service as the constructor leaves it. *)
Definition initialService : Service :=
  mkService false 0 None false false None
    (mkSyncStats 0 None None 0 0 None false false).

(** A fresh process: no timer pending, nothing running. *)
Definition boot (w : World) : Runtime :=
  mkRuntime (mkState initialService (setTimers [] 0 w)) [].

End EventLoop.

(* ================================================================== *)
(** ** Observations and fixtures

    What the properties below measure on a run, the readings of the
    specification they are compared with, and the concrete inputs of the
    examples. *)
(* ================================================================== *)

Module Spec.
Import JS Transformer Engine EventLoop.

(** Number of times a run invoked the operation. *)
Fixpoint attemptsOf (l : list RetryStep) : nat :=
  match l with
  | [] => O
  | Attempted _ :: r => S (attemptsOf r)
  | Waited _ _ :: r => attemptsOf r
  end.

(** The wait the specification gives before attempt [k]:
    [min(initialDelay * multiplier^(k-1), maxDelay)]. *)
Definition specDelay (cfg : Config) (k : Z) : Z :=
  Z.min (initialDelayMs (retryConfig cfg)
         * backoffMultiplier (retryConfig cfg) ^ (k - 1))
        (maxDelayMs (retryConfig cfg)).

(** [m] attempts numbered from [k], each but attempt 0 preceded by its
    wait. *)
Fixpoint timelineFrom (cfg : Config) (k : Z) (m : nat) : list RetryStep :=
  match m with
  | O => []
  | S m' =>
      ((if 0 <? k then [Waited k (specDelay cfg k)] else [])
         ++ Attempted k :: timelineFrom cfg (k + 1) m')%list
  end.

(** A sequence of [logError] calls. *)
Fixpoint logAll (calls : list (string * option string * error)) (st : State)
  : State :=
  match calls with
  | [] => st
  | (errorType, userId, e) :: rest =>
      logAll rest (snd (logError errorType userId (ThrownError e) st))
  end.

Definition failuresOf (st : State) : Z :=
  consecutiveFailures (syncStats (svc st)).

(** *** Frames *)

(** A world update that touches neither the timers nor the source table:
    the clock, the journal and the fault scripts. *)
Definition quietUpdate (f : World -> World) : Prop :=
  forall w, timers (f w) = timers w
            /\ nextHandle (f w) = nextHandle w
            /\ sourceUsers (f w) = sourceUsers w.

(** The computation never runs out of the model's loop bound. *)
Definition total {A : Type} (m : M A) : Prop :=
  forall st, fst (m st) <> OutOfFuel.

(** Every run of [m] relates the state it starts from to the state it
    leaves. *)
Definition keeps (R : State -> State -> Prop) {A : Type} (m : M A) : Prop :=
  forall st, R st (snd (m st)).

(** A relation between the state before and after a computation that is
    closed under composition and that statistics and quiet world updates
    respect. *)
Class Frame (R : State -> State -> Prop) : Prop := {
  frame_refl : forall s, R s s;
  frame_trans : forall a b c, R a b -> R b c -> R a c;
  frame_stats : forall f st, R st (updStats f st);
  frame_quiet : forall f st, quietUpdate f -> R st (updWorld f st)
}.

(** The mutual-exclusion flag and the source table are as before. *)
Definition sameFlag (a b : State) : Prop :=
  isSyncInProgress (svc b) = isSyncInProgress (svc a)
  /\ sourceUsers (world b) = sourceUsers (world a).

Definition isReconnect (t : Timer) : bool :=
  match action t with
  | Reconnect => true
  | _ => false
  end.

(** The pending reconnection attempts. *)
Definition reconnectTimers (st : State) : list Timer :=
  filter isReconnect (timers (world st)).

(** The reconnection counter is as before and no reconnection attempt
    was added to the pending ones. *)
Definition sameReconnect (a b : State) : Prop :=
  realtimeReconnectAttempts (svc b) = realtimeReconnectAttempts (svc a)
  /\ (List.length (reconnectTimers b) <= List.length (reconnectTimers a))%nat.

(** The reconnection counter and the pending timers are as before. *)
Definition untouched (a b : State) : Prop :=
  realtimeReconnectAttempts (svc b) = realtimeReconnectAttempts (svc a)
  /\ timers (world b) = timers (world a).

(** A connection was made: the counter is back at zero and the listener
    listens. *)
Definition reconnected (st : State) : Prop :=
  realtimeReconnectAttempts (svc st) = 0 /\ isListening (svc st) = true.

(** [m] returns in a reconnected state or throws with the counter as it
    was; either way it leaves the pending timers alone. *)
Definition connectsOrThrows (m : M unit) : Prop :=
  forall st,
    match m st with
    | (Returned _, st') =>
        reconnected st' /\ timers (world st') = timers (world st)
    | (Threw _, st') => untouched st st'
    | (OutOfFuel, _) => False
    end.

(** The terminal state of the listener: the counter has reached the
    maximum and no attempt is pending. *)
Definition givenUp (cfg : Config) (st : State) : Prop :=
  maxReconnectAttempts cfg <= realtimeReconnectAttempts (svc st)
  /\ reconnectTimers st = [].

(** The flag is set exactly while one pass is suspended. *)
Definition flagMatchesRunning (rt : Runtime) : Prop :=
  (isSyncInProgress (svc (state rt)) = true /\ exists p, running rt = [p])
  \/ (isSyncInProgress (svc (state rt)) = false /\ running rt = []).

(** The three signals of the health evaluation as the specification words
    them: fewer than 5 consecutive failures, less than 600 seconds since
    the last sync, the listener listening. *)
Definition healthyAsStated (st : State) : Prop :=
  failuresOf st < 5
  /\ (exists t, lastSyncTime (syncStats (svc st)) = Some t
                /\ now (world st) - t < 600 * 1000)
  /\ isListening (svc st) = true.

(** The same with the case the code adds: no sync has completed yet. *)
Definition healthyAsCoded (st : State) : Prop :=
  failuresOf st < 5
  /\ (lastSyncTime (syncStats (svc st)) = None
      \/ exists t, lastSyncTime (syncStats (svc st)) = Some t
                   /\ now (world st) - t < 600 * 1000)
  /\ isListening (svc st) = true.

(** The pending timers once [clearTimeout] ran on the handle kept in
    [scheduledSyncTimeout], if any. *)
Definition withoutHandle (h : option nat) (ts : list Timer) : list Timer :=
  match h with
  | Some h' => filter (fun t => negb (Nat.eqb (handle t) h')) ts
  | None => ts
  end.

(** Two calls of [startScheduledSync], then both first timers fire: the
    second finds the pass of the first in flight. *)
Definition overlappingTriggers : list Occurrence :=
  [ScheduledSyncStarts None; ScheduledSyncStarts None;
   TimerFires 0; TimePasses 60000; TimerFires 1].

(** *** The scheduled pass *)

(** The rows the next SELECT of [bulkSyncUsers] answers with, if it goes
    through. *)
Definition nextPage (st : State) (limit offset : nat)
    (sinceDate : option Z) : list SourceUser :=
  selectPage
    (scanBy (fst (nextScan (sourceScans (world st))))
            (sourceUsers (world st)))
    limit offset sinceDate.

(** The rows a pass that looks back to [since] is to replay, in the order
    of the query. *)
Definition eligibleRows (since : Z) (table : list SourceUser)
  : list SourceUser :=
  orderByUpdatedAtDesc (filter (whereClause (Some since)) table).



(** The order in which the [k]-th coming SELECT finds the rows a pass
    that looks back to [since] is to replay: newest first, rows with the
    same [updated_at] as the scan of that query met them. *)
Definition orderAt (st : State) (since : Z) (k : nat) : list SourceUser :=
  eligibleRows since
    (scanBy (nth k (sourceScans (world st)) []) (sourceUsers (world st))).








(** The records upserted by a list of statements, in order. *)
Definition upsertsIn (l : list Statement) : list ChatUser :=
  flat_map (fun x => match x with ChatUpsert c => [c] | _ => [] end) l.







(** *** Fixtures *)

(** The configuration the constructor falls back to. *)
Definition defaultConfig : Config :=
  mkConfig (mkRetryConfig 3 1000 30000 2) 10 1 3.

Definition boom : error := mkError "boom" None "Error: boom".

Definition emptyWorld : World := mkWorld 1000000 [] [] [] 0 [] [] [] [].

Definition freshState : State := mkState initialService emptyWorld.

(** A service that listens and has not synced yet. *)
Definition listeningState : State :=
  setIsListening true freshState.

(** A service whose reconnection counter has reached the default maximum
    of 10, nothing pending. *)
Definition exhaustedState : State :=
  setReconnectAttempts 10 freshState.

(** A source table: two rows changed within the last three minutes, one
    changed long ago, one inactive, one without id. *)
Definition sampleTable : list SourceUser :=
  [ mkSourceUser (Some "0a000000-0000-4000-8000-000000000001") (Some "Ada")
      None None None None None (Some "active") None None (Some 900000);
    mkSourceUser (Some "0b000000-0000-4000-8000-000000000002") (Some "Bob")
      None None None None None (Some "active") None None (Some 100);
    mkSourceUser (Some "0c000000-0000-4000-8000-000000000003") (Some "Cyd")
      None None None None None (Some "active") None None (Some 950000);
    mkSourceUser (Some "0d000000-0000-4000-8000-000000000004") (Some "Dee")
      None None None None None (Some "suspended") None None (Some 990000);
    mkSourceUser None (Some "Eve")
      None None None None None (Some "active") None None (Some 990000) ].

Definition sampleState : State :=
  mkState initialService (mkWorld 1000000 sampleTable [] [] 0 [] [] [] []).






(** An operation that rejects every time. *)
Definition alwaysFails : M unit := throw (ThrownError boom).




(** The configuration with [MAX_RETRIES=-1]: the loop of
    [retryWithBackoff] is not entered. *)
Definition noAttempts : Config :=
  mkConfig (mkRetryConfig (-1) 1000 30000 2) 10 1 3.

(** The scenario of the specification: an unverified address. *)
Definition scenarioUser : SourceUser :=
  mkSourceUser (Some "abc123ef-0000-4000-8000-000000000000")
    (Some "") (Some "") (Some "x@y.com") None (Some false)
    (Some "service_provider") (Some "active") None None None.

Definition scenarioResult : ChatUser :=
  mkChatUser (Some "abc123ef-0000-4000-8000-000000000000")
    (Some "abc123ef-0000-4000-8000-000000000000")
    "User abc123ef" "9288156158" None (VString "usta")
    None false None None None None (Some "") (Some "").

End Spec.

(* ================================================================== *)
(** ** Observations on failures and on the schedule *)
(* ================================================================== *)

Module Behaviour.
Import JS Transformer Engine EventLoop Spec.

(** Whatever [m] throws is an [Error] object, never [undefined]. *)
Definition throwsErrors {A : Type} (m : M A) : Prop :=
  forall (st st' : State) (t : thrown),
    m st = (Threw t, st') -> exists e, t = ThrownError e.

(** [m] leaves the statistics alone. *)
Definition keepsStats {A : Type} (m : M A) : Prop :=
  forall st, syncStats (svc (snd (m st))) = syncStats (svc st).

(** [m] leaves the clock alone. *)
Definition keepsClock {A : Type} (m : M A) : Prop :=
  forall st, now (world (snd (m st))) = now (world st).

(** Milliseconds a run of the retry loop slept. *)
Fixpoint waitedMs (l : list RetryStep) : Z :=
  match l with
  | [] => 0
  | Waited _ ms :: r => ms + waitedMs r
  | Attempted _ :: r => waitedMs r
  end.

(** Milliseconds the timers of those sleeps ran. *)
Fixpoint sleptMs (l : list RetryStep) : Z :=
  match l with
  | [] => 0
  | Waited _ ms :: r => timerDelay ms + sleptMs r
  | Attempted _ :: r => sleptMs r
  end.

(** The record [logError] builds at time [t]. *)
Definition errorRecordOf (t : Z) (errorType : string)
    (userId : option string) (e : error) : ErrorRecord :=
  mkErrorRecord t errorType userId
    (if nonEmpty (message e) then message e else asString e)
    (match stack e with
     | Some trace => if nonEmpty trace then Some trace else None
     | None => None
     end).

(** The fate of the next query on the chat pool. *)
Definition nextChatFault (st : State) : option error :=
  fst (nextFault (chatFaults (world st))).

(** The fate of the next query on the source pool. *)
Definition nextSourceFault (st : State) : option error :=
  fst (nextFault (sourceFaults (world st))).

(** When [m] throws, the state it leaves is related to the one it
    started from. *)
Definition onThrow (R : State -> State -> Prop) {A : Type} (m : M A)
  : Prop :=
  forall (st st' : State) (t : thrown), m st = (Threw t, st') -> R st st'.

(** The listener is where it was: the listening flag, the reconnection
    counter and the timers. *)
Definition listenerIdle (a b : State) : Prop :=
  isListening (svc b) = isListening (svc a)
  /\ realtimeReconnectAttempts (svc b) = realtimeReconnectAttempts (svc a)
  /\ timers (world b) = timers (world a)
  /\ nextHandle (world b) = nextHandle (world a).

(** A timer of the scheduled sync. *)
Definition isSyncTimer (t : Timer) : bool :=
  match action t with
  | RunScheduledSync _ => true
  | RunScheduledSyncCycle _ => true
  | Reconnect => false
  end.

(** The pending triggers of the scheduled sync. *)
Definition syncTimers (st : State) : list Timer :=
  filter isSyncTimer (timers (world st)).

(** The flag, the handle kept in [scheduledSyncTimeout] and the pending
    triggers of the scheduled sync are as before. *)
Definition sameSchedule (a b : State) : Prop :=
  isSyncInProgress (svc b) = isSyncInProgress (svc a)
  /\ scheduledSyncTimeout (svc b) = scheduledSyncTimeout (svc a)
  /\ syncTimers b = syncTimers a
  /\ sourceUsers (world b) = sourceUsers (world a).

(** The schedule is alive and single: either one trigger is pending, it
    is the one [scheduledSyncTimeout] refers to and no pass is in flight,
    or one pass is in flight and no trigger is pending. *)
Definition armed (rt : Runtime) : Prop :=
  (running rt = []
   /\ isSyncInProgress (svc (state rt)) = false
   /\ exists t, syncTimers (state rt) = [t]
                /\ scheduledSyncTimeout (svc (state rt)) = Some (handle t))
  \/ (exists p, running rt = [p]
                /\ isSyncInProgress (svc (state rt)) = true
                /\ syncTimers (state rt) = []).

(** The host does not call [startScheduledSync] again. *)
Definition isRestart (e : Occurrence) : bool :=
  match e with
  | ScheduledSyncStarts _ => true
  | _ => false
  end.

End Behaviour.

(* ================================================================== *)
(** ** The real-time path: one record at a time

    [upsertUser], [deleteUserFromChat] and the handler of the
    ['notification'] event, together with what their statements do to the
    [users] table of the chat database. *)
(* ================================================================== *)

Module Realtime.
Import JS Transformer Engine.
Local Open Scope js_scope.

(** *** The [users] table of the chat database *)

(** The row that [ON CONFLICT ("externalId") DO UPDATE SET name =
    EXCLUDED.name, phone = ..., email = ..., role = ..., avatar = ...,
    "metaData" = ..., "updatedAt" = ..., "firstName" = ..., "lastName" =
    ...] leaves in place of [existing]: the listed columns come from the
    proposed row, the others ([id], ["externalId"], ["socketId"],
    ["isOnline"], ["lastSeen"], ["createdAt"]) stay. *)
Definition onConflictUpdate (existing excluded : ChatUser) : ChatUser :=
  mkChatUser (chatId existing) (externalId existing) (name excluded)
    (chatPhone excluded) (chatEmail excluded) (chatRole excluded)
    (socketId existing) (isOnline existing) (lastSeen existing)
    (avatar excluded) (createdAt existing) (updatedAt excluded)
    (firstName excluded) (lastName excluded).

(** ["externalId" = key]; a comparison with NULL is not true. *)
Definition externalIdIs (key : option string) (row : ChatUser) : bool :=
  match key, externalId row with
  | Some k, Some x => String.eqb k x
  | _, _ => false
  end.

(** [INSERT INTO users (...) VALUES (...) ON CONFLICT ("externalId") DO
    UPDATE SET ...] once it has gone through: the row with the proposed
    ["externalId"] is updated in place, and without such a row the
    proposed one is added. *)
Fixpoint upsertRow (proposed : ChatUser) (table : list ChatUser)
  : list ChatUser :=
  match table with
  | [] => [proposed]
  | row :: rest =>
      if externalIdIs (externalId proposed) row
      then onConflictUpdate row proposed :: rest
      else row :: upsertRow proposed rest
  end.

(** [DELETE FROM users WHERE "externalId" = $1] *)
Definition deleteRows (userId : option string) (table : list ChatUser)
  : list ChatUser :=
  filter (fun row => negb (externalIdIs userId row)) table.

(** What a journaled statement does to the table. *)
Definition applyStatement (table : list ChatUser) (s : Statement)
  : list ChatUser :=
  match s with
  | ChatUpsert row => upsertRow row table
  | _ => table
  end.

Definition replay (l : list Statement) (table : list ChatUser)
  : list ChatUser :=
  fold_left applyStatement l table.

(** *** The service and the table *)

Record Desk : Type := mkDesk {
  engine : State;
  chatUsers : list ChatUser
}.

(** Methods that are followed down to the table. *)
Definition MT (A : Type) : Type := Desk -> outcome A * Desk.

Definition retT {A : Type} (a : A) : MT A := fun d => (Returned a, d).

Definition throwT {A : Type} (t : thrown) : MT A := fun d => (Threw t, d).

Definition bindT {A B : Type} (m : MT A) (k : A -> MT B) : MT B :=
  fun d =>
    match m d with
    | (Returned a, d') => k a d'
    | (Threw t, d') => (Threw t, d')
    | (OutOfFuel, d') => (OutOfFuel, d')
    end.

Definition tryCatchT {A : Type} (body : MT A) (handler : thrown -> MT A)
  : MT A :=
  fun d =>
    match body d with
    | (Threw t, d') => handler t d'
    | r => r
    end.

(** The statements journaled from one state of the engine to a later
    one. *)
Definition journaledSince (before after : State) : list Statement :=
  skipn (List.length (journal (world before))) (journal (world after)).

(** A method of the engine, with the table taking the statements it
    journals. *)
Definition onTable {A : Type} (m : M A) : MT A :=
  fun d =>
    let (o, st') := m (engine d) in
    (o, mkDesk st' (replay (journaledSince (engine d) st') (chatUsers d))).

Definition modifyTable (f : list ChatUser -> list ChatUser) : MT unit :=
  fun d => (Returned tt, mkDesk (engine d) (f (chatUsers d))).

(** [this.syncStats.totalSynced++] *)
Definition countSynced (x : SyncStats) : SyncStats :=
  mkSyncStats (totalSynced x + 1) (lastSyncTime x) (lastSyncDuration x)
    (errors x) (consecutiveFailures x) (lastError x)
    (realtimeSyncActive x) (scheduledSyncActive x).

(** A query on the chat pool whose statement the journal has no entry
    for: it meets the pool's next fault like [chatQuery]. *)
Definition chatCall : M unit :=
  fun st =>
    let (fault, rest) := nextFault (chatFaults (world st)) in
    let st' := updWorld (setChatFaults rest) st in
    match fault with
    | Some e => (Threw (ThrownError e), st')
    | None => (Returned tt, st')
    end.

(** Reading a variable that is not in scope. *)
Definition referenceError (name : string) : thrown :=
  ThrownError
    (mkError (name ++ " is not defined") None
       ("ReferenceError: " ++ name ++ " is not defined")).

(** What [JSON.parse(msg.payload)] makes of a notification on
    [user_changes]: text that is no JSON (it throws the SyntaxError [e]),
    [null], and the two objects the trigger function
    [notify_user_changes] builds: [{operation: 'DELETE', id: OLD.id}],
    and [{operation: TG_OP, data: row_to_json(NEW)}] for an INSERT or an
    UPDATE ([data] can be missing in an object built by hand). *)
Inductive Payload : Type :=
| NotJson (e : error)
| JsonNull
| Deleted (id : option string)
| Changed (data : option SourceUser).

Section Handlers.

Variable cfg : Config.

(** The closure [upsertUser] retries: transform, INSERT ... ON CONFLICT
    ("externalId") DO UPDATE ... RETURNING id, count the record. *)
Definition upsertUserOperation (userData : SourceUser) : M unit :=
  transformedUser <- liftO (transformUserData userData) ;;
  chatQuery (ChatUpsert transformedUser) ;;
  modify (updStats countSynced).

(** [upsertUser(userData)].  The row it returns ([{id}], from RETURNING)
    is left out: the handler of notifications, its only caller, drops
    it. *)
Definition upsertUser (userData : SourceUser) : M unit :=
  tryCatch
    (retryWithBackoff cfg (upsertUserOperation userData))
    (fun error =>
       logError "UPSERT_USER_FAILED" (id userData) error ;;
       throw error).

(** [deleteUserFromChat(userId)]: the DELETE takes effect when the
    retried query goes through; a failure is logged and not thrown
    again. *)
Definition deleteUserFromChat (userId : option string) : MT unit :=
  tryCatchT
    (bindT (onTable (retryWithBackoff cfg chatCall))
           (fun _ => modifyTable (deleteRows userId)))
    (fun error => onTable (logError "DELETE_USER_FAILED" userId error)).

(** The handler of ['notification'].  Its [catch] block passes
    [payload?.data?.id || payload?.id] to [logError]; [payload] is
    declared with [const] inside the [try] block and is not in scope
    there, so that evaluating the argument throws a ReferenceError
    before [logError] is called. *)
Definition onNotification (payload : Payload) : MT unit :=
  tryCatchT
    (match payload with
     | NotJson e => throwT (ThrownError e)
     | JsonNull => throwT (nullDeref "operation")
     | Deleted userId => deleteUserFromChat userId
     | Changed None => retT tt
     | Changed (Some data) =>
         if isActive data then onTable (upsertUser data) else retT tt
     end)
    (fun _ => throwT (referenceError "payload")).

End Handlers.

End Realtime.

(* ================================================================== *)
(** ** Settings, the full run, verification and [setup] *)
(* ================================================================== *)

Module Lifecycle.
Import JS Transformer Engine Realtime.
Local Open Scope js_scope.

(** *** The settings the constructor reads *)

Fixpoint decimalDigits (acc : Z) (s : string) : Z :=
  match s with
  | EmptyString => acc
  | String c r =>
      if isDigit c then decimalDigits (10 * acc + (code c - 48)) r
      else acc
  end.

(** [parseInt(s)] without a radix: skip leading white space, read an
    optional sign, then hexadecimal digits after [0x]/[0X] and decimal
    digits otherwise; no digit at all gives NaN. *)
Definition parseInt (input : string) : number :=
  let s := trimStart input in
  let '(negative, s1) :=
    match s with
    | String c r =>
        if Ascii.eqb c "-"%char then (true, r)
        else if Ascii.eqb c "+"%char then (false, r)
        else (false, s)
    | EmptyString => (false, s)
    end in
  let signed (v : Z) := Num (if negative then - v else v) in
  let decimal :=
    match s1 with
    | String c _ =>
        if isDigit c then signed (decimalDigits 0 s1) else NaN
    | EmptyString => NaN
    end in
  match s1 with
  | String c (String x r) =>
      if Ascii.eqb c "0"%char
         && (Ascii.eqb x "x"%char || Ascii.eqb x "X"%char)
      then
        match r with
        | String h _ =>
            match hexDigitValue h with
            | Some _ => signed (hexDigits 0 r)
            | None => NaN
            end
        | EmptyString => NaN
        end
      else decimal
  | _ => decimal
  end.

(** [x || fallback] on a number: NaN and 0 are falsy. *)
Definition orDefault (x : number) (fallback : Z) : Z :=
  match x with
  | Num z => if z =? 0 then fallback else z
  | NaN => fallback
  end.

(** [process.env]: a variable is set to a string or not set. *)
Definition Env : Type := string -> option string.

(** [parseInt(process.env.NAME) || fallback]; [parseInt(undefined)] is
    NaN. *)
Definition intSetting (env : Env) (name : string) (fallback : Z) : Z :=
  orDefault (match env name with
             | Some v => parseInt v
             | None => NaN
             end) fallback.

(** The settings of the constructor.  [backoffMultiplier], which is read
    with [parseFloat], is given as read. *)
Definition configure (env : Env) (backoffMultiplier : Z) : Config :=
  mkConfig
    (mkRetryConfig (intSetting env "MAX_RETRIES" 3)
                   (intSetting env "RETRY_INITIAL_DELAY" 1000)
                   (intSetting env "RETRY_MAX_DELAY" 30000)
                   backoffMultiplier)
    (intSetting env "MAX_RECONNECT_ATTEMPTS" 10)
    (intSetting env "SYNC_INTERVAL_MINUTES" 1)
    (intSetting env "SYNC_WINDOW_MULTIPLIER" 3).

(** *** Queries the journal has no entry for *)

(** A query on the source pool: it meets the pool's next fault. *)
Definition sourceCall : M unit :=
  fun st =>
    let (fault, rest) := nextFault (sourceFaults (world st)) in
    let st' := updWorld (setSourceFaults rest) st in
    match fault with
    | Some e => (Threw (ThrownError e), st')
    | None => (Returned tt, st')
    end.

(** [await Promise.all([this.sourcePool.query(...),
    this.chatPool.query(...)])]: both queries are sent, and the call
    rejects when one of them does.  Which rejection is reported when both
    fail depends on their timing; here it is the source pool's. *)
Definition bothPools : M unit :=
  fun st =>
    match sourceCall st with
    | (Returned _, st') => chatCall st'
    | (Threw t, st') => (Threw t, snd (chatCall st'))
    | (OutOfFuel, st') => (OutOfFuel, st')
    end.

Definition countIf {A : Type} (p : A -> bool) (l : list A) : Z :=
  Z.of_nat (List.length (filter p l)).

(** [column > NOW() - INTERVAL '1 hour']; a comparison with NULL is not
    true. *)
Definition withinLastHour (t : Z) (column : option Z) : bool :=
  match column with
  | Some x => t - 3600000 <? x
  | None => false
  end.

(** *** [verifySyncStatus] *)

Record SyncReport : Type := mkSyncReport {
  sourceCount : Z;
  chatCount : Z;
  difference : Z;
  recentDifference : Z;
  consistent : bool;
  reportedAt : Z
}.

(** What [verifySyncStatus] returns: the report, or [{error: message}]. *)
Inductive Verification : Type :=
| Verified (report : SyncReport)
| VerificationError (message : string).

Definition reportOf (d : Desk) : SyncReport :=
  let st := engine d in
  let t := now (world st) in
  let sourceTotal := countIf isActive (sourceUsers (world st)) in
  let chatTotal := Z.of_nat (List.length (chatUsers d)) in
  let recentSource :=
    countIf (fun u => isActive u && withinLastHour t (updated_at u))
            (sourceUsers (world st)) in
  let recentChat :=
    countIf (fun row => withinLastHour t (updatedAt row)) (chatUsers d) in
  mkSyncReport sourceTotal chatTotal
    (Z.abs (sourceTotal - chatTotal))
    (Z.abs (recentSource - recentChat))
    (Z.abs (sourceTotal - chatTotal) <=? 5)
    t.

Definition verifySyncStatus : MT Verification :=
  tryCatchT
    (bindT (onTable bothPools) (fun _ =>
     bindT (onTable bothPools) (fun _ =>
     fun d => (Returned (Verified (reportOf d)), d))))
    (fun error =>
       bindT (onTable (logError "VERIFICATION_FAILED" None error))
             (fun _ =>
                retT (VerificationError
                        match error with
                        | ThrownError e => message e
                        | ThrownUndefined => ""
                        end))).

(** *** [syncAllUsers] *)

(** [a] may precede [b] under ORDER BY id (by code units; NULLs
    last). *)
Definition idPrecedes (a b : SourceUser) : bool :=
  match id a, id b with
  | Some x, Some y => String.leb x y
  | Some _, None => true
  | None, Some _ => false
  | None, None => true
  end.

Fixpoint insertById (u : SourceUser) (l : list SourceUser)
  : list SourceUser :=
  match l with
  | [] => [u]
  | v :: r => if idPrecedes u v then u :: l else v :: insertById u r
  end.

Fixpoint orderById (l : list SourceUser) : list SourceUser :=
  match l with
  | [] => []
  | u :: r => insertById u (orderById r)
  end.

(** The rows of [SELECT ... WHERE status = 'active' AND id IS NOT NULL
    ORDER BY id]. *)
Definition activeById (table : list SourceUser) : list SourceUser :=
  orderById (filter (fun u => isActive u && hasId u) table).

(** [SELECT COUNT( * ) as count FROM users WHERE status = 'active'] *)
Definition countActive : M Z :=
  sourceCall ;;
  gets (fun st => countIf isActive (sourceUsers (world st))).

(** [... ORDER BY id LIMIT $1 OFFSET $2] *)
Definition selectById (limit offset : nat) : M (list SourceUser) :=
  sourceCall ;;
  gets (fun st =>
          firstn limit (skipn offset (activeById (sourceUsers (world st))))).

Section Runs.

Variable cfg : Config.

(** [for (const user of users) { try {...} catch (error) {...} }] in
    [syncAllUsers]. *)
Fixpoint syncAllEach (users : list SourceUser) (batchSynced batchErrors : Z)
  : M (Z * Z) :=
  match users with
  | [] => ret (batchSynced, batchErrors)
  | user :: rest =>
      synced <-
        tryCatch
          (retryWithBackoff cfg (upsertOperation user) ;; ret true)
          (fun error =>
             logError "SYNC_USER_FAILED" (id user) error ;;
             ret false) ;;
      if synced : bool
      then syncAllEach rest (batchSynced + 1) batchErrors
      else syncAllEach rest batchSynced (batchErrors + 1)
  end.

Definition allLimit : nat := 1000.

(** [while (offset < totalUsers) { ...; offset += limit; }] *)
Fixpoint allPages (fuel : nat) (offset : nat) (totalUsers : Z)
    (totalSynced totalErrors : Z) : M (Z * Z) :=
  match fuel with
  | O => outOfFuel
  | S fuel' =>
      if Z.of_nat offset <? totalUsers then
        users <- selectById allLimit offset ;;
        counts <- syncAllEach users 0 0 ;;
        allPages fuel' (offset + allLimit) totalUsers
          (totalSynced + fst counts) (totalErrors + snd counts)
      else ret (totalSynced, totalErrors)
  end.

(** With [n] rows in the table the count is at most [n], and the loop
    runs at most [n] times. *)
Definition allFuel (st : State) : nat :=
  S (List.length (sourceUsers (world st))).

(** [syncAllUsers()]; it returns [{synced, errors}]. *)
Definition syncAllUsers : M (Z * Z) :=
  startTime <- dateNow ;;
  tryCatch
    (totalUsers <- countActive ;;
     fuel <- gets allFuel ;;
     counts <- allPages fuel 0 totalUsers 0 0 ;;
     t <- dateNow ;;
     modify (updStats (recordBatch (fst counts) (snd counts) t)) ;;
     t' <- dateNow ;;
     modify (updStats (setLastSyncDuration (t' - startTime))) ;;
     ret counts)
    (fun error =>
       logError "COMPLETE_SYNC_FAILED" None error ;;
       throw error).

(** *** [setup] *)

(** [while (hasMore) { hasMore = await this.bulkSyncUsers(limit,
    offset); offset += limit; }] *)
Fixpoint initialPages (fuel : nat) (limit offset : nat) : M unit :=
  match fuel with
  | O => outOfFuel
  | S fuel' =>
      hasMore <- bulkSyncUsers cfg limit offset None ;;
      if hasMore : bool
      then initialPages fuel' limit (offset + limit)
      else ret tt
  end.

(** [setup()]: the initial bulk sync, the listener, the schedule, a
    first verification; then the HTTP server and the shutdown hooks,
    which only register callbacks.  The result is the code of
    [process.exit] when the [catch] block reaches it, and [None] when
    the service is left running. *)
Definition setup : MT (option Z) :=
  tryCatchT
    (bindT (onTable (fuel <- gets allFuel ;; initialPages fuel 1000 0))
       (fun _ =>
     bindT (onTable (startRealTimeSync cfg)) (fun _ =>
     bindT (onTable (startScheduledSync cfg None)) (fun _ =>
     bindT verifySyncStatus (fun _ =>
     retT None)))))
    (fun error =>
       bindT (onTable (logError "SETUP_FAILED" None error))
             (fun _ => retT (Some 1))).

End Runs.

End Lifecycle.

(* ================================================================== *)
(** ** The tools beside the service

    The queries of diagnostic.js that announce what the service will do
    with a row, and the discrepancy report of sync_monitor.js. *)
(* ================================================================== *)

Module Tools.
Import JS Transformer Engine.

(** *** diagnostic.js, [analyzeProblematicUsers] *)

(** [LENGTH(TRIM(s)) = 0]: SQL's TRIM removes spaces, and only
    spaces. *)
Fixpoint allSpaces (s : string) : bool :=
  match s with
  | EmptyString => true
  | String c r => Ascii.eqb c " "%char && allSpaces r
  end.

(** [status = 'active' AND (phone IS NULL OR phone = '' OR
    LENGTH(TRIM(phone)) = 0)]: the rows listed with "Will become:
    <placeholder>". *)
Definition phoneIssue (u : SourceUser) : bool :=
  isActive u
  && match phone u with
     | None => true
     | Some p => String.eqb p "" || allSpaces p
     end.

(** [x IS NULL OR x = ''] *)
Definition nullOrEmpty (x : option string) : bool :=
  match x with
  | None => true
  | Some s => String.eqb s ""
  end.

(** [status = 'active' AND (first_name IS NULL OR first_name = '') AND
    (last_name IS NULL OR last_name = '')]: the rows listed with "Will
    get name". *)
Definition nameIssue (u : SourceUser) : bool :=
  isActive u && nullOrEmpty (first_name u) && nullOrEmpty (last_name u).

(** *** sync_monitor.js, [getDetailedStats] *)

(** A row of [SELECT id, updated_at, role FROM users WHERE status =
    'active'], and of [SELECT "externalId" as id, "updatedAt" as
    updated_at, role FROM users]. *)
Record Entry : Type := mkEntry {
  entryId : option string;
  entryUpdated : option Z;
  entryRole : option string
}.

(** Equality of two keys of a [Map] ([null] is a key like any
    other). *)
Definition sameKey (a b : option string) : bool :=
  match a, b with
  | Some x, Some y => String.eqb x y
  | None, None => true
  | _, _ => false
  end.

(** [map.set(k, v)]: a key that is there keeps its place. *)
Fixpoint mapSet (k : option string) (v : Entry)
    (m : list (option string * Entry)) : list (option string * Entry) :=
  match m with
  | [] => [(k, v)]
  | (k', v') :: rest =>
      if sameKey k k' then (k', v) :: rest
      else (k', v') :: mapSet k v rest
  end.

Fixpoint mapGet (k : option string) (m : list (option string * Entry))
  : option Entry :=
  match m with
  | [] => None
  | (k', v) :: rest => if sameKey k k' then Some v else mapGet k rest
  end.

(** [new Map(rows.map(user => [user.id, user]))] *)
Definition newMap (rows : list Entry) : list (option string * Entry) :=
  fold_left (fun m e => mapSet (entryId e) e m) rows [].

(** [new Date(x)] as a number, for a [Date] or [null] ([new Date(null)]
    is the epoch). *)
Definition dateValue (x : option Z) : Z :=
  match x with
  | Some t => t
  | None => 0
  end.

(** [a !== b] on two roles. *)
Definition rolesDiffer (a b : option string) : bool :=
  match a, b with
  | Some x, Some y => negb (String.eqb x y)
  | None, None => false
  | _, _ => true
  end.

Record Discrepancy : Type := mkDiscrepancy {
  discId : option string;
  source_updated : option Z;
  chat_updated : option Z;
  source_role : option string;
  chat_role : option string
}.

(** What the body of the loop pushes for one source entry, if
    anything. *)
Definition discrepancyOf (chatUsers : list (option string * Entry))
    (entry : option string * Entry) : option Discrepancy :=
  let (key, sourceUser) := entry in
  match mapGet key chatUsers with
  | None =>
      Some (mkDiscrepancy key (entryUpdated sourceUser) None
              (entryRole sourceUser) None)
  | Some chatUser =>
      if (dateValue (entryUpdated chatUser)
          <? dateValue (entryUpdated sourceUser))
         || rolesDiffer (entryRole sourceUser) (entryRole chatUser)
      then Some (mkDiscrepancy key (entryUpdated sourceUser)
                   (entryUpdated chatUser) (entryRole sourceUser)
                   (entryRole chatUser))
      else None
  end.

(** [for (const [id, sourceUser] of sourceUsers) { if
    (discrepancyCount >= 10) break; ... }] *)
Fixpoint scan (chatUsers : list (option string * Entry))
    (entries : list (option string * Entry)) (discrepancyCount : nat)
  : list Discrepancy :=
  match entries with
  | [] => []
  | entry :: rest =>
      if Nat.leb 10 discrepancyCount then []
      else
        match discrepancyOf chatUsers entry with
        | Some found => found :: scan chatUsers rest (S discrepancyCount)
        | None => scan chatUsers rest discrepancyCount
        end
  end.

Definition discrepancies (sourceRows chatRows : list Entry)
  : list Discrepancy :=
  scan (newMap chatRows) (newMap sourceRows) 0.

End Tools.

(** Observations on the table. *)
Module TableView.
Import JS Transformer Engine Realtime.

(** The non-null ["externalId"]s of a table, in order. *)
Definition keysOf (table : list ChatUser) : list string :=
  flat_map (fun row => match externalId row with
                       | Some k => [k]
                       | None => []
                       end) table.

(** The unique index on ["externalId"] that ON CONFLICT relies on. *)
Definition keysUnique (table : list ChatUser) : Prop := NoDup (keysOf table).

(** The columns an upsert never writes on an existing row. *)
Definition sameChatSide (a b : ChatUser) : Prop :=
  chatId b = chatId a
  /\ externalId b = externalId a
  /\ socketId b = socketId a
  /\ isOnline b = isOnline a
  /\ lastSeen b = lastSeen a
  /\ createdAt b = createdAt a.

(** The columns an upsert takes from the proposed row. *)
Definition sameSourceSide (a b : ChatUser) : Prop :=
  name b = name a
  /\ chatPhone b = chatPhone a
  /\ chatEmail b = chatEmail a
  /\ chatRole b = chatRole a
  /\ avatar b = avatar a
  /\ updatedAt b = updatedAt a
  /\ firstName b = firstName a
  /\ lastName b = lastName a.

(** Only the clock and the fault scripts moved. *)
Definition failedQuietly (a b : State) : Prop :=
  svc b = svc a
  /\ journal (world b) = journal (world a)
  /\ timers (world b) = timers (world a).

End TableView.

(* ================================================================== *)
(** * Properties of the transformer *)
(* ================================================================== *)

Module TransformerProps.
Import JS Transformer Spec.

(** *** Strings *)

Lemma allDigits_app (a b : string) :
  allDigits (a ++ b) = allDigits a && allDigits b.
Proof.
  induction a as [|c a IH]; simpl; [reflexivity|].
  rewrite IH, andb_assoc. reflexivity.
Qed.

Lemma allDigits_keepDigits (s : string) : allDigits (keepDigits s) = true.
Proof.
  induction s as [|c s IH]; simpl; [reflexivity|].
  destruct (isDigit c) eqn:D; simpl; [rewrite D|]; exact IH.
Qed.

Lemma allDigits_substring0 (n : nat) (s : string) :
  allDigits s = true -> allDigits (substring0 n s) = true.
Proof.
  revert s. induction n as [|n IH]; intros [|c s]; simpl; auto.
  intros H. apply andb_true_iff in H as [Hc Hs].
  rewrite Hc. simpl. auto.
Qed.

Lemma allDigits_repeat_zero (n : nat) :
  allDigits (repeatChar "0"%char n) = true.
Proof. induction n as [|n IH]; simpl; [reflexivity|exact IH]. Qed.

Lemma allDigits_padStart (n : nat) (s : string) :
  allDigits s = true -> allDigits (padStart n "0"%char s) = true.
Proof.
  intros H. unfold padStart.
  rewrite allDigits_app, allDigits_repeat_zero, H. reflexivity.
Qed.

Lemma allDigits_uint (d : Decimal.uint) :
  allDigits (NilEmpty.string_of_uint d) = true.
Proof. induction d; simpl; auto. Qed.

Lemma allDigits_numberToString (z : Z) :
  0 <= z -> allDigits (numberToString (Num z)) = true.
Proof.
  intros Hz. destruct z as [|p|p]; simpl.
  - reflexivity.
  - apply allDigits_uint.
  - lia.
Qed.

Lemma noDash_removeDashes (s : string) : noDash (removeDashes s) = true.
Proof.
  induction s as [|c s IH]; simpl; [reflexivity|].
  destruct (Ascii.eqb c "-"%char) eqn:E; simpl; [|rewrite E]; exact IH.
Qed.

Lemma noDash_substring0 (n : nat) (s : string) :
  noDash s = true -> noDash (substring0 n s) = true.
Proof.
  revert s. induction n as [|n IH]; intros [|c s]; simpl; auto.
  intros H. apply andb_true_iff in H as [Hc Hs].
  rewrite Hc. simpl. auto.
Qed.

Lemma noDash_trimStart (s : string) :
  noDash s = true -> noDash (trimStart s) = true.
Proof.
  induction s as [|c s IH]; simpl; auto.
  intros H. destruct (isWhiteSpace c); [|exact H].
  apply andb_true_iff in H as [_ Hs]. auto.
Qed.

Lemma hexDigitValue_nonneg (c : ascii) (d : Z) :
  hexDigitValue c = Some d -> 0 <= d.
Proof.
  unfold hexDigitValue. cbv zeta.
  repeat match goal with
         | |- context [if ?b then _ else _] =>
             let E := fresh "E" in
             destruct b eqn:E;
             [apply andb_true_iff in E as [E _]; apply Z.leb_le in E|]
         end.
  all: intros H; inversion H; subst; try lia.
Qed.

Lemma hexDigits_nonneg (s : string) (acc : Z) :
  0 <= acc -> 0 <= hexDigits acc s.
Proof.
  revert acc.
  induction s as [|c s IH]; cbn [hexDigits]; intros acc Hacc; auto.
  destruct (hexDigitValue c) as [d|] eqn:D; auto.
  apply IH. apply hexDigitValue_nonneg in D. lia.
Qed.

(** On a string without ["-"], [parseInt] never reads a negative
    number. *)
Lemma parseInt16_nonneg (s : string) (z : Z) :
  noDash s = true -> parseInt16 s = Num z -> 0 <= z.
Proof.
  intros H E. apply noDash_trimStart in H. unfold parseInt16 in E.
  destruct (trimStart s) as [|c r].
  - cbv in E. discriminate E.
  - cbn [noDash] in H. apply andb_true_iff in H as [Hc _].
    apply negb_true_iff in Hc. rewrite Hc in E.
    destruct (Ascii.eqb c "+"%char); cbv beta iota zeta in E;
      match type of E with
      | match ?x with _ => _ end = _ => destruct x as [|c' r']
      end; try discriminate E;
      destruct (hexDigitValue c'); try discriminate E;
      injection E as <-; apply (hexDigits_nonneg (String c' r') 0); lia.
Qed.

(** *** White space and digits *)

Lemma whiteSpace_not_digit (c : ascii) :
  isWhiteSpace c = true -> isDigit c = false.
Proof.
  unfold isWhiteSpace, isDigit. cbv zeta. intros H.
  apply andb_false_iff.
  destruct (48 <=? code c) eqn:A; [right|left; reflexivity].
  destruct (code c <=? 57) eqn:B; [|reflexivity].
  apply Z.leb_le in A, B.
  repeat (apply orb_true_iff in H as [H|H]).
  - apply andb_true_iff in H as [_ H]. apply Z.leb_le in H. lia.
  - apply Z.eqb_eq in H. lia.
  - apply Z.eqb_eq in H. lia.
Qed.

Lemma trimStart_empty_keepDigits (s : string) :
  trimStart s = "" -> keepDigits s = "".
Proof.
  induction s as [|c s IH]; simpl; [reflexivity|].
  destruct (isWhiteSpace c) eqn:W; [|discriminate].
  intros H. rewrite (whiteSpace_not_digit c W). auto.
Qed.

Lemma trimStart_head (s : string) :
  trimStart s = ""
  \/ exists c r, trimStart s = String c r /\ isWhiteSpace c = false.
Proof.
  induction s as [|c s IH]; simpl; [left; reflexivity|].
  destruct (isWhiteSpace c) eqn:W; [exact IH|].
  right. exists c, s. auto.
Qed.

Lemma trimEnd_head (c : ascii) (r : string) :
  isWhiteSpace c = false -> trimEnd (String c r) <> "".
Proof.
  intros W. simpl. rewrite W. destruct (trimEnd r); discriminate.
Qed.

(** A phone that trims to nothing holds no digit. *)
Lemma trim_empty_keepDigits (p : string) :
  trim p = "" -> keepDigits p = "".
Proof.
  unfold trim. intros H.
  destruct (trimStart_head p) as [E|(c & r & E & W)].
  - apply trimStart_empty_keepDigits, E.
  - rewrite E in H. exfalso. exact (trimEnd_head c r W H).
Qed.

(** *** The placeholder *)

Lemma placeholder_digits (userId : string) :
  parseInt16 (substring0 8 (removeDashes userId)) <> NaN ->
  exists s,
    placeholderPhone (Some userId) = Returned s
    /\ s <> "" /\ allDigits s = true.
Proof.
  intros Hn. unfold placeholderPhone.
  eexists. split; [reflexivity|]. split; [discriminate|].
  destruct (parseInt16 (substring0 8 (removeDashes userId))) as [|z] eqn:P;
    [contradiction|].
  assert (Hz : 0 <= z).
  { apply (parseInt16_nonneg _ _ (noDash_substring0 8 _
             (noDash_removeDashes userId)) P). }
  change (allDigits
            (String "9"%char
               (padStart 9 "0"%char
                  (substring0 9 (numberToString (Num z))))) = true).
  cbn [allDigits]. apply andb_true_iff. split; [reflexivity|].
  apply allDigits_padStart, allDigits_substring0,
    allDigits_numberToString, Hz.
Qed.

(** *** Roles *)

Lemma lowerChar_not_capital (c : ascii) :
  (65 <=? code (lowerChar c)) && (code (lowerChar c) <=? 90) = false.
Proof.
  destruct c as [[] [] [] [] [] [] [] []]; vm_compute; reflexivity.
Qed.

Lemma toLowerCase_no_capital (s : string) :
  hasCapital (toLowerCase s) = false.
Proof.
  induction s as [|c s IH]; simpl; [reflexivity|].
  rewrite lowerChar_not_capital, IH. reflexivity.
Qed.

Lemma capital_not_lowered (key r : string) :
  hasCapital key = true -> String.eqb (toLowerCase r) key = false.
Proof.
  intros H. apply String.eqb_neq. intros E.
  rewrite <- E, toLowerCase_no_capital in H. discriminate.
Qed.

(** Outside the table and the two lower-case names that every object
    inherits, a role maps to ['customer']; so does a missing role. *)
Lemma mapRole_default (r : string) :
  ownProperty roleMapping (toLowerCase r) = None ->
  toLowerCase r <> "constructor" ->
  toLowerCase r <> "__proto__" ->
  mapRole (Some r) = VString "customer".
Proof.
  intros Hown Hc Hp. unfold mapRole, getProperty. rewrite Hown.
  apply String.eqb_neq in Hc, Hp.
  unfold objectPrototypeKeys.
  cbn [existsb]. rewrite Hc, Hp.
  rewrite !capital_not_lowered by reflexivity.
  reflexivity.
Qed.

(** Every entry of the table is found whatever the case of the role. *)
Lemma mapRole_table (r key dest : string) :
  toLowerCase r = key ->
  In (key, dest) roleMapping ->
  mapRole (Some r) = VString dest.
Proof.
  intros E H. unfold mapRole. rewrite E.
  unfold roleMapping in H. cbn [In] in H.
  repeat (destruct H as [H|H];
          [injection H as <- <-; reflexivity|]).
  contradiction.
Qed.

(** *** Claims *)

(** C1 (the code departs from it).  Two ids whose first eight
    hexadecimal characters differ can get the same placeholder: the
    decimal rendering of the eight characters has up to ten digits and
    [sanitizePhone] keeps nine.  The diagnostic tool's copy of the
    generator, which keeps ten, tells the two ids apart. *)
Theorem placeholder_collision :
  let a := "fffffffe-0000-4000-8000-000000000000" in
  let b := "ffffffff-0000-4000-8000-000000000000" in
  substring0 8 (removeDashes a) <> substring0 8 (removeDashes b)
  /\ sanitizePhone None (Some a) = Returned "9429496729"
  /\ sanitizePhone None (Some b) = Returned "9429496729"
  /\ Diagnostic.generatePlaceholderPhone a = "94294967294"
  /\ Diagnostic.generatePlaceholderPhone b = "94294967295".
Proof.
  cbv zeta. split; [vm_compute; discriminate|].
  repeat split; vm_compute; reflexivity.
Qed.

(** C2.  The e-mail of the destination record is the source e-mail when
    [email_verified] is true, and null otherwise: when the flag is false
    or null, whatever the source e-mail is. *)
Theorem email_only_when_verified :
  forall (sourceUser : SourceUser) (chatUser : ChatUser),
    transformUserData sourceUser = Returned chatUser ->
    (email_verified sourceUser <> Some true -> chatEmail chatUser = None)
    /\ (email_verified sourceUser = Some true ->
        chatEmail chatUser = email sourceUser)
    /\ (chatEmail chatUser <> None -> email_verified sourceUser = Some true).
Proof.
  intros u c H. unfold transformUserData, bindO in H.
  destruct (buildFullName u); try discriminate.
  destruct (sanitizePhone (phone u) (id u)); try discriminate.
  injection H as <-. cbn [chatEmail]. unfold verifiedEmail.
  destruct (email_verified u) as [[|]|]; repeat split; intros; congruence.
Qed.

Lemma email_only_when_verified_witness :
  transformUserData scenarioUser = Returned scenarioResult
  /\ chatEmail scenarioResult = None.
Proof.
  split; [reflexivity|].
  apply (email_only_when_verified scenarioUser scenarioResult);
    [reflexivity|discriminate].
Defined.

(** C8 (the code departs from it).  The placeholder is meant to be
    numeric ("Generate a unique numeric placeholder phone using user
    ID"), and the claim says digits only for every non-null id.  But on
    an id where [parseInt] finds no hexadecimal digit to read, such as
    ["user-42"], it returns NaN and the placeholder carries its letters:
    whatever such id, a row without a phone gets ["9000000NaN"]. *)
Theorem sanitizePhone_non_hex_id :
  sanitizePhone None (Some "user-42") = Returned "9000000NaN"
  /\ allDigits "9000000NaN" = false
  /\ (forall userId : string,
         parseInt16 (substring0 8 (removeDashes userId)) = NaN ->
         sanitizePhone None (Some userId) = Returned "9000000NaN").
Proof.
  split; [reflexivity|]. split; [reflexivity|].
  intros userId H. unfold sanitizePhone, placeholderPhone.
  rewrite H. reflexivity.
Qed.

(** Away from such ids the claim holds.  When [parseInt] reads a number
    at the start of the id without its separators, as it does on every
    UUID, [sanitizePhone] returns a non-empty string of digits: the
    digits of the phone when it has any, and the placeholder when the
    phone is null or has none (empty and white-space-only phones have
    none). *)
Lemma sanitizePhone_digits :
  forall (phone : option string) (userId : string),
    parseInt16 (substring0 8 (removeDashes userId)) <> NaN ->
    exists s,
      sanitizePhone phone (Some userId) = Returned s
      /\ s <> "" /\ allDigits s = true
      /\ (forall p, phone = Some p -> keepDigits p <> "" ->
          s = keepDigits p)
      /\ (phone = None \/ (exists p, phone = Some p /\ keepDigits p = "") ->
          placeholderPhone (Some userId) = Returned s)
      /\ (forall p, p = "" \/ trim p = "" -> keepDigits p = "").
Proof.
  intros phone userId Hn.
  destruct (placeholder_digits userId Hn) as (ph & Hph & Hne & Hd).
  assert (Hw : forall p, p = "" \/ trim p = "" -> keepDigits p = "").
  { intros p [->|H]; [reflexivity|apply trim_empty_keepDigits, H]. }
  destruct phone as [p|].
  - destruct (String.eqb (keepDigits p) "") eqn:K.
    + apply String.eqb_eq in K. exists ph.
      assert (E : sanitizePhone (Some p) (Some userId) = Returned ph).
      { unfold sanitizePhone.
        destruct (String.eqb p "" || String.eqb (trim p) "");
          [exact Hph|].
        rewrite K. exact Hph. }
      repeat split; auto.
      intros q Hq Hk. injection Hq as <-. contradiction.
    + apply String.eqb_neq in K. exists (keepDigits p).
      assert (E : sanitizePhone (Some p) (Some userId)
                  = Returned (keepDigits p)).
      { unfold sanitizePhone.
        destruct (String.eqb p "" || String.eqb (trim p) "") eqn:W.
        - exfalso. apply K, Hw.
          apply orb_true_iff in W as [W|W]; apply String.eqb_eq in W; auto.
        - apply String.eqb_neq in K. rewrite K. reflexivity. }
      repeat split; auto.
      * apply allDigits_keepDigits.
      * intros q Hq _. injection Hq as <-. reflexivity.
      * intros [H|(q & Hq & Hk)]; [discriminate|].
        injection Hq as <-. contradiction.
  - exists ph. repeat split; auto. intros q Hq. discriminate.
Qed.

(** C9 (the code departs from it).  The default applies to a role that
    is no property of the table object; ["constructor"] is one, inherited
    from [Object.prototype], and [mapRole] returns that member instead of
    ['customer'] (see [mapRole_table] and [mapRole_default] for the
    roles on which the claim holds). *)
Theorem mapRole_inherited_member :
  mapRole (Some "constructor") = VInherited "constructor"
  /\ mapRole (Some "Constructor") = VInherited "constructor"
  /\ mapRole (Some "__proto__") = VInherited "__proto__"
  /\ mapRole (Some "constructor") <> VString "customer".
Proof. repeat split; try reflexivity. discriminate. Qed.

End TransformerProps.

(* ================================================================== *)
(** * Properties of error accounting and retries *)
(* ================================================================== *)

Module RetryProps.
Import JS Transformer Engine EventLoop Spec.

Section Retry.

Variable cfg : Config.
Variable A : Type.
Variable operation : M A.

Lemma attemptsOf_app (a b : list RetryStep) :
  attemptsOf (a ++ b) = (attemptsOf a + attemptsOf b)%nat.
Proof.
  induction a as [|[k d|k] a IH]; simpl; auto.
Qed.

(** The steps of a run are the timeline of its attempts, and there are at
    most [remaining] of them. *)
Lemma retryFrom_timeline (n : nat) :
  forall (k : Z) (last : thrown) (st : State),
    let r := retryFrom cfg operation n k last st in
    steps r = timelineFrom cfg k (attemptsOf (steps r))
    /\ (attemptsOf (steps r) <= n)%nat.
Proof.
  induction n as [|n IH]; intros k last st; cbn [retryFrom].
  - split; [reflexivity|apply Nat.le_refl].
  - set (st1 := if 0 <? k then snd (sleep (backoffDelay cfg k) st) else st).
    destruct (operation st1) as [[v|[e|]|] st2]; cbn [steps].
    + rewrite attemptsOf_app.
      destruct (0 <? k) eqn:K; cbn; rewrite K; (split; [reflexivity|lia]).
    + specialize (IH (k + 1) (ThrownError e) st2). cbv zeta in IH.
      destruct IH as [E L].
      rewrite attemptsOf_app. cbn [attemptsOf].
      destruct (0 <? k) eqn:K; cbn [attemptsOf Nat.add timelineFrom];
        rewrite K, <- E; (split; [reflexivity|lia]).
    + rewrite attemptsOf_app.
      destruct (0 <? k) eqn:K; cbn; rewrite K; (split; [reflexivity|lia]).
    + rewrite attemptsOf_app.
      destruct (0 <? k) eqn:K; cbn; rewrite K; (split; [reflexivity|lia]).
Qed.

(** A run that ends in an exception either used every iteration, and
    the exception is the [Error] the operation threw last, or it stopped
    at an attempt that threw [undefined], with the TypeError of the
    [catch] block. *)
Lemma retryFrom_threw (n : nat) :
  forall (k : Z) (last : thrown) (st : State) (t : thrown),
    let r := retryFrom cfg operation n k last st in
    result r = Threw t ->
    (attemptsOf (steps r) = n
     /\ ((n = O /\ t = last /\ final r = st)
         \/ exists e s1,
             t = ThrownError e /\ operation s1 = (Threw t, final r)))
    \/ (t = messageOfUndefined
        /\ exists s1, operation s1 = (Threw ThrownUndefined, final r)).
Proof.
  induction n as [|n IH]; intros k last st t; cbn [retryFrom].
  - cbn. intros H. injection H as <-. left. split; [reflexivity|].
    left. auto.
  - set (st1 := if 0 <? k then snd (sleep (backoffDelay cfg k) st) else st).
    destruct (operation st1) as [[v|[e|]|] st2] eqn:O;
      cbn [result steps final]; try discriminate.
    + intros H. specialize (IH (k + 1) (ThrownError e) st2 t H).
      cbv zeta in IH. destruct IH as [[E D]|U]; [left|right; exact U].
      rewrite attemptsOf_app. cbn [attemptsOf].
      split.
      * destruct (0 <? k); cbn; lia.
      * right. destruct D as [(-> & -> & F)|D]; [|exact D].
        exists e, st1. rewrite F. auto.
    + intros H. injection H as <-. right. split; [reflexivity|].
      exists st1. exact O.
Qed.

(** A run that returns leaves the failure counter at zero, whichever
    attempt succeeded. *)
Lemma retryFrom_returned (n : nat) :
  forall (k : Z) (last : thrown) (st : State) (v : A),
    let r := retryFrom cfg operation n k last st in
    result r = Returned v ->
    failuresOf (final r) = 0
    /\ exists s1 s2,
        operation s1 = (Returned v, s2)
        /\ final r = updStats (setConsecutiveFailures 0) s2.
Proof.
  induction n as [|n IH]; intros k last st v; cbn [retryFrom].
  - cbn. discriminate.
  - set (st1 := if 0 <? k then snd (sleep (backoffDelay cfg k) st) else st).
    destruct (operation st1) as [[w|[e|]|] st2] eqn:O;
      cbn [result steps final]; try discriminate.
    + intros H. injection H as <-. split; [reflexivity|].
      exists st1, st2. auto.
    + intros H. exact (IH (k + 1) (ThrownError e) st2 v H).
Qed.


(** The loop runs out of the model's bound only when the operation
    does. *)
Lemma retryFrom_outOfFuel (n : nat) :
  forall (k : Z) (last : thrown) (st : State),
    result (retryFrom cfg operation n k last st) = OutOfFuel ->
    exists s1 s2, operation s1 = (OutOfFuel, s2).
Proof.
  induction n as [|n IH]; intros k last st; cbn [retryFrom].
  - cbn. discriminate.
  - set (st1 := if 0 <? k then snd (sleep (backoffDelay cfg k) st) else st).
    destruct (operation st1) as [[w|[e|]|] st2] eqn:O;
      cbn [result]; try discriminate.
    + apply IH.
    + intros _. eauto.
Qed.

End Retry.

(** *** [logError] *)

Lemma logError_counts (errorType : string) (userId : option string)
    (e : error) (st : State) :
  exists st',
    logError errorType userId (ThrownError e) st = (Returned tt, st')
    /\ failuresOf st' = failuresOf st + 1
    /\ errors (syncStats (svc st')) = errors (syncStats (svc st)) + 1.
Proof.
  unfold logError, bind, dateNow, gets, tryCatch, chatQuery, modify, ret.
  destruct (nextFault (chatFaults (world st))) as [[f|] rest];
    eexists; (split; [reflexivity|]); split; reflexivity.
Qed.

Lemma logAll_counts (calls : list (string * option string * error)) :
  forall st : State,
    failuresOf (logAll calls st) = failuresOf st + Z.of_nat (List.length calls).
Proof.
  induction calls as [|[[ty uid] e] calls IH]; intros st.
  - cbn. lia.
  - cbn [logAll List.length]. rewrite IH.
    destruct (logError_counts ty uid e st) as (st' & E & F & _).
    rewrite E. cbn [snd]. rewrite F. lia.
Qed.

(** *** Claims *)




(** C10, as stated, fails on "every logError call": a call that is
    handed [undefined] throws on [error.message] before any counter
    moves.  The service makes that call when [MAX_RETRIES] is negative:
    the loop of [retryWithBackoff] is not entered, its [throw lastError]
    throws [undefined], and the [catch] of [bulkSyncUsers] passes it to
    [logError]. *)
Lemma logError_undefined_not_counted :
  logError "BULK_SYNC_USER_FAILED" None ThrownUndefined freshState
  = (Threw messageOfUndefined, freshState)
  /\ failuresOf
       (snd (logError "BULK_SYNC_USER_FAILED" None ThrownUndefined
               freshState))
     <> failuresOf freshState + 1
  /\ retryWithBackoff noAttempts (upsertOperation scenarioUser) freshState
     = (Threw ThrownUndefined, freshState)
  /\ syncEach noAttempts [scenarioUser] 0 0 freshState
     = (Threw messageOfUndefined, freshState).
Proof.
  split; [reflexivity|]. split; [vm_compute; discriminate|].
  split; reflexivity.
Qed.

(** C10 (amended).  The consecutive-failure counter is zero after every
    [retryWithBackoff] that returns, a success of the first attempt
    included; every [logError] call that is handed an [Error] returns
    and adds one to it, while a call that is handed [undefined] throws
    and leaves the state as it was; so after a successful
    [retryWithBackoff] the counter equals the number of [logError] calls
    on an [Error] made since, whoever made them. *)
Theorem consecutive_failures_counter :
  forall cfg : Config,
    (forall (A : Type) (operation : M A) (st st' : State) (v : A),
        retryWithBackoff cfg operation st = (Returned v, st') ->
        failuresOf st' = 0)
    /\ (forall (A : Type) (operation : M A) (st st2 : State) (v : A),
           0 <= maxRetries (retryConfig cfg) ->
           operation st = (Returned v, st2) ->
           steps (retryRun cfg operation st) = [Attempted 0]
           /\ retryWithBackoff cfg operation st
              = (Returned v, updStats (setConsecutiveFailures 0) st2))
    /\ (forall (errorType : string) (userId : option string) (e : error)
               (st : State),
           exists st',
             logError errorType userId (ThrownError e) st = (Returned tt, st')
             /\ failuresOf st' = failuresOf st + 1)
    /\ (forall (errorType : string) (userId : option string) (st : State),
           logError errorType userId ThrownUndefined st
           = (Threw messageOfUndefined, st))
    /\ (forall (A : Type) (operation : M A) (st st' : State) (v : A)
               (calls : list (string * option string * error)),
           retryWithBackoff cfg operation st = (Returned v, st') ->
           failuresOf (logAll calls st') = Z.of_nat (List.length calls)).
Proof.
  intros cfg.
  assert (R : forall (A : Type) (operation : M A) (st st' : State) (v : A),
             retryWithBackoff cfg operation st = (Returned v, st') ->
             failuresOf st' = 0).
  { intros A operation st st' v H. unfold retryWithBackoff in H.
    cbv zeta in H. injection H as Hr Hf. rewrite <- Hf.
    exact (proj1 (retryFrom_returned cfg A operation _ _ _ _ v Hr)). }
  split; [exact R|]. split; [|split; [|split]].
  - intros A operation st st2 v Hmax O.
    unfold retryWithBackoff, retryRun.
    destruct (Z.to_nat (maxRetries (retryConfig cfg) + 1)) as [|n] eqn:N;
      [lia|].
    cbn [retryFrom Z.ltb Z.compare]. rewrite O. cbn. auto.
  - intros ty uid e st.
    destruct (logError_counts ty uid e st) as (st' & E & F & _).
    exists st'. auto.
  - reflexivity.
  - intros A operation st st' v calls H.
    rewrite logAll_counts, (R A operation st st' v H). lia.
Qed.

Lemma consecutive_failures_counter_witness :
  failuresOf
    (logAll [("POOL_ERROR", None, boom); ("DELETE_USER_FAILED", None, boom)]
       (snd (retryWithBackoff defaultConfig (ret tt)
               (snd (logError "POOL_ERROR" None (ThrownError boom)
                       freshState)))))
  = 2.
Proof.
  apply (proj2 (proj2 (proj2 (proj2
           (consecutive_failures_counter defaultConfig))))
           unit (ret tt)
           (snd (logError "POOL_ERROR" None (ThrownError boom) freshState))
           _ tt).
  reflexivity.
Defined.

End RetryProps.

(* ================================================================== *)
(** * What the methods leave alone *)
(* ================================================================== *)

Module FrameProps.
Import JS Transformer Engine EventLoop Spec.

Lemma quiet_advanceClock (ms : Z) : quietUpdate (advanceClock ms).
Proof. intros w. repeat split. Qed.

Lemma quiet_appendJournal (x : Statement) : quietUpdate (appendJournal x).
Proof. intros w. repeat split. Qed.

Lemma quiet_setSourceFaults fs : quietUpdate (setSourceFaults fs).
Proof. intros w. repeat split. Qed.

Lemma quiet_setChatFaults fs : quietUpdate (setChatFaults fs).
Proof. intros w. repeat split. Qed.

Lemma quiet_setClientFaults fs : quietUpdate (setClientFaults fs).
Proof. intros w. repeat split. Qed.

Lemma quiet_setSourceScans scans : quietUpdate (setSourceScans scans).
Proof. intros w. repeat split. Qed.

Create HintDb frame.

#[export] Hint Resolve quiet_advanceClock quiet_appendJournal
  quiet_setSourceFaults quiet_setChatFaults quiet_setClientFaults
  quiet_setSourceScans : frame.

Section Frames.

Context {R : State -> State -> Prop} `{Frame R}.

Lemma keeps_ret {A : Type} (a : A) : keeps R (ret a).
Proof. intros st. apply frame_refl. Qed.

Lemma keeps_throw {A : Type} (t : thrown) : keeps R (@throw A t).
Proof. intros st. apply frame_refl. Qed.

Lemma keeps_outOfFuel {A : Type} : keeps R (@outOfFuel A).
Proof. intros st. apply frame_refl. Qed.

Lemma keeps_gets {A : Type} (f : State -> A) : keeps R (gets f).
Proof. intros st. apply frame_refl. Qed.

Lemma keeps_liftO {A : Type} (o : outcome A) : keeps R (liftO o).
Proof. intros st. apply frame_refl. Qed.

Lemma keeps_bind {A B : Type} (m : M A) (k : A -> M B) :
  keeps R m -> (forall a, keeps R (k a)) -> keeps R (bind m k).
Proof.
  intros Hm Hk st. unfold bind. specialize (Hm st).
  destruct (m st) as [[a|t|] st']; cbn [snd] in *; auto.
  eapply frame_trans; [exact Hm|apply Hk].
Qed.

Lemma keeps_tryCatch {A : Type} (m : M A) (h : thrown -> M A) :
  keeps R m -> (forall t, keeps R (h t)) -> keeps R (tryCatch m h).
Proof.
  intros Hm Hh st. unfold tryCatch. specialize (Hm st).
  destruct (m st) as [[a|t|] st']; cbn [snd] in *; auto.
  eapply frame_trans; [exact Hm|apply Hh].
Qed.

Lemma keeps_tryFinally {A : Type} (m : M A) (f : M unit) :
  keeps R m -> keeps R f -> keeps R (tryFinally m f).
Proof.
  intros Hm Hf st. unfold tryFinally. specialize (Hm st).
  destruct (m st) as [[a|t|] st']; cbn [snd] in *; auto;
    specialize (Hf st'); destruct (f st') as [[u|t'|] st''];
    cbn [snd] in *; eapply frame_trans; eauto.
Qed.

Lemma keeps_stats (f : SyncStats -> SyncStats) : keeps R (modify (updStats f)).
Proof. intros st. apply frame_stats. Qed.

Lemma keeps_sleep (ms : Z) : keeps R (sleep ms).
Proof. intros st. apply frame_quiet. auto with frame. Qed.

Lemma keeps_dateNow : keeps R dateNow.
Proof. apply keeps_gets. Qed.

Lemma keeps_chatQuery (x : Statement) : keeps R (chatQuery x).
Proof.
  intros st. unfold chatQuery.
  destruct (nextFault (chatFaults (world st))) as [[e|] rest]; cbn [snd].
  - apply frame_quiet. auto with frame.
  - eapply frame_trans; apply frame_quiet; auto with frame.
Qed.

Lemma keeps_clientCall : keeps R clientCall.
Proof.
  intros st. unfold clientCall.
  destruct (nextFault (clientFaults (world st))) as [[e|] rest]; cbn [snd];
    apply frame_quiet; auto with frame.
Qed.

Lemma keeps_sourceQuery limit offset since :
  keeps R (sourceQuery limit offset since).
Proof.
  intros st. unfold sourceQuery.
  destruct (nextFault (sourceFaults (world st))) as [[e|] rest]; cbn [snd].
  - apply frame_quiet. auto with frame.
  - destruct (nextScan (sourceScans (world st))) as [scan scans].
    cbn [snd].
    apply (frame_trans _ (updWorld (setSourceFaults rest) st));
      [apply frame_quiet; auto with frame|].
    apply (frame_trans _ (updWorld (setSourceScans scans)
                            (updWorld (setSourceFaults rest) st)));
      apply frame_quiet; auto with frame.
Qed.

Lemma keeps_logError errorType userId err :
  keeps R (logError errorType userId err).
Proof.
  unfold logError. destruct err as [e|]; [|apply keeps_throw].
  apply keeps_bind; [apply keeps_dateNow|intros t].
  apply keeps_bind; [|intros _; apply keeps_stats].
  apply keeps_tryCatch; [apply keeps_chatQuery|intros _; apply keeps_ret].
Qed.

Lemma keeps_retryFrom (cfg : Config) {A : Type} (operation : M A) :
  keeps R operation ->
  forall n k last st, R st (final (retryFrom cfg operation n k last st)).
Proof.
  intros Hop. induction n as [|n IH]; intros k last st; cbn [retryFrom].
  - apply frame_refl.
  - set (st1 := if 0 <? k then snd (sleep (backoffDelay cfg k) st) else st).
    assert (H1 : R st st1).
    { unfold st1. destruct (0 <? k); [apply keeps_sleep|apply frame_refl]. }
    specialize (Hop st1).
    destruct (operation st1) as [[v|[e|]|] st2]; cbn [final snd] in *.
    + eapply frame_trans; [exact H1|]. eapply frame_trans; [exact Hop|].
      apply frame_stats.
    + eapply frame_trans; [exact H1|].
      eapply frame_trans; [exact Hop|]. apply IH.
    + eapply frame_trans; eauto.
    + eapply frame_trans; eauto.
Qed.

Lemma keeps_retryWithBackoff (cfg : Config) {A : Type} (operation : M A) :
  keeps R operation -> keeps R (retryWithBackoff cfg operation).
Proof.
  intros Hop st. unfold retryWithBackoff, retryRun. cbn [snd].
  apply keeps_retryFrom, Hop.
Qed.

Lemma keeps_upsertOperation user : keeps R (upsertOperation user).
Proof.
  unfold upsertOperation.
  apply keeps_bind; [apply keeps_liftO|intros c; apply keeps_chatQuery].
Qed.

Lemma keeps_syncEach (cfg : Config) users :
  forall s e, keeps R (syncEach cfg users s e).
Proof.
  induction users as [|u users IH]; intros s e; cbn [syncEach].
  - apply keeps_ret.
  - apply keeps_bind.
    + apply keeps_tryCatch.
      * apply keeps_bind; [|intros _; apply keeps_ret].
        apply keeps_retryWithBackoff, keeps_upsertOperation.
      * intros t. apply keeps_bind; [apply keeps_logError|].
        intros _. apply keeps_ret.
    + intros [|]; apply IH.
Qed.

Lemma keeps_bulkSyncUsers (cfg : Config) limit offset since :
  keeps R (bulkSyncUsers cfg limit offset since).
Proof.
  unfold bulkSyncUsers. apply keeps_tryCatch.
  - apply keeps_bind; [apply keeps_sourceQuery|intros users].
    destruct (Nat.eqb (List.length users) 0); [apply keeps_ret|].
    apply keeps_bind; [apply keeps_syncEach|intros counts].
    apply keeps_bind; [apply keeps_dateNow|intros t].
    apply keeps_bind; [apply keeps_stats|intros _; apply keeps_ret].
  - intros t. apply keeps_bind; [apply keeps_logError|].
    intros _. apply keeps_throw.
Qed.

Lemma keeps_syncPages (cfg : Config) limit since :
  forall fuel offset, keeps R (syncPages cfg fuel limit offset since).
Proof.
  induction fuel as [|fuel IH]; intros offset; cbn [syncPages].
  - apply keeps_outOfFuel.
  - apply keeps_bind; [apply keeps_bulkSyncUsers|].
    intros [|]; [apply IH|apply keeps_ret].
Qed.

Lemma keeps_cyclePages (cfg : Config) startTime since :
  keeps R (cyclePages cfg startTime since).
Proof.
  unfold cyclePages. apply keeps_bind; [apply keeps_gets|intros fuel].
  apply keeps_bind; [apply keeps_syncPages|intros _].
  apply keeps_bind; [apply keeps_dateNow|intros t]. apply keeps_stats.
Qed.

End Frames.

End FrameProps.

(* ================================================================== *)
(** * Properties of the health evaluation *)
(* ================================================================== *)

Module HealthProps.
Import JS Transformer Engine EventLoop Spec.

Lemma isHealthy_coded (st : State) :
  Health.isHealthy st = true <-> healthyAsCoded st.
Proof.
  unfold Health.isHealthy, healthyAsCoded, failuresOf,
    Health.timeSinceLastSyncMs, Health.recentEnough.
  rewrite !andb_true_iff, Z.ltb_lt.
  destruct (lastSyncTime (syncStats (svc st))) as [t|].
  - rewrite Z.ltb_lt. split.
    + intros [[F T] L]. split; [exact F|]. split; [|exact L].
      right. exists t. split; [reflexivity|lia].
    + intros (F & [T|(t' & E & T)] & L); [discriminate T|].
      injection E as <-. split; [split|]; [exact F|lia|exact L].
  - split.
    + intros [[F _] L]. split; [exact F|]. split; [left; reflexivity|exact L].
    + intros (F & _ & L). split; [split|]; [exact F|reflexivity|exact L].
Qed.

(** C6, as stated, fails before the first sync: there is no last sync
    whose age could be below 600 seconds, and the status is HEALTHY. *)
Lemma healthy_before_first_sync :
  Health.status (Health.getHealthStatus defaultConfig listeningState)
  = "HEALTHY"
  /\ lastSyncTime (syncStats (svc listeningState)) = None
  /\ ~ healthyAsStated listeningState.
Proof.
  split; [reflexivity|]. split; [reflexivity|].
  intros (_ & (t & E & _) & _). discriminate E.
Qed.

(** C6 (amended).  The status is HEALTHY exactly when the
    consecutive-failure count is below 5, the listener is listening, and
    either no sync has completed yet or the last one is less than 600
    seconds old; otherwise it is UNHEALTHY. *)
Theorem health_status_signals :
  forall (cfg : Config) (st : State),
    (Health.status (Health.getHealthStatus cfg st) = "HEALTHY"
     <-> healthyAsCoded st)
    /\ (Health.status (Health.getHealthStatus cfg st) = "UNHEALTHY"
        <-> ~ healthyAsCoded st).
Proof.
  intros cfg st. rewrite <- isHealthy_coded.
  unfold Health.getHealthStatus. cbn [Health.status].
  destruct (Health.isHealthy st); split; split; intros H;
    try reflexivity; try discriminate H; try congruence.
Qed.

Lemma health_status_signals_witness :
  Health.status (Health.getHealthStatus defaultConfig freshState)
  = "UNHEALTHY".
Proof.
  apply (proj2 (health_status_signals defaultConfig freshState)).
  intros (_ & _ & L). discriminate L.
Defined.

End HealthProps.

(* ================================================================== *)
(** * The loops of the model end *)
(* ================================================================== *)

Module TotalProps.
Import JS Transformer Engine EventLoop Spec FrameProps.

Lemma total_ret {A : Type} (a : A) : total (ret a).
Proof. intros st. discriminate. Qed.

Lemma total_throw {A : Type} (t : thrown) : total (@throw A t).
Proof. intros st. discriminate. Qed.

Lemma total_gets {A : Type} (f : State -> A) : total (gets f).
Proof. intros st. discriminate. Qed.

Lemma total_modify (f : State -> State) : total (modify f).
Proof. intros st. discriminate. Qed.

Lemma total_bind {A B : Type} (m : M A) (k : A -> M B) :
  total m -> (forall a, total (k a)) -> total (bind m k).
Proof.
  intros Hm Hk st. unfold bind. specialize (Hm st).
  destruct (m st) as [[a|t|] st']; cbn [fst] in *;
    [apply Hk|discriminate|contradiction].
Qed.

Lemma total_tryCatch {A : Type} (m : M A) (h : thrown -> M A) :
  total m -> (forall t, total (h t)) -> total (tryCatch m h).
Proof.
  intros Hm Hh st. unfold tryCatch. specialize (Hm st).
  destruct (m st) as [[a|t|] st']; cbn [fst] in *;
    [discriminate|apply Hh|contradiction].
Qed.

Lemma total_tryFinally {A : Type} (m : M A) (f : M unit) :
  total m -> total f -> total (tryFinally m f).
Proof.
  intros Hm Hf st. unfold tryFinally. specialize (Hm st).
  destruct (m st) as [[a|t|] st']; cbn [fst] in *; try contradiction;
    specialize (Hf st'); destruct (f st') as [[u|t'|] st''];
    cbn [fst] in *; try discriminate; contradiction.
Qed.

Lemma total_chatQuery (x : Statement) : total (chatQuery x).
Proof.
  intros st. unfold chatQuery.
  destruct (nextFault (chatFaults (world st))) as [[e|] rest]; discriminate.
Qed.

Lemma total_clientCall : total clientCall.
Proof.
  intros st. unfold clientCall.
  destruct (nextFault (clientFaults (world st))) as [[e|] rest]; discriminate.
Qed.

Lemma total_sourceQuery limit offset since :
  total (sourceQuery limit offset since).
Proof.
  intros st. unfold sourceQuery.
  destruct (nextFault (sourceFaults (world st))) as [[e|] rest];
    [discriminate|].
  destruct (nextScan (sourceScans (world st))); discriminate.
Qed.

Lemma total_logError errorType userId err :
  total (logError errorType userId err).
Proof.
  unfold logError. destruct err as [e|]; [|apply total_throw].
  apply total_bind; [apply total_gets|intros t].
  apply total_bind; [|intros _; apply total_modify].
  apply total_tryCatch; [apply total_chatQuery|intros _; apply total_ret].
Qed.

Lemma total_retryFrom (cfg : Config) {A : Type} (operation : M A) :
  total operation ->
  forall n k last st,
    result (retryFrom cfg operation n k last st) <> OutOfFuel.
Proof.
  intros Hop. induction n as [|n IH]; intros k last st; cbn [retryFrom].
  - discriminate.
  - set (st1 := if 0 <? k then snd (sleep (backoffDelay cfg k) st) else st).
    specialize (Hop st1).
    destruct (operation st1) as [[v|[e|]|] st2]; cbn [result fst] in *;
      [discriminate|apply IH|discriminate|contradiction].
Qed.

Lemma total_retryWithBackoff (cfg : Config) {A : Type} (operation : M A) :
  total operation -> total (retryWithBackoff cfg operation).
Proof.
  intros Hop st. unfold retryWithBackoff, retryRun. cbn [fst].
  apply total_retryFrom, Hop.
Qed.

Lemma buildFullName_total (u : SourceUser) :
  buildFullName u <> OutOfFuel.
Proof.
  unfold buildFullName.
  destruct (nonEmpty (trimmedOrEmpty (first_name u))
            && nonEmpty (trimmedOrEmpty (last_name u))); [discriminate|].
  destruct (nonEmpty (trimmedOrEmpty (first_name u))); [discriminate|].
  destruct (nonEmpty (trimmedOrEmpty (last_name u))); [discriminate|].
  destruct (id u); discriminate.
Qed.

Lemma placeholderPhone_total (userId : option string) :
  placeholderPhone userId <> OutOfFuel.
Proof. destruct userId; discriminate. Qed.

Lemma sanitizePhone_total (phone userId : option string) :
  sanitizePhone phone userId <> OutOfFuel.
Proof.
  unfold sanitizePhone. destruct phone as [p|];
    [|apply placeholderPhone_total].
  destruct (String.eqb p "" || String.eqb (trim p) "");
    [apply placeholderPhone_total|].
  destruct (String.eqb (keepDigits p) "");
    [apply placeholderPhone_total|discriminate].
Qed.

Lemma transformUserData_total (u : SourceUser) :
  transformUserData u <> OutOfFuel.
Proof.
  unfold transformUserData, bindO.
  pose proof (buildFullName_total u) as B.
  destruct (buildFullName u); try discriminate; try contradiction.
  pose proof (sanitizePhone_total (phone u) (id u)) as P.
  destruct (sanitizePhone (phone u) (id u));
    try discriminate; contradiction.
Qed.

Lemma total_upsertOperation user : total (upsertOperation user).
Proof.
  unfold upsertOperation. apply total_bind.
  - intros st. apply transformUserData_total.
  - intros c. apply total_chatQuery.
Qed.

Lemma total_syncEach (cfg : Config) users :
  forall s e, total (syncEach cfg users s e).
Proof.
  induction users as [|u users IH]; intros s e; cbn [syncEach].
  - apply total_ret.
  - apply total_bind.
    + apply total_tryCatch.
      * apply total_bind; [|intros _; apply total_ret].
        apply total_retryWithBackoff, total_upsertOperation.
      * intros t. apply total_bind; [apply total_logError|].
        intros _. apply total_ret.
    + intros [|]; apply IH.
Qed.

Lemma total_bulkSyncUsers (cfg : Config) limit offset since :
  total (bulkSyncUsers cfg limit offset since).
Proof.
  unfold bulkSyncUsers. apply total_tryCatch.
  - apply total_bind; [apply total_sourceQuery|intros users].
    destruct (Nat.eqb (List.length users) 0); [apply total_ret|].
    apply total_bind; [apply total_syncEach|intros counts].
    apply total_bind; [apply total_gets|intros t].
    apply total_bind; [apply total_modify|intros _; apply total_ret].
  - intros t. apply total_bind; [apply total_logError|].
    intros _. apply total_throw.
Qed.

(** *** The pagination loop *)

#[export] Instance sameFlag_frame : Frame sameFlag.
Proof.
  split.
  - intros s. split; reflexivity.
  - intros a b c [F1 U1] [F2 U2]. split; congruence.
  - intros f st. split; reflexivity.
  - intros f st Q. split; [reflexivity|]. apply (Q (world st)).
Qed.

Lemma insertDesc_length (u : SourceUser) (l : list SourceUser) :
  List.length (insertDesc u l) = S (List.length l).
Proof.
  induction l as [|v l IH]; cbn [insertDesc]; [reflexivity|].
  destruct (precedes u v); cbn [List.length]; congruence.
Qed.

Lemma orderByUpdatedAtDesc_length (l : list SourceUser) :
  List.length (orderByUpdatedAtDesc l) = List.length l.
Proof.
  induction l as [|u l IH]; cbn [orderByUpdatedAtDesc]; [reflexivity|].
  rewrite insertDesc_length. cbn. congruence.
Qed.

(** *** Scans *)

Lemma removeAt_perm {A : Type} (l : list A) :
  forall (p : nat) (x : A),
    nth_error l p = Some x -> Permutation l (x :: removeAt p l).
Proof.
  induction l as [|y l IH]; intros [|p] x; cbn; try discriminate.
  - intros E. injection E as <-. reflexivity.
  - intros E. rewrite (IH p x E) at 1. apply perm_swap.
Qed.

(** A scan reads every row of the table once. *)
Lemma scanBy_perm (picks : list nat) :
  forall table : list SourceUser, Permutation (scanBy picks table) table.
Proof.
  induction picks as [|p picks IH]; intros table; cbn [scanBy];
    [reflexivity|].
  destruct (nth_error table p) as [u|] eqn:E; [|reflexivity].
  rewrite (IH (removeAt p table)). symmetry. apply removeAt_perm, E.
Qed.

Lemma filter_perm {A : Type} (f : A -> bool) (l l' : list A) :
  Permutation l l' -> Permutation (filter f l) (filter f l').
Proof.
  induction 1 as [|x l l' P IH|x y l|l l' l'' P1 IH1 P2 IH2]; cbn.
  - reflexivity.
  - destruct (f x); [apply perm_skip|]; exact IH.
  - destruct (f x), (f y); try reflexivity. apply perm_swap.
  - rewrite IH1. exact IH2.
Qed.

(** Whatever the scan, the query finds as many rows. *)
Lemma selected_length (f : SourceUser -> bool) (picks : list nat)
    (table : list SourceUser) :
  List.length (filter f (scanBy picks table)) = List.length (filter f table).
Proof. apply Permutation_length, filter_perm, scanBy_perm. Qed.

(** A handler that rethrows never returns. *)
Lemma rethrow_not_returned (m : M unit) (t : thrown) (st st' : State)
    (b : bool) :
  bind m (fun _ => throw t) st <> (Returned b, st').
Proof.
  unfold bind, throw. destruct (m st) as [[u|e|] s1]; discriminate.
Qed.

(** [bulkSyncUsers] answers "there may be more" only after a full,
    non-empty page. *)
Lemma bulkSyncUsers_hasMore (cfg : Config) (limit offset : nat)
    (since : option Z) (st st' : State) :
  bulkSyncUsers cfg limit offset since st = (Returned true, st') ->
  List.length
    (selectPage
       (scanBy (fst (nextScan (sourceScans (world st))))
               (sourceUsers (world st)))
       limit offset since) = limit
  /\ limit <> O.
Proof.
  unfold bulkSyncUsers, tryCatch.
  unfold bind at 1. unfold sourceQuery.
  destruct (nextFault (sourceFaults (world st))) as [[e|] rest].
  - intros H. exfalso. exact (rethrow_not_returned _ _ _ _ _ H).
  - destruct (nextScan (sourceScans (world st))) as [scan scans].
    cbn [fst].
    set (rows := selectPage (scanBy scan (sourceUsers (world st)))
                            limit offset since).
    destruct (Nat.eqb (List.length rows) 0) eqn:Z0.
    + unfold ret. intros H. discriminate H.
    + unfold bind at 1.
      destruct (syncEach cfg rows 0 0 _) as [[c|t|] s1].
      * unfold bind, dateNow, gets, modify, ret. intros H.
        injection H as E _. apply Nat.eqb_eq in E.
        apply Nat.eqb_neq in Z0. split; [exact E|congruence].
      * intros H. exfalso. exact (rethrow_not_returned _ _ _ _ _ H).
      * discriminate.
Qed.

Lemma syncPages_total (cfg : Config) (limit : nat) (since : Z) :
  forall (fuel offset : nat) (st : State),
    (List.length
       (orderByUpdatedAtDesc
          (filter (whereClause (Some since)) (sourceUsers (world st))))
     - offset < fuel * limit)%nat ->
    fst (syncPages cfg fuel limit offset since st) <> OutOfFuel.
Proof.
  induction fuel as [|fuel IH]; intros offset st Hfuel; [lia|].
  cbn [syncPages]. unfold bind.
  pose proof (total_bulkSyncUsers cfg limit offset (Some since) st) as T.
  pose proof (keeps_bulkSyncUsers (R := sameFlag) cfg limit offset
                (Some since) st) as [_ K].
  destruct (bulkSyncUsers cfg limit offset (Some since) st)
    as [[[|]|t|] st1] eqn:B; cbn [fst snd] in *;
    try discriminate; try contradiction.
  destruct (bulkSyncUsers_hasMore _ _ _ _ _ _ B) as [L N].
  unfold selectPage in L.
  rewrite length_firstn, length_skipn, orderByUpdatedAtDesc_length,
    selected_length in L.
  apply IH. rewrite K. rewrite orderByUpdatedAtDesc_length in *. lia.
Qed.

Lemma total_cyclePages (cfg : Config) startTime since :
  total (cyclePages cfg startTime since).
Proof.
  intros st. unfold cyclePages, bind at 1, gets at 1.
  unfold bind at 1.
  pose proof (syncPages_total cfg cycleLimit since (cycleFuel st) 0 st) as T.
  destruct (syncPages cfg (cycleFuel st) cycleLimit 0 since st)
    as [[u|t|] st1]; cbn [fst] in *; try discriminate.
  exfalso. apply T; [|reflexivity].
  rewrite orderByUpdatedAtDesc_length. unfold cycleFuel, cycleLimit.
  pose proof (filter_length_le (whereClause (Some since))
                (sourceUsers (world st))). lia.
Qed.

End TotalProps.

(* ================================================================== *)
(** * Mutual exclusion of the scheduled passes *)
(* ================================================================== *)

Module MutexProps.
Import JS Transformer Engine EventLoop Spec FrameProps TotalProps.

(** Structural steps of a frame proof for [sameFlag]; a leaf is a field
    update that leaves the flag and the table alone. *)
Ltac frame_flag :=
  repeat first
    [ apply keeps_ret | apply keeps_throw | apply keeps_gets
    | apply keeps_logError | apply keeps_clientCall
    | apply keeps_bind; [|intros ?]
    | apply keeps_tryCatch; [|intros ?]
    | match goal with
      | |- keeps _ (if ?b then _ else _) => destruct b
      | |- keeps _ (match ?x with _ => _ end) => destruct x
      end
    | (intros ?; split; reflexivity) ].

Lemma flag_scheduleNextSync (i : Z) : keeps sameFlag (scheduleNextSync i).
Proof. unfold scheduleNextSync. frame_flag. Qed.

Lemma flag_startScheduledSync (cfg : Config) (i : option Z) :
  keeps sameFlag (startScheduledSync cfg i).
Proof. unfold startScheduledSync. frame_flag. Qed.

Lemma flag_attemptRealtimeReconnection (cfg : Config) :
  keeps sameFlag (attemptRealtimeReconnection cfg).
Proof. unfold attemptRealtimeReconnection. frame_flag. Qed.

Lemma flag_startRealTimeSync (cfg : Config) :
  keeps sameFlag (startRealTimeSync cfg).
Proof.
  unfold startRealTimeSync. frame_flag.
Qed.

Lemma flag_reconnectCallback (cfg : Config) :
  keeps sameFlag (reconnectCallback cfg).
Proof.
  unfold reconnectCallback.
  apply keeps_tryCatch; [apply flag_startRealTimeSync|].
  intros _. apply keeps_ret.
Qed.

Lemma flag_onClientError (cfg : Config) : keeps sameFlag (onClientError cfg).
Proof.
  unfold onClientError. frame_flag.
Qed.

Lemma flag_onClientEnd (cfg : Config) : keeps sameFlag (onClientEnd cfg).
Proof.
  unfold onClientEnd. frame_flag.
Qed.

(** A trigger that finds the flag clear sets it and suspends one pass. *)
Lemma cycleEnter_sets (cfg : Config) (i : Z) (st : State) :
  exists st',
    cycleEnter cfg i st
    = (Returned (lookbackStart cfg i (now (world st))), st')
    /\ isSyncInProgress (svc st') = true.
Proof. eexists. split; reflexivity. Qed.

Lemma scheduleNextSync_returns (i : Z) (st : State) :
  scheduleNextSync i st
  = (Returned tt,
     mkState
       (svc (setScheduledSyncTimeout (Some (nextHandle (world st))) st))
       (setTimers
          (withoutHandle (scheduledSyncTimeout (svc st)) (timers (world st))
             ++ [mkTimer (nextHandle (world st)) (i * 60 * 1000)
                   (RunScheduledSyncCycle i)])
          (S (nextHandle (world st))) (world st))).
Proof.
  unfold scheduleNextSync, bind, gets.
  destruct st as [s w]. destruct (scheduledSyncTimeout s) eqn:E;
    cbn; rewrite ?E; reflexivity.
Qed.

Lemma cycleFinally_clears (i : Z) (st : State) :
  exists st',
    cycleFinally i st = (Returned tt, st')
    /\ isSyncInProgress (svc st') = false.
Proof.
  unfold cycleFinally, bind, modify.
  rewrite scheduleNextSync_returns. eexists. split; reflexivity.
Qed.

(** A pass that settles clears the flag, however it ends. *)
Lemma cycleResume_clears (cfg : Config) (p : Pass) (st : State) :
  isSyncInProgress (svc (snd (cycleResume cfg p st))) = false.
Proof.
  unfold cycleResume, tryFinally.
  assert (T : total (tryCatch (cyclePages cfg (passStart p) (passSince p))
                              cycleCatch)).
  { apply total_tryCatch; [apply total_cyclePages|].
    intros t. apply total_logError. }
  specialize (T st).
  destruct (tryCatch _ _ st) as [[u|t|] st1]; cbn [fst] in T;
    try contradiction;
    destruct (cycleFinally_clears (passInterval p) st1) as (st2 & E & F);
    rewrite E; exact F.
Qed.

(** Suspending a pass at its first [await] and resuming it at once is
    the uninterrupted call. *)
Lemma cycle_split (cfg : Config) (i : Z) (st : State) :
  isSyncInProgress (svc st) = false ->
  exists p st1,
    cycleBegin cfg i (mkRuntime st []) = mkRuntime st1 [p]
    /\ runScheduledSyncCycle cfg i st = cycleResume cfg p st1.
Proof.
  intros F. unfold cycleBegin. cbn [state running]. rewrite F.
  destruct (cycleEnter_sets cfg i st) as (st1 & E & _). rewrite E.
  eexists. exists st1. split; [reflexivity|].
  unfold runScheduledSyncCycle, bind at 1 2, dateNow, gets. rewrite F.
  unfold cycleResume, tryFinally, tryCatch. unfold bind at 1. rewrite E.
  reflexivity.
Qed.

Lemma step_keeps_flagMatchesRunning (cfg : Config) (rt : Runtime)
    (e : Occurrence) :
  flagMatchesRunning rt -> flagMatchesRunning (step cfg rt e).
Proof.
  intros Inv.
  assert (K : forall st', sameFlag (state rt) st' ->
                flagMatchesRunning (mkRuntime st' (running rt))).
  { intros st' [F _]. unfold flagMatchesRunning. cbn [state running].
    rewrite F. exact Inv. }
  destruct e as [ms|h| | | |i]; cbn [step].
  - destruct (0 <=? ms); [|exact Inv].
    apply K. apply frame_quiet. auto with frame.
  - destruct (takeTimer h (timers (world (state rt)))) as [[t rest]|];
      [|exact Inv].
    set (st' := updWorld (setTimers rest (nextHandle (world (state rt))))
                         (state rt)).
    assert (S' : sameFlag (state rt) st') by (split; reflexivity).
    assert (B : forall i, flagMatchesRunning
                            (cycleBegin cfg i (mkRuntime st' (running rt)))).
    { intros i. unfold cycleBegin. cbn [state running].
      destruct (isSyncInProgress (svc st')) eqn:F.
      - pose proof (flag_scheduleNextSync i st') as [F2 _].
        unfold flagMatchesRunning. cbn [state running].
        rewrite F2, F. destruct Inv as [[_ R]|[F0 _]]; [left; auto|].
        destruct S' as [S1 _]. congruence.
      - destruct (cycleEnter_sets cfg i st') as (st2 & E & F2). rewrite E.
        left. cbn [state running]. split; [exact F2|].
        destruct Inv as [[F0 _]|[_ R]].
        + destruct S' as [S1 _]. congruence.
        + rewrite R. eexists. reflexivity. }
    destruct (action t); [apply B|apply B|].
    apply K. eapply frame_trans; [exact S'|apply flag_reconnectCallback].
  - destruct (running rt) as [|p rest] eqn:R; [exact Inv|].
    right. cbn [state running]. split; [apply cycleResume_clears|].
    destruct Inv as [[_ [q Q]]|[_ Q]]; congruence.
  - apply K, flag_onClientError.
  - apply K, flag_onClientEnd.
  - apply K, flag_startScheduledSync.
Qed.

Lemma run_keeps_flagMatchesRunning (cfg : Config)
    (events : list Occurrence) :
  forall rt, flagMatchesRunning rt -> flagMatchesRunning (run cfg rt events).
Proof.
  induction events as [|e events IH]; intros rt Inv; [exact Inv|].
  cbn [run fold_left]. apply IH, step_keeps_flagMatchesRunning, Inv.
Qed.

Lemma flagMatchesRunning_boot (w : World) : flagMatchesRunning (boot w).
Proof. right. split; reflexivity. Qed.

(** C3.  A trigger that finds [isSyncInProgress] set starts nothing and
    remembers nothing: no pass is added, no query is made, and the only
    change is that the timer kept in [scheduledSyncTimeout] is replaced by
    one that runs the cycle a full interval ([intervalMinutes] * 60 * 1000
    ms) later.  From the start of the process on, whatever happens, at
    most one pass is in flight, and the flag is set exactly while one
    is. *)
Theorem scheduled_passes_never_overlap :
  forall cfg : Config,
    (forall (i : Z) (rt : Runtime),
        isSyncInProgress (svc (state rt)) = true ->
        let st := state rt in
        let next := mkTimer (nextHandle (world st)) (i * 60 * 1000)
                            (RunScheduledSyncCycle i) in
        let rt' := cycleBegin cfg i rt in
        running rt' = running rt
        /\ isSyncInProgress (svc (state rt')) = true
        /\ journal (world (state rt')) = journal (world st)
        /\ timers (world (state rt'))
           = (withoutHandle (scheduledSyncTimeout (svc st))
                            (timers (world st)) ++ [next])%list
        /\ runScheduledSyncCycle cfg i st = (Returned tt, state rt'))
    /\ (forall (w : World) (events : list Occurrence),
           let rt := run cfg (boot w) events in
           (List.length (running rt) <= 1)%nat
           /\ (isSyncInProgress (svc (state rt)) = true
               <-> List.length (running rt) = 1%nat)).
Proof.
  intros cfg. split.
  - intros i rt F st next rt'. subst st next rt'.
    unfold cycleBegin, runScheduledSyncCycle, bind, dateNow, gets.
    cbv zeta. rewrite F, scheduleNextSync_returns. cbn [snd state running].
    repeat split; try reflexivity. cbn. exact F.
  - intros w events rt.
    pose proof (run_keeps_flagMatchesRunning cfg events (boot w)
                  (flagMatchesRunning_boot w)) as Inv.
    fold rt in Inv. destruct Inv as [[F [p R]]|[F R]]; rewrite R, F; cbn.
    + split; [lia|]. split; reflexivity.
    + split; [lia|]. split; discriminate.
Qed.

Lemma scheduled_passes_never_overlap_witness :
  let rt := run defaultConfig (boot emptyWorld) overlappingTriggers in
  isSyncInProgress (svc (state rt)) = true
  /\ List.length (running rt) = 1%nat
  /\ timers (world (state rt))
     = [mkTimer 2 60000 (RunScheduledSyncCycle 1)].
Proof.
  cbv zeta.
  pose proof (proj2 (scheduled_passes_never_overlap defaultConfig)
                emptyWorld overlappingTriggers) as [_ [H _]].
  assert (F : isSyncInProgress
                (svc (state (run defaultConfig (boot emptyWorld)
                               overlappingTriggers))) = true)
    by (vm_compute; reflexivity).
  split; [exact F|]. split; [exact (H F)|]. vm_compute. reflexivity.
Defined.

End MutexProps.

(* ================================================================== *)
(** * Reconnection of the real-time listener *)
(* ================================================================== *)

Module ListenerProps.
Import JS Transformer Engine EventLoop Spec FrameProps TotalProps.

(** *** Pending reconnection attempts *)

Lemma reconnect_filter (g : Timer -> bool) (ts : list Timer) :
  (List.length (filter isReconnect (filter g ts))
   <= List.length (filter isReconnect ts))%nat.
Proof.
  induction ts as [|t ts IH]; cbn [filter]; [apply Nat.le_refl|].
  destruct (g t); cbn [filter]; destruct (isReconnect t);
    cbn [List.length]; lia.
Qed.

Lemma reconnect_added (ts : list Timer) (t : Timer) :
  isReconnect t = false ->
  filter isReconnect (ts ++ [t]) = filter isReconnect ts.
Proof.
  intros H. rewrite filter_app. cbn [filter]. rewrite H.
  apply app_nil_r.
Qed.

Lemma takeTimer_rest (h : nat) (ts : list Timer) (t : Timer)
    (rest : list Timer) :
  takeTimer h ts = Some (t, rest) ->
  (List.length (filter isReconnect rest)
   <= List.length (filter isReconnect ts))%nat
  /\ (filter isReconnect ts = [] -> isReconnect t = false).
Proof.
  revert t rest. induction ts as [|u ts IH]; intros t rest; cbn [takeTimer];
    [discriminate|].
  cbn [filter]. destruct (Nat.eqb (handle u) h).
  - intros H. injection H as <- <-.
    destruct (isReconnect u); cbn [List.length];
      split; try lia; try discriminate; reflexivity.
  - destruct (takeTimer h ts) as [[found rest']|]; [|discriminate].
    intros H. injection H as <- <-.
    destruct (IH found rest' eq_refl) as [L I]. cbn [filter].
    destruct (isReconnect u); cbn [List.length];
      split; try lia; try discriminate; exact I.
Qed.

(** *** What the scheduled cycle leaves of the listener *)

#[export] Instance sameReconnect_frame : Frame sameReconnect.
Proof.
  split.
  - intros s. split; [reflexivity|apply Nat.le_refl].
  - intros a b c [A1 T1] [A2 T2]. split; [congruence|lia].
  - intros f st. split; [reflexivity|apply Nat.le_refl].
  - intros f st Q. split; [reflexivity|].
    unfold reconnectTimers. cbn. destruct (Q (world st)) as [-> _].
    apply Nat.le_refl.
Qed.

#[export] Instance untouched_frame : Frame untouched.
Proof.
  split.
  - intros s. split; reflexivity.
  - intros a b c [A1 T1] [A2 T2]. split; congruence.
  - intros f st. split; reflexivity.
  - intros f st Q. split; [reflexivity|]. apply (Q (world st)).
Qed.

Lemma reconnect_scheduleNextSync (i : Z) :
  keeps sameReconnect (scheduleNextSync i).
Proof.
  intros st. rewrite MutexProps.scheduleNextSync_returns. cbn [snd].
  split; [reflexivity|]. unfold reconnectTimers. cbn.
  rewrite reconnect_added by reflexivity.
  unfold withoutHandle. destruct (scheduledSyncTimeout (svc st));
    [apply reconnect_filter|apply Nat.le_refl].
Qed.

Lemma reconnect_startScheduledSync (cfg : Config) (i : option Z) :
  keeps sameReconnect (startScheduledSync cfg i).
Proof.
  intros st. split; [reflexivity|]. unfold reconnectTimers. cbn.
  rewrite reconnect_added by reflexivity. apply Nat.le_refl.
Qed.

Lemma reconnect_cycleEnter (cfg : Config) (i : Z) :
  keeps sameReconnect (cycleEnter cfg i).
Proof. intros st. split; [reflexivity|apply Nat.le_refl]. Qed.

Lemma reconnect_cycleFinally (i : Z) : keeps sameReconnect (cycleFinally i).
Proof.
  unfold cycleFinally.
  apply keeps_bind;
    [intros st; split; [reflexivity|apply Nat.le_refl]|intros _].
  apply keeps_bind; [apply keeps_stats|intros _].
  apply reconnect_scheduleNextSync.
Qed.

Lemma reconnect_cycleResume (cfg : Config) (p : Pass) :
  keeps sameReconnect (cycleResume cfg p).
Proof.
  unfold cycleResume. apply keeps_tryFinally.
  - apply keeps_tryCatch; [apply keeps_cyclePages|].
    intros t. apply keeps_logError.
  - apply reconnect_cycleFinally.
Qed.

Lemma reconnect_cycleBegin (cfg : Config) (i : Z) (rt : Runtime) :
  sameReconnect (state rt) (state (cycleBegin cfg i rt)).
Proof.
  unfold cycleBegin. destruct (isSyncInProgress (svc (state rt))).
  - apply reconnect_scheduleNextSync.
  - pose proof (reconnect_cycleEnter cfg i (state rt)) as K.
    destruct (cycleEnter cfg i (state rt)) as [[since|t|] st']; exact K.
Qed.

(** *** The guard *)

(** At the maximum, [attemptRealtimeReconnection] changes nothing. *)
Lemma attempt_at_maximum (cfg : Config) (st : State) :
  maxReconnectAttempts cfg <= realtimeReconnectAttempts (svc st) ->
  attemptRealtimeReconnection cfg st = (Returned tt, st).
Proof.
  intros H. unfold attemptRealtimeReconnection, bind, gets.
  apply Z.leb_le in H. rewrite H. reflexivity.
Qed.

Lemma attempt_below_maximum (cfg : Config) (st : State) :
  realtimeReconnectAttempts (svc st) < maxReconnectAttempts cfg ->
  exists st',
    attemptRealtimeReconnection cfg st = (Returned tt, st')
    /\ realtimeReconnectAttempts (svc st')
       = realtimeReconnectAttempts (svc st) + 1
    /\ timers (world st')
       = (timers (world st)
            ++ [mkTimer (nextHandle (world st))
                  (specDelay cfg (realtimeReconnectAttempts (svc st) + 1))
                  Reconnect])%list.
Proof.
  intros H. unfold attemptRealtimeReconnection, bind, gets.
  apply Z.leb_gt in H. rewrite H. eexists.
  split; [reflexivity|]. split; reflexivity.
Qed.

(** *** Connecting *)

Lemma connects_bind {A : Type} (m : M A) (k : A -> M unit) :
  keeps untouched m -> total m -> (forall a, connectsOrThrows (k a)) ->
  connectsOrThrows (bind m k).
Proof.
  intros K T C st. unfold bind. specialize (K st). specialize (T st).
  destruct (m st) as [[a|t|] s1]; cbn [fst snd] in *;
    [|exact K|contradiction].
  specialize (C a s1). destruct (k a s1) as [[u|t|] s2].
  - destruct C as [R E]. split; [exact R|]. destruct K. congruence.
  - exact (frame_trans _ _ _ K C).
  - exact C.
Qed.

(** The [try] block of [startRealTimeSync]. *)
Lemma connects_body : connectsOrThrows connectAndListen.
Proof.
  unfold connectAndListen.
  assert (Kc : keeps untouched clientCall) by apply keeps_clientCall.
  assert (Km : forall b, keeps untouched (modify (setRealtimeClient b)))
    by (intros b st; split; reflexivity).
  apply connects_bind; [apply keeps_gets|apply total_gets|intros hasClient].
  apply connects_bind.
  { destruct hasClient; [|apply keeps_ret].
    apply keeps_bind; [|intros _; apply Km].
    apply keeps_tryCatch; [exact Kc|intros _; apply keeps_ret]. }
  { destruct hasClient; [|apply total_ret].
    apply total_bind; [|intros _; apply total_modify].
    apply total_tryCatch; [apply total_clientCall|intros _; apply total_ret]. }
  intros _.
  apply connects_bind; [apply Km|apply total_modify|intros _].
  do 4 (apply connects_bind; [exact Kc|apply total_clientCall|intros _]).
  intros st. cbn. repeat split.
Qed.

(** At the maximum, the [catch] block of [startRealTimeSync] leaves the
    counter and the timers as they are. *)
Lemma handler_exhausted (cfg : Config) (t : thrown) (s1 : State) :
  maxReconnectAttempts cfg <= realtimeReconnectAttempts (svc s1) ->
  untouched s1
    (snd (bind (logError "REALTIME_SYNC_START_FAILED" None t)
               (fun _ => bind (attemptRealtimeReconnection cfg)
                              (fun _ => @throw unit t)) s1)).
Proof.
  intros Hmax. unfold bind at 1.
  pose proof (keeps_logError (R := untouched)
                "REALTIME_SYNC_START_FAILED" None t s1) as K.
  destruct (logError "REALTIME_SYNC_START_FAILED" None t s1)
    as [[u|e|] s2]; cbn [snd] in *; try exact K.
  unfold bind. rewrite attempt_at_maximum; [exact K|].
  destruct K as [A _]. rewrite A. exact Hmax.
Qed.

(** What a call of [startRealTimeSync] at the maximum can do: connect, or
    leave the counter and the timers as they are. *)
Lemma startRealTimeSync_exhausted (cfg : Config) (st : State) :
  maxReconnectAttempts cfg <= realtimeReconnectAttempts (svc st) ->
  exists o st',
    startRealTimeSync cfg st = (o, st')
    /\ timers (world st') = timers (world st)
    /\ (realtimeReconnectAttempts (svc st')
        = realtimeReconnectAttempts (svc st)
        \/ reconnected st').
Proof.
  intros Hmax. unfold startRealTimeSync, bind at 1, gets at 1.
  destruct (isListening (svc st)) eqn:L.
  { exists (Returned tt), st. auto. }
  unfold tryCatch. pose proof (connects_body st) as C.
  destruct (connectAndListen st) as [[[]|t|] s1].
  - destruct C as [R E]. exists (Returned tt), s1. auto.
  - destruct C as [A T].
    pose proof (handler_exhausted cfg t s1) as [A2 T2];
      [rewrite A; exact Hmax|].
    destruct (bind _ _ s1) as [o s2]. cbn [snd] in *.
    exists o, s2. split; [reflexivity|]. split; [congruence|].
    left. congruence.
  - contradiction.
Qed.

Lemma reconnectCallback_exhausted (cfg : Config) (st : State) :
  maxReconnectAttempts cfg <= realtimeReconnectAttempts (svc st) ->
  timers (world (snd (reconnectCallback cfg st))) = timers (world st)
  /\ (realtimeReconnectAttempts (svc (snd (reconnectCallback cfg st)))
      = realtimeReconnectAttempts (svc st)
      \/ reconnected (snd (reconnectCallback cfg st))).
Proof.
  intros Hmax. unfold reconnectCallback, tryCatch.
  destruct (startRealTimeSync_exhausted cfg st Hmax) as (o & s1 & E & T & A).
  rewrite E. destruct o as [u|t|]; cbn [snd ret]; auto.
Qed.

(** [bind] returns only if both parts do. *)
Lemma bind_returned {A B : Type} (m : M A) (k : A -> M B) (st st' : State)
    (b : B) :
  bind m k st = (Returned b, st') ->
  exists a s1, m st = (Returned a, s1) /\ k a s1 = (Returned b, st').
Proof.
  unfold bind. destruct (m st) as [[a|t|] s1]; try discriminate.
  intros H. exists a, s1. auto.
Qed.

(** A connection that succeeds resets the counter. *)
Lemma startRealTimeSync_resets (cfg : Config) (st st' : State) :
  isListening (svc st) = false ->
  startRealTimeSync cfg st = (Returned tt, st') ->
  reconnected st'.
Proof.
  intros L. unfold startRealTimeSync.
  unfold bind at 1, gets at 1. rewrite L. unfold tryCatch.
  pose proof (connects_body st) as C.
  destruct (connectAndListen st) as [[[]|t|] s1].
  - intros H. injection H as <-. apply C.
  - intros H. apply bind_returned in H as (a & s2 & _ & H).
    apply bind_returned in H as (a' & s3 & _ & H). discriminate H.
  - discriminate.
Qed.

(** A connection that meets no error succeeds. *)
Lemma startRealTimeSync_connects (cfg : Config) (st : State) :
  isListening (svc st) = false ->
  clientFaults (world st) = [] ->
  exists st', startRealTimeSync cfg st = (Returned tt, st').
Proof.
  intros L F. destruct st as [s w].
  destruct s as [rc ra rt il ip sst stats].
  destruct w as [n su j ts nh sf cf clf]. cbn in L, F. subst il clf.
  destruct rc; eexists; lazy; reflexivity.
Qed.

(** *** The event loop at the maximum *)

(** While the counter is at the maximum, no event adds a reconnection
    attempt, and the counter changes only by a connection that
    succeeds. *)
Lemma exhausted_step (cfg : Config) (rt : Runtime) (e : Occurrence) :
  maxReconnectAttempts cfg <= realtimeReconnectAttempts (svc (state rt)) ->
  (List.length (reconnectTimers (state (step cfg rt e)))
   <= List.length (reconnectTimers (state rt)))%nat
  /\ (realtimeReconnectAttempts (svc (state (step cfg rt e)))
      = realtimeReconnectAttempts (svc (state rt))
      \/ reconnected (state (step cfg rt e))).
Proof.
  intros Hmax.
  assert (K : forall st', sameReconnect (state rt) st' ->
                (List.length (reconnectTimers st')
                 <= List.length (reconnectTimers (state rt)))%nat
                /\ (realtimeReconnectAttempts (svc st')
                    = realtimeReconnectAttempts (svc (state rt))
                    \/ reconnected st')).
  { intros st' [A T]. auto. }
  destruct e as [ms|h| | | |i]; cbn [step].
  - destruct (0 <=? ms); apply K; [|apply frame_refl].
    apply frame_quiet. auto with frame.
  - destruct (takeTimer h (timers (world (state rt)))) as [[t rest]|] eqn:T;
      [|apply K, frame_refl].
    destruct (takeTimer_rest _ _ _ _ T) as [Lr _].
    set (st' := updWorld (setTimers rest (nextHandle (world (state rt))))
                         (state rt)).
    assert (S' : sameReconnect (state rt) st')
      by (split; [reflexivity|exact Lr]).
    destruct (action t).
    + apply K. eapply frame_trans; [exact S'|].
      apply (reconnect_cycleBegin cfg _ (mkRuntime st' (running rt))).
    + apply K. eapply frame_trans; [exact S'|].
      apply (reconnect_cycleBegin cfg _ (mkRuntime st' (running rt))).
    + cbn [state].
      destruct (reconnectCallback_exhausted cfg st' Hmax) as [Tm A].
      unfold reconnectTimers at 1. rewrite Tm. split; [exact Lr|exact A].
  - destruct (running rt) as [|p rest]; apply K;
      [apply frame_refl|apply reconnect_cycleResume].
  - apply K. cbn [state]. unfold onClientError, bind, modify.
    rewrite attempt_at_maximum by exact Hmax.
    split; [reflexivity|apply Nat.le_refl].
  - apply K. cbn [state]. unfold onClientEnd, bind, gets, modify.
    destruct (isListening (svc (state rt))); [|apply frame_refl].
    rewrite attempt_at_maximum by exact Hmax.
    split; [reflexivity|apply Nat.le_refl].
  - apply K, reconnect_startScheduledSync.
Qed.

(** With no attempt pending, the state at the maximum is final. *)
Lemma givenUp_run (cfg : Config) (events : list Occurrence) :
  forall rt,
    givenUp cfg (state rt) ->
    givenUp cfg (state (run cfg rt events))
    /\ realtimeReconnectAttempts (svc (state (run cfg rt events)))
       = realtimeReconnectAttempts (svc (state rt)).
Proof.
  unfold run.
  induction events as [|e events IH]; intros rt G; [auto|].
  cbn [fold_left]. destruct G as [Hmax Hnone].
  destruct (exhausted_step cfg rt e Hmax) as [T A].
  rewrite Hnone in T. cbn [List.length] in T.
  assert (N : reconnectTimers (state (step cfg rt e)) = []).
  { apply length_zero_iff_nil. lia. }
  assert (A' : realtimeReconnectAttempts (svc (state (step cfg rt e)))
               = realtimeReconnectAttempts (svc (state rt))).
  { destruct A as [A|[A0 Li]]; [exact A|].
    (* a connection needs a reconnection timer to fire *)
    destruct e as [ms|h| | | |i]; cbn [step] in *.
    - destruct (0 <=? ms); reflexivity.
    - destruct (takeTimer h (timers (world (state rt)))) as [[t rest]|] eqn:Tk;
        [|reflexivity].
      destruct (takeTimer_rest _ _ _ _ Tk) as [_ I].
      specialize (I Hnone). unfold isReconnect in I.
      destruct (action t); try discriminate;
        apply (reconnect_cycleBegin cfg _
                 (mkRuntime (updWorld (setTimers rest _) (state rt))
                            (running rt))).
    - destruct (running rt) as [|p rest]; [reflexivity|].
      apply reconnect_cycleResume.
    - cbn [state]. unfold onClientError, bind, modify.
      rewrite attempt_at_maximum by exact Hmax. reflexivity.
    - cbn [state]. unfold onClientEnd, bind, gets, modify.
      destruct (isListening (svc (state rt))); [|reflexivity].
      rewrite attempt_at_maximum by exact Hmax. reflexivity.
    - apply reconnect_startScheduledSync. }
  assert (G' : givenUp cfg (state (step cfg rt e)))
    by (split; [rewrite A'; exact Hmax|exact N]).
  destruct (IH _ G') as [G'' A'']. split; [exact G''|congruence].
Qed.

(** *** Claim *)

(** C7.  Once the reconnection counter has reached the configured
    maximum, [attemptRealtimeReconnection] schedules nothing and changes
    nothing, and no event of the loop adds a reconnection attempt to the
    pending ones; the counter then changes only if an attempt that was
    already pending connects.  With none pending the state is final:
    whatever happens afterwards, no reconnection is scheduled and the
    counter stays.  Below the maximum the attempt is counted and
    scheduled.  Every (re)connection that succeeds sets the counter to
    zero, and a connection that meets no error does succeed. *)
Theorem reconnection_capped_and_reset :
  forall cfg : Config,
    (forall st : State,
        maxReconnectAttempts cfg <= realtimeReconnectAttempts (svc st) ->
        attemptRealtimeReconnection cfg st = (Returned tt, st))
    /\ (forall (rt : Runtime) (e : Occurrence),
           maxReconnectAttempts cfg
           <= realtimeReconnectAttempts (svc (state rt)) ->
           (List.length (reconnectTimers (state (step cfg rt e)))
            <= List.length (reconnectTimers (state rt)))%nat
           /\ (realtimeReconnectAttempts (svc (state (step cfg rt e)))
               = realtimeReconnectAttempts (svc (state rt))
               \/ reconnected (state (step cfg rt e))))
    /\ (forall (rt : Runtime) (events : list Occurrence),
           givenUp cfg (state rt) ->
           givenUp cfg (state (run cfg rt events))
           /\ realtimeReconnectAttempts (svc (state (run cfg rt events)))
              = realtimeReconnectAttempts (svc (state rt)))
    /\ (forall st : State,
           realtimeReconnectAttempts (svc st) < maxReconnectAttempts cfg ->
           exists st',
             attemptRealtimeReconnection cfg st = (Returned tt, st')
             /\ realtimeReconnectAttempts (svc st')
                = realtimeReconnectAttempts (svc st) + 1
             /\ timers (world st')
                = (timers (world st)
                     ++ [mkTimer (nextHandle (world st))
                           (specDelay cfg
                              (realtimeReconnectAttempts (svc st) + 1))
                           Reconnect])%list)
    /\ (forall st st' : State,
           isListening (svc st) = false ->
           startRealTimeSync cfg st = (Returned tt, st') ->
           realtimeReconnectAttempts (svc st') = 0
           /\ isListening (svc st') = true)
    /\ (forall st : State,
           isListening (svc st) = false ->
           clientFaults (world st) = [] ->
           exists st', startRealTimeSync cfg st = (Returned tt, st')).
Proof.
  intros cfg. split; [apply attempt_at_maximum|].
  split; [apply exhausted_step|].
  split; [intros rt events; apply givenUp_run|].
  split; [apply attempt_below_maximum|].
  split; [apply startRealTimeSync_resets|apply startRealTimeSync_connects].
Qed.

Lemma reconnection_capped_and_reset_witness :
  givenUp defaultConfig
    (state (run defaultConfig (mkRuntime exhaustedState [])
              [ClientError; ClientEnd; ScheduledSyncStarts None;
               TimerFires 0; PassSettles; ClientError]))
  /\ realtimeReconnectAttempts
       (svc (snd (startRealTimeSync defaultConfig exhaustedState))) = 0.
Proof.
  assert (G : givenUp defaultConfig (state (mkRuntime exhaustedState [])))
    by (split; [vm_compute; discriminate|reflexivity]).
  split.
  - apply (proj1 (proj2 (proj2 (reconnection_capped_and_reset defaultConfig)))),
      G.
  - apply (proj1 (proj2 (proj2 (proj2 (proj2
             (reconnection_capped_and_reset defaultConfig)))))
             exhaustedState);
      reflexivity.
Defined.

End ListenerProps.

(* ================================================================== *)
(** * Further properties of the transformer *)
(* ================================================================== *)

Module RecordProps.
Import JS Transformer Spec TransformerProps.

(** *** Lengths *)

Lemma length_append (a b : string) :
  String.length (a ++ b) = (String.length a + String.length b)%nat.
Proof. induction a as [|c a IH]; simpl; [reflexivity|]. rewrite IH. reflexivity. Qed.

Lemma length_substring0 (n : nat) (s : string) :
  String.length (substring0 n s) = Nat.min n (String.length s).
Proof.
  revert s. induction n as [|n IH]; intros [|c s]; simpl; try reflexivity.
  rewrite IH. reflexivity.
Qed.

Lemma length_repeatChar (c : ascii) (n : nat) :
  String.length (repeatChar c n) = n.
Proof. induction n as [|n IH]; simpl; [reflexivity|]. rewrite IH. reflexivity. Qed.

Lemma length_padStart (n : nat) (c : ascii) (s : string) :
  String.length (padStart n c s) = Nat.max n (String.length s).
Proof. unfold padStart. rewrite length_append, length_repeatChar. lia. Qed.

Lemma substring0_short (n : nat) (s : string) :
  (String.length s <= n)%nat -> substring0 n s = s.
Proof.
  revert s. induction n as [|n IH]; intros [|c s]; simpl; intros H;
    try reflexivity; try lia.
  rewrite IH by lia. reflexivity.
Qed.

Lemma nonEmpty_true (s : string) : nonEmpty s = true <-> s <> "".
Proof.
  unfold nonEmpty. rewrite negb_true_iff. split; intros H.
  - apply String.eqb_neq, H.
  - apply String.eqb_neq, H.
Qed.

Lemma nonEmpty_false (s : string) : nonEmpty s = false <-> s = "".
Proof.
  unfold nonEmpty. rewrite negb_false_iff. apply String.eqb_eq.
Qed.

Lemma append_nonempty_l (a b : string) : a <> "" -> (a ++ b) <> "".
Proof. destruct a; [contradiction|discriminate]. Qed.

(** *** Names *)

Lemma buildFullName_threw (u : SourceUser) (t : thrown) :
  buildFullName u = Threw t -> id u = None /\ t = nullDeref "substring".
Proof.
  unfold buildFullName. cbv zeta.
  repeat match goal with
         | |- context [if ?b then _ else _] => destruct b
         end; try discriminate.
  destruct (id u); [discriminate|]. intros E. injection E as <-. auto.
Qed.

Lemma buildFullName_returned (u : SourceUser) (fullName : string) :
  buildFullName u = Returned fullName -> fullName <> "".
Proof.
  unfold buildFullName. cbv zeta.
  destruct (nonEmpty (trimmedOrEmpty (first_name u))) eqn:F;
    destruct (nonEmpty (trimmedOrEmpty (last_name u))) eqn:L;
    cbn [andb]; try (destruct (id u); [|discriminate]);
    intros E; injection E as <-;
    try apply nonEmpty_true in F; try apply nonEmpty_true in L;
    try assumption; try discriminate.
  apply append_nonempty_l, F.
Qed.

(** X1.  [buildFullName] never returns an empty name: it is built from
    the trimmed first and last names when one of them is not blank, and
    from the id otherwise; it throws only on a row without id whose two
    names are blank (reading [substring] of [null]). *)
Theorem buildFullName_never_empty :
  forall user : SourceUser,
    match buildFullName user with
    | Returned fullName =>
        fullName <> ""
        /\ (id user = None ->
            trimmedOrEmpty (first_name user) <> ""
            \/ trimmedOrEmpty (last_name user) <> "")
    | Threw t =>
        t = nullDeref "substring"
        /\ id user = None
        /\ trimmedOrEmpty (first_name user) = ""
        /\ trimmedOrEmpty (last_name user) = ""
    | OutOfFuel => False
    end.
Proof.
  intros user. unfold buildFullName. cbv zeta.
  destruct (nonEmpty (trimmedOrEmpty (first_name user))) eqn:F;
    destruct (nonEmpty (trimmedOrEmpty (last_name user))) eqn:L;
    cbn [andb].
  - apply nonEmpty_true in F. split; [|auto].
    apply append_nonempty_l, F.
  - apply nonEmpty_true in F. split; auto.
  - apply nonEmpty_true in L. split; auto.
  - apply nonEmpty_false in F, L.
    destruct (id user) as [i|]; [split; [discriminate|discriminate]|].
    repeat split; assumption.
Qed.

(** *** Phones *)

Lemma keepDigits_idempotent (s : string) :
  keepDigits (keepDigits s) = keepDigits s.
Proof.
  induction s as [|c s IH]; simpl; [reflexivity|].
  destruct (isDigit c) eqn:D; simpl; [rewrite D, IH|]; auto.
Qed.

(** A phone with a digit is neither empty nor blank. *)
Lemma digits_not_blank (p : string) :
  keepDigits p <> "" ->
  String.eqb p "" || String.eqb (trim p) "" = false.
Proof.
  intros K. apply orb_false_iff. split; apply String.eqb_neq; intros E.
  - subst p. apply K. reflexivity.
  - apply K, trim_empty_keepDigits, E.
Qed.

Lemma sanitizePhone_with_digits (p : string) (userId : option string) :
  keepDigits p <> "" ->
  sanitizePhone (Some p) userId = Returned (keepDigits p).
Proof.
  intros K. unfold sanitizePhone. rewrite (digits_not_blank p K).
  apply String.eqb_neq in K. rewrite K. reflexivity.
Qed.

Lemma sanitizePhone_without_digits (p : string) (userId : option string) :
  keepDigits p = "" ->
  sanitizePhone (Some p) userId = placeholderPhone userId.
Proof.
  intros K. unfold sanitizePhone.
  destruct (String.eqb p "" || String.eqb (trim p) ""); [reflexivity|].
  rewrite K. reflexivity.
Qed.

(** X2.  Cleaning a phone beforehand changes nothing: [sanitizePhone]
    gives the same result on a phone and on its digits, so two source
    phones that differ only in formatting are synchronised to the same
    destination phone. *)
Theorem sanitizePhone_ignores_formatting :
  forall (p : string) (userId : option string),
    sanitizePhone (Some (keepDigits p)) userId = sanitizePhone (Some p) userId.
Proof.
  intros p userId.
  destruct (String.eqb (keepDigits p) "") eqn:K.
  - apply String.eqb_eq in K.
    rewrite (sanitizePhone_without_digits p userId K).
    apply sanitizePhone_without_digits.
    rewrite keepDigits_idempotent. exact K.
  - apply String.eqb_neq in K.
    rewrite (sanitizePhone_with_digits p userId K).
    rewrite sanitizePhone_with_digits; rewrite keepDigits_idempotent;
      [reflexivity|exact K].
Qed.

Lemma placeholder_length (userId : string) :
  exists r,
    placeholderPhone (Some userId) = Returned r
    /\ String.length r = 10%nat
    /\ substring0 1 r = "9".
Proof.
  unfold placeholderPhone. eexists. split; [reflexivity|].
  split; [|reflexivity].
  cbn [append String.length]. rewrite length_padStart, length_substring0. lia.
Qed.

(** X3.  The placeholder has a fixed shape: for a phone that is null or
    holds no digit, and any id, [sanitizePhone] returns exactly ten
    characters, the first of which is ["9"]. *)
Theorem placeholder_has_ten_characters :
  forall (phone : option string) (userId : string),
    (forall p, phone = Some p -> keepDigits p = "") ->
    exists r,
      sanitizePhone phone (Some userId) = Returned r
      /\ String.length r = 10%nat
      /\ substring0 1 r = "9".
Proof.
  intros phone userId H.
  destruct (placeholder_length userId) as (r & E & Hl & Hp).
  exists r. split; [|auto].
  destruct phone as [p|]; [|exact E].
  rewrite sanitizePhone_without_digits; [exact E|]. apply H. reflexivity.
Qed.

Lemma placeholder_has_ten_characters_witness :
  exists r,
    sanitizePhone (Some "n/a") (Some "user-42") = Returned r
    /\ String.length r = 10%nat
    /\ substring0 1 r = "9".
Proof.
  apply (placeholder_has_ten_characters (Some "n/a") "user-42").
  intros p E. injection E as <-. reflexivity.
Defined.

(** X4.  The diagnostic tool announces the placeholder the service will
    write ("Will become: ...") exactly when the decimal rendering of the
    id's first eight hexadecimal characters has at most nine characters:
    the tool keeps ten of them, the service nine. *)
Theorem diagnostic_preview_agrees :
  forall userId : string,
    let decimal :=
      numberToString (parseInt16 (substring0 8 (removeDashes userId))) in
    sanitizePhone None (Some userId)
    = Returned (Diagnostic.generatePlaceholderPhone userId)
    <-> (String.length decimal <= 9)%nat.
Proof.
  intros userId decimal.
  unfold sanitizePhone, placeholderPhone, Diagnostic.generatePlaceholderPhone.
  cbv zeta. fold decimal. split.
  - intros E. cbn [append] in E.
    assert (L : String.length (padStart 9 "0"%char (substring0 9 decimal))
                = String.length (padStart 9 "0"%char (substring0 10 decimal)))
      by congruence.
    rewrite !length_padStart, !length_substring0 in L. lia.
  - intros H. rewrite !substring0_short by lia. reflexivity.
Qed.

(** *** Records *)

Lemma placeholder_nonempty (userId : option string) (r : string) :
  placeholderPhone userId = Returned r -> r <> "".
Proof.
  unfold placeholderPhone. destruct userId; [|discriminate].
  intros E. injection E as <-. discriminate.
Qed.

Lemma sanitizePhone_nonempty (phone userId : option string) (r : string) :
  sanitizePhone phone userId = Returned r -> r <> "".
Proof.
  destruct phone as [p|]; [|apply placeholder_nonempty].
  destruct (String.eqb (keepDigits p) "") eqn:K.
  - apply String.eqb_eq in K.
    rewrite (sanitizePhone_without_digits p userId K).
    apply placeholder_nonempty.
  - apply String.eqb_neq in K.
    rewrite (sanitizePhone_with_digits p userId K).
    intros E. injection E as <-. exact K.
Qed.

Lemma sanitizePhone_threw (phone userId : option string) (t : thrown) :
  sanitizePhone phone userId = Threw t ->
  userId = None /\ t = nullDeref "replace".
Proof.
  assert (P : placeholderPhone userId = Threw t ->
              userId = None /\ t = nullDeref "replace").
  { unfold placeholderPhone. destruct userId; [discriminate|].
    intros E. injection E as <-. auto. }
  destruct phone as [p|]; [|exact P].
  destruct (String.eqb (keepDigits p) "") eqn:K.
  - apply String.eqb_eq in K.
    rewrite (sanitizePhone_without_digits p userId K). exact P.
  - apply String.eqb_neq in K.
    rewrite (sanitizePhone_with_digits p userId K). discriminate.
Qed.

(** X5.  [transformUserData] fails only on a row without id, and then
    with the TypeError of reading a property of [null]; every record it
    returns carries the source id as both [id] and [externalId], a
    non-empty name, a non-empty phone, and the presence fields at their
    defaults ([socketId] null, [isOnline] false, [lastSeen] null). *)
Theorem transformUserData_fails_only_without_id :
  forall sourceUser : SourceUser,
    match transformUserData sourceUser with
    | Returned chatUser =>
        chatId chatUser = id sourceUser
        /\ externalId chatUser = id sourceUser
        /\ name chatUser <> ""
        /\ chatPhone chatUser <> ""
        /\ socketId chatUser = None
        /\ isOnline chatUser = false
        /\ lastSeen chatUser = None
    | Threw t =>
        id sourceUser = None
        /\ (t = nullDeref "substring" \/ t = nullDeref "replace")
    | OutOfFuel => False
    end.
Proof.
  intros u. unfold transformUserData, bindO.
  destruct (buildFullName u) as [fullName|t|] eqn:N.
  - apply buildFullName_returned in N.
    destruct (sanitizePhone (phone u) (id u)) as [r|t|] eqn:P.
    + cbn. repeat split; auto.
      apply (sanitizePhone_nonempty _ _ _ P).
    + apply sanitizePhone_threw in P as [Hid ->]. auto.
    + exact (TotalProps.sanitizePhone_total _ _ P).
  - apply buildFullName_threw in N as [Hid ->]. auto.
  - exact (TotalProps.buildFullName_total _ N).
Qed.

(** *** Roles *)

(** X6.  Whatever the source role, [mapRole] returns one of the three
    destination roles, or one of the two members every object inherits
    under a lower-case name; it never returns [undefined] or an empty
    string. *)
Theorem mapRole_range :
  forall sourceRole : option string,
    In (mapRole sourceRole)
       [ VString "customer"; VString "usta"; VString "administrator";
         VInherited "constructor"; VInherited "__proto__" ].
Proof.
  intros [r|]; [|cbn; auto].
  destruct (ownProperty roleMapping (toLowerCase r)) as [dest|] eqn:O.
  - unfold mapRole, getProperty. rewrite O.
    unfold roleMapping in O. cbn [ownProperty] in O.
    repeat match type of O with
           | (if ?b then _ else _) = _ => destruct b
           end;
      try discriminate; injection O as <-; cbn; auto 6.
  - destruct (String.eqb (toLowerCase r) "constructor") eqn:C.
    { apply String.eqb_eq in C. unfold mapRole, getProperty.
      rewrite O, C. cbn. auto 6. }
    destruct (String.eqb (toLowerCase r) "__proto__") eqn:P.
    { apply String.eqb_eq in P. unfold mapRole, getProperty.
      rewrite O, P. cbn. auto 6. }
    apply String.eqb_neq in C, P.
    rewrite (mapRole_default r O C P). cbn. auto.
Qed.

End RecordProps.

(* ================================================================== *)
(** * Failures: what is logged, what propagates, what goes on *)
(* ================================================================== *)

Module FailureProps.
Import JS Transformer Engine EventLoop Spec Behaviour.
Import FrameProps TotalProps.

(** *** [logError] *)

Lemma logError_effect (errorType : string) (userId : option string)
    (e : error) (st : State) :
  let r := errorRecordOf (now (world st)) errorType userId e in
  logError errorType userId (ThrownError e) st
  = (Returned tt,
     updStats (recordError r)
       (match nextChatFault st with
        | Some _ => updWorld (setChatFaults (snd (nextFault (chatFaults (world st))))) st
        | None =>
            updWorld (appendJournal (ErrorInsert r))
              (updWorld (setChatFaults (snd (nextFault (chatFaults (world st))))) st)
        end)).
Proof.
  unfold logError, bind, dateNow, gets, tryCatch, chatQuery, modify, ret,
    nextChatFault, errorRecordOf.
  destruct (nextFault (chatFaults (world st))) as [[f|] rest]; reflexivity.
Qed.

(** X7.  [logError] is best effort: given an [Error] it always returns,
    adds one to [errors] and to [consecutiveFailures] and keeps the
    record as [lastError], whether or not the INSERT into [sync_errors]
    went through; the record reaches the journal exactly when that INSERT
    met no fault, and nothing else is written.  Given [undefined] it
    throws a TypeError and leaves the state as it was. *)
Theorem logError_is_best_effort :
  forall (errorType : string) (userId : option string) (st : State),
    (forall e : error,
        let r := errorRecordOf (now (world st)) errorType userId e in
        exists st',
          logError errorType userId (ThrownError e) st = (Returned tt, st')
          /\ lastError (syncStats (svc st')) = Some r
          /\ errors (syncStats (svc st')) = errors (syncStats (svc st)) + 1
          /\ failuresOf st' = failuresOf st + 1
          /\ totalSynced (syncStats (svc st'))
             = totalSynced (syncStats (svc st))
          /\ journal (world st')
             = (journal (world st)
                  ++ match nextChatFault st with
                     | Some _ => []
                     | None => [ErrorInsert r]
                     end)%list
          /\ timers (world st') = timers (world st))
    /\ exists t,
        logError errorType userId ThrownUndefined st = (Threw t, st)
        /\ t = typeError
                 "Cannot read properties of undefined (reading 'message')".
Proof.
  intros errorType userId st. split.
  - intros e r. eexists. split; [apply logError_effect|].
    fold r. destruct (nextChatFault st); cbn;
      repeat split; try reflexivity.
    rewrite app_nil_r. reflexivity.
  - eexists. split; reflexivity.
Qed.

(** *** What is thrown *)

Lemma errors_ret {A : Type} (a : A) : throwsErrors (ret a).
Proof. intros st st' t H. discriminate H. Qed.

Lemma errors_gets {A : Type} (f : State -> A) : throwsErrors (gets f).
Proof. intros st st' t H. discriminate H. Qed.

Lemma errors_modify (f : State -> State) : throwsErrors (modify f).
Proof. intros st st' t H. discriminate H. Qed.

Lemma errors_throw {A : Type} (e : error) :
  throwsErrors (@throw A (ThrownError e)).
Proof. intros st st' t H. injection H as <- _. eauto. Qed.

Lemma errors_outOfFuel {A : Type} : throwsErrors (@outOfFuel A).
Proof. intros st st' t H. discriminate H. Qed.

Lemma errors_bind {A B : Type} (m : M A) (k : A -> M B) :
  throwsErrors m -> (forall a, throwsErrors (k a)) ->
  throwsErrors (bind m k).
Proof.
  intros Hm Hk st st' t H. unfold bind in H.
  destruct (m st) as [[a|t'|] s1] eqn:E.
  - eapply Hk, H.
  - injection H as <- <-. eapply Hm, E.
  - discriminate H.
Qed.

(** A handler that only throws errors makes the whole [try] do so. *)
Lemma errors_tryCatch {A : Type} (m : M A) (h : thrown -> M A) :
  (forall t, throwsErrors (h t)) -> throwsErrors (tryCatch m h).
Proof.
  intros Hh st st' t H. unfold tryCatch in H.
  destruct (m st) as [[a|t'|] s1] eqn:E; try discriminate H.
  eapply Hh, H.
Qed.

(** A handler that rethrows what it caught. *)
Lemma errors_tryCatch_rethrow {A : Type} (m : M A) (h : thrown -> M A) :
  throwsErrors m -> (forall e, throwsErrors (h (ThrownError e))) ->
  throwsErrors (tryCatch m h).
Proof.
  intros Hm Hh st st' t H. unfold tryCatch in H.
  destruct (m st) as [[a|t'|] s1] eqn:E; try discriminate H.
  destruct (Hm _ _ _ E) as [e ->]. eapply Hh, H.
Qed.

Lemma errors_chatQuery (x : Statement) : throwsErrors (chatQuery x).
Proof.
  intros st st' t. unfold chatQuery.
  destruct (nextFault (chatFaults (world st))) as [[f|] rest]; intros H;
    [injection H as <- _; eauto|discriminate H].
Qed.

Lemma errors_sourceQuery limit offset since :
  throwsErrors (sourceQuery limit offset since).
Proof.
  intros st st' t. unfold sourceQuery.
  destruct (nextFault (sourceFaults (world st))) as [[f|] rest]; intros H;
    [injection H as <- _; eauto|].
  destruct (nextScan (sourceScans (world st))); discriminate H.
Qed.

Lemma errors_logError errorType userId err :
  throwsErrors (logError errorType userId err).
Proof.
  intros st st' t H. destruct err as [e|].
  - rewrite logError_effect in H. discriminate H.
  - injection H as <- _. unfold messageOfUndefined, typeError. eauto.
Qed.

Lemma transformUserData_threw (u : SourceUser) (t : thrown) :
  transformUserData u = Threw t ->
  id u = None /\ (t = nullDeref "substring" \/ t = nullDeref "replace").
Proof.
  unfold transformUserData, bindO.
  destruct (buildFullName u) as [n|t'|] eqn:N.
  - destruct (sanitizePhone (phone u) (id u)) as [r|t'|] eqn:P;
      try discriminate.
    intros E. injection E as <-.
    apply RecordProps.sanitizePhone_threw in P as [Hid ->]. auto.
  - intros E. injection E as <-.
    apply RecordProps.buildFullName_threw in N as [Hid ->]. auto.
  - discriminate.
Qed.

Lemma errors_upsertOperation user : throwsErrors (upsertOperation user).
Proof.
  unfold upsertOperation. apply errors_bind.
  - intros st st' t H. unfold liftO in H. injection H as H _.
    apply transformUserData_threw in H as [_ [->| ->]];
      unfold nullDeref, typeError; eauto.
  - intros c. apply errors_chatQuery.
Qed.

Lemma errors_syncEach (cfg : Config) users :
  forall s e, throwsErrors (syncEach cfg users s e).
Proof.
  induction users as [|u users IH]; intros s e; cbn [syncEach].
  - apply errors_ret.
  - apply errors_bind.
    + apply errors_tryCatch. intros t.
      apply errors_bind; [apply errors_logError|intros _; apply errors_ret].
    + intros [|]; apply IH.
Qed.

Lemma errors_bulkSyncUsers (cfg : Config) limit offset since :
  throwsErrors (bulkSyncUsers cfg limit offset since).
Proof.
  unfold bulkSyncUsers. apply errors_tryCatch_rethrow.
  - apply errors_bind; [apply errors_sourceQuery|intros users].
    destruct (Nat.eqb (List.length users) 0); [apply errors_ret|].
    apply errors_bind; [apply errors_syncEach|intros counts].
    apply errors_bind; [apply errors_gets|intros t].
    apply errors_bind; [apply errors_modify|intros _; apply errors_ret].
  - intros e. apply errors_bind; [apply errors_logError|].
    intros _. apply errors_throw.
Qed.

Lemma errors_syncPages (cfg : Config) limit since :
  forall fuel offset, throwsErrors (syncPages cfg fuel limit offset since).
Proof.
  induction fuel as [|fuel IH]; intros offset; cbn [syncPages].
  - apply errors_outOfFuel.
  - apply errors_bind; [apply errors_bulkSyncUsers|].
    intros [|]; [apply IH|apply errors_ret].
Qed.

Lemma errors_cyclePages (cfg : Config) startTime since :
  throwsErrors (cyclePages cfg startTime since).
Proof.
  unfold cyclePages.
  apply errors_bind; [apply errors_gets|intros fuel].
  apply errors_bind; [apply errors_syncPages|intros _].
  apply errors_bind; [apply errors_gets|intros t].
  apply errors_modify.
Qed.

(** *** Statistics of a batch *)

Ltac stats_simpl :=
  cbn [svc world syncStats updStats updWorld recordError recordBatch
       setConsecutiveFailures setLastSyncDuration totalSynced errors
       lastSyncTime lastSyncDuration consecutiveFailures lastError
       fst snd] in *.

Lemma stats_upsertOperation user : keepsStats (upsertOperation user).
Proof.
  intros st. unfold upsertOperation, bind, liftO, chatQuery.
  destruct (transformUserData user); try reflexivity.
  destruct (nextFault (chatFaults (world st))) as [[f|] rest]; reflexivity.
Qed.

(** What a run of the retry loop does to the statistics: a success
    clears [consecutiveFailures], a failure changes nothing; and once an
    attempt was made, what is thrown is what the operation threw. *)
Lemma retryFrom_stats (cfg : Config) {A : Type} (operation : M A) :
  keepsStats operation -> total operation -> throwsErrors operation ->
  forall (n : nat) (k : Z) (last : thrown) (st : State),
    let r := retryFrom cfg operation n k last st in
    match result r with
    | Returned _ =>
        syncStats (svc (final r))
        = setConsecutiveFailures 0 (syncStats (svc st))
    | Threw t =>
        syncStats (svc (final r)) = syncStats (svc st)
        /\ ((n = O /\ t = last) \/ exists e, t = ThrownError e)
    | OutOfFuel => False
    end.
Proof.
  intros Hs Ht He. induction n as [|n IH]; intros k last st;
    cbn [retryFrom].
  - cbn. auto.
  - set (st1 := if 0 <? k then snd (sleep (backoffDelay cfg k) st) else st).
    assert (S1 : syncStats (svc st1) = syncStats (svc st)).
    { unfold st1. destruct (0 <? k); reflexivity. }
    pose proof (Hs st1) as S2. pose proof (Ht st1) as T2.
    pose proof (He st1) as E2.
    destruct (operation st1) as [[v|t|] s2]; cbn [result final fst snd] in *.
    + rewrite <- S1, <- S2. reflexivity.
    + destruct (E2 _ _ eq_refl) as [e ->]. cbn [result final].
      specialize (IH (k + 1) (ThrownError e) s2). cbv zeta in IH.
      destruct (result (retryFrom cfg operation n (k + 1) (ThrownError e) s2))
        as [v|t|].
      * rewrite IH, S2, S1. reflexivity.
      * destruct IH as [IH C]. split; [congruence|].
        right. destruct C as [[_ ->]|C]; eauto.
      * exact IH.
    + apply T2. reflexivity.
Qed.

Lemma retry_upsert (cfg : Config) (user : SourceUser) (st : State) :
  0 <= maxRetries (retryConfig cfg) ->
  exists st',
    (retryWithBackoff cfg (upsertOperation user) st = (Returned tt, st')
     /\ syncStats (svc st') = setConsecutiveFailures 0 (syncStats (svc st)))
    \/ (exists e,
          retryWithBackoff cfg (upsertOperation user) st
          = (Threw (ThrownError e), st')
          /\ syncStats (svc st') = syncStats (svc st)).
Proof.
  intros Hr. unfold retryWithBackoff, retryRun.
  pose proof (retryFrom_stats cfg (upsertOperation user)
                (stats_upsertOperation user) (total_upsertOperation user)
                (errors_upsertOperation user)
                (Z.to_nat (maxRetries (retryConfig cfg) + 1)) 0
                ThrownUndefined st) as H.
  cbv zeta in H.
  destruct (retryFrom cfg (upsertOperation user)
              (Z.to_nat (maxRetries (retryConfig cfg) + 1)) 0
              ThrownUndefined st) as [res stp fin].
  cbn [result final] in *. exists fin.
  destruct res as [[]|t|].
  - left. auto.
  - right. destruct H as [H [[C _]|[e ->]]]; [lia|eauto].
  - contradiction.
Qed.

(** The loop over one page: every row is counted once, as a success or
    as an error, and only the error count of the statistics moves. *)
Lemma syncEach_counts (cfg : Config) (users : list SourceUser) :
  0 <= maxRetries (retryConfig cfg) ->
  forall (s e : Z) (st : State),
    exists (st' : State) (failed : Z),
      0 <= failed <= Z.of_nat (List.length users)
      /\ syncEach cfg users s e st
         = (Returned (s + (Z.of_nat (List.length users) - failed),
                      e + failed), st')
      /\ totalSynced (syncStats (svc st')) = totalSynced (syncStats (svc st))
      /\ errors (syncStats (svc st'))
         = errors (syncStats (svc st)) + failed
      /\ lastSyncTime (syncStats (svc st'))
         = lastSyncTime (syncStats (svc st))
      /\ lastSyncDuration (syncStats (svc st'))
         = lastSyncDuration (syncStats (svc st)).
Proof.
  intros Hr. induction users as [|u users IH]; intros s e st.
  - exists st, 0. cbn. repeat split; try lia.
    unfold ret. do 3 f_equal; lia.
  - cbn [syncEach]. unfold bind at 1. unfold tryCatch, bind at 1.
    destruct (retry_upsert cfg u st Hr) as (s1 & [[E S1]|(err & E & S1)]);
      rewrite E.
    + unfold ret at 1.
      destruct (IH (s + 1) e s1) as (st' & k & Hk & E' & T & Er & L & D).
      exists st', k. rewrite E', T, Er, L, D, S1.
      cbn [List.length]. repeat split; try lia.
      do 3 f_equal; lia.
    + unfold bind at 1. rewrite logError_effect. unfold ret at 1.
      match goal with
      | |- context [syncEach cfg users s (e + 1) ?x] =>
          destruct (IH s (e + 1) x) as (st' & k & Hk & E' & T & Er & L & D)
      end.
      exists st', (k + 1). rewrite E', T, Er, L, D.
      cbn [List.length].
      destruct (nextChatFault s1); stats_simpl; rewrite ?S1;
        (repeat split; try lia); do 3 f_equal; lia.
Qed.

(** X9.  One row that cannot be written does not stop a batch.  When the
    SELECT of [bulkSyncUsers] goes through ([maxRetries] not negative),
    the call returns whatever the chat database does: [false] on an empty
    page with the statistics untouched, and otherwise whether the page
    was full, with every row counted once: the rows written are added to
    [totalSynced], and each row given up adds 2 to [errors] (one in
    [logError], one more when the batch is summed up). *)
Theorem bulkSyncUsers_isolates_failures :
  forall (cfg : Config) (limit offset : nat) (sinceDate : option Z)
         (st : State),
    0 <= maxRetries (retryConfig cfg) ->
    nextSourceFault st = None ->
    let users := nextPage st limit offset sinceDate in
    exists (st' : State) (failed : Z),
      0 <= failed <= Z.of_nat (List.length users)
      /\ bulkSyncUsers cfg limit offset sinceDate st
         = (Returned (negb (Nat.eqb (List.length users) 0)
                      && Nat.eqb (List.length users) limit), st')
      /\ (users = [] -> syncStats (svc st') = syncStats (svc st))
      /\ (users <> [] ->
          totalSynced (syncStats (svc st'))
          = totalSynced (syncStats (svc st))
            + (Z.of_nat (List.length users) - failed)
          /\ errors (syncStats (svc st'))
             = errors (syncStats (svc st)) + 2 * failed
          /\ lastSyncTime (syncStats (svc st'))
             = Some (now (world st'))).
Proof.
  intros cfg limit offset since st Hr Hs users.
  unfold bulkSyncUsers, tryCatch, bind at 1, sourceQuery.
  unfold nextSourceFault in Hs.
  destruct (nextFault (sourceFaults (world st))) as [fault rest].
  cbn [fst] in Hs. subst fault.
  unfold users, nextPage.
  destruct (nextScan (sourceScans (world st))) as [scan scans]. cbn [fst].
  destruct (selectPage (scanBy scan (sourceUsers (world st))) limit offset
              since) as [|u us] eqn:U.
  - exists (updWorld
              (appendJournal (SourceSelect limit offset since []))
              (updWorld (setSourceScans scans)
                 (updWorld (setSourceFaults rest) st))), 0.
    split; [cbn; lia|]. split; [reflexivity|]. split; [reflexivity|].
    intros C. contradiction.
  - cbn [List.length Nat.eqb negb andb].
    unfold bind at 1.
    match goal with
    | |- context [syncEach cfg (u :: us) 0 0 ?x] =>
        destruct (syncEach_counts cfg (u :: us) Hr 0 0 x)
          as (s1 & k & Hk & E & T & Er & L & D)
    end.
    rewrite E. unfold bind, dateNow, gets, modify, ret.
    eexists. exists k. split; [exact Hk|]. split; [reflexivity|].
    split; [discriminate|]. intros _.
    stats_simpl.
    rewrite T, Er. cbn [List.length].
    split; [lia|]. split; [lia|reflexivity].
Qed.

Lemma bulkSyncUsers_isolates_failures_witness :
  exists (st' : State) (failed : Z),
    bulkSyncUsers defaultConfig 2 0 None
      (updWorld (setChatFaults
                   [Some boom; Some boom; Some boom; Some boom])
                sampleState)
    = (Returned true, st')
    /\ totalSynced (syncStats (svc st')) = 2 - failed
    /\ errors (syncStats (svc st')) = 2 * failed.
Proof.
  destruct (bulkSyncUsers_isolates_failures defaultConfig 2 0 None
              (updWorld (setChatFaults
                           [Some boom; Some boom; Some boom; Some boom])
                        sampleState))
    as (st' & failed & _ & E & _ & H).
  - cbn. lia.
  - reflexivity.
  - exists st', failed. split; [exact E|].
    destruct H as (T & Er & _); [discriminate|].
    split; [exact T|exact Er].
Defined.

(** X10.  When the SELECT of [bulkSyncUsers] fails, the call logs
    [BULK_SYNC_FAILED] once and throws the error of the query again:
    nothing is written to the [users] table and neither [totalSynced] nor
    [lastSyncTime] moves. *)
Theorem bulkSyncUsers_rethrows_source_failure :
  forall (cfg : Config) (limit offset : nat) (sinceDate : option Z)
         (st : State) (e : error),
    nextSourceFault st = Some e ->
    exists st' : State,
      bulkSyncUsers cfg limit offset sinceDate st
      = (Threw (ThrownError e), st')
      /\ lastError (syncStats (svc st'))
         = Some (errorRecordOf (now (world st)) "BULK_SYNC_FAILED" None e)
      /\ errors (syncStats (svc st')) = errors (syncStats (svc st)) + 1
      /\ failuresOf st' = failuresOf st + 1
      /\ totalSynced (syncStats (svc st')) = totalSynced (syncStats (svc st))
      /\ lastSyncTime (syncStats (svc st'))
         = lastSyncTime (syncStats (svc st))
      /\ upsertsIn (journal (world st')) = upsertsIn (journal (world st)).
Proof.
  intros cfg limit offset since st e Hs.
  unfold bulkSyncUsers, tryCatch, bind at 1, sourceQuery.
  unfold nextSourceFault in Hs.
  destruct (nextFault (sourceFaults (world st))) as [fault rest].
  cbn [fst] in Hs. subst fault.
  unfold bind. rewrite logError_effect. unfold throw.
  eexists. split; [reflexivity|].
  destruct (nextChatFault (updWorld (setSourceFaults rest) st));
    cbn; repeat split; try reflexivity.
  unfold upsertsIn. rewrite flat_map_app. cbn. apply app_nil_r.
Qed.

Lemma bulkSyncUsers_rethrows_source_failure_witness :
  exists st' : State,
    bulkSyncUsers defaultConfig 500 0 None
      (updWorld (setSourceFaults [Some boom]) sampleState)
    = (Threw (ThrownError boom), st')
    /\ failuresOf st' = 1.
Proof.
  destruct (bulkSyncUsers_rethrows_source_failure defaultConfig 500 0 None
              (updWorld (setSourceFaults [Some boom]) sampleState) boom
              eq_refl)
    as (st' & E & _ & _ & F & _).
  exists st'. split; [exact E|exact F].
Defined.

(** *** The scheduled cycle goes on *)

(** The [try]/[catch] of a pass never lets anything out. *)
Lemma pass_settles (cfg : Config) (startTime since : Z) (st : State) :
  exists st',
    tryCatch (cyclePages cfg startTime since) cycleCatch st
    = (Returned tt, st').
Proof.
  unfold tryCatch.
  destruct (cyclePages cfg startTime since st) as [[[]|t|] s1] eqn:E.
  - eauto.
  - destruct (errors_cyclePages cfg startTime since _ _ _ E) as [e ->].
    unfold cycleCatch. rewrite logError_effect. eauto.
  - exfalso. apply (total_cyclePages cfg startTime since st).
    rewrite E. reflexivity.
Qed.

Lemma scheduleNextSync_arms (i : Z) (st : State) :
  exists st',
    scheduleNextSync i st = (Returned tt, st')
    /\ scheduledSyncTimeout (svc st') = Some (nextHandle (world st))
    /\ In (mkTimer (nextHandle (world st)) (i * 60 * 1000)
                   (RunScheduledSyncCycle i))
          (timers (world st'))
    /\ isSyncInProgress (svc st') = isSyncInProgress (svc st).
Proof.
  eexists. split; [apply MutexProps.scheduleNextSync_returns|].
  cbn. repeat split. apply in_or_app. right. left. reflexivity.
Qed.

(** X8.  A scheduled cycle never throws and never stops the schedule:
    whatever the databases do, [runScheduledSyncCycle] returns, the flag
    is as it was on entry (clear after a pass, still set after a skip),
    and [scheduledSyncTimeout] refers to a pending timer that runs the
    next cycle [intervalMinutes] minutes later. *)
Theorem scheduled_cycle_always_reschedules :
  forall (cfg : Config) (intervalMinutes : Z) (st : State),
    exists (st' : State) (h : nat),
      runScheduledSyncCycle cfg intervalMinutes st = (Returned tt, st')
      /\ scheduledSyncTimeout (svc st') = Some h
      /\ In (mkTimer h (intervalMinutes * 60 * 1000)
                     (RunScheduledSyncCycle intervalMinutes))
            (timers (world st'))
      /\ isSyncInProgress (svc st') = isSyncInProgress (svc st).
Proof.
  intros cfg i st.
  assert (R : runScheduledSyncCycle cfg i st
              = if isSyncInProgress (svc st)
                then scheduleNextSync i st
                else tryFinally
                       (tryCatch
                          (bind (cycleEnter cfg i)
                             (fun since =>
                                cyclePages cfg (now (world st)) since))
                          cycleCatch)
                       (cycleFinally i) st).
  { unfold runScheduledSyncCycle, bind at 1 2, dateNow, gets.
    destruct (isSyncInProgress (svc st)); reflexivity. }
  rewrite R. clear R.
  destruct (isSyncInProgress (svc st)) eqn:F.
  - destruct (scheduleNextSync_arms i st) as (st' & E & Hh & Hin & Hf).
    exists st', (nextHandle (world st)). rewrite F in Hf. auto.
  - destruct (MutexProps.cycleEnter_sets cfg i st) as (s1 & E1 & _).
    assert (B : exists s2,
               tryCatch
                 (bind (cycleEnter cfg i)
                       (fun since => cyclePages cfg (now (world st)) since))
                 cycleCatch st = (Returned tt, s2)).
    { destruct (pass_settles cfg (now (world st))
                  (lookbackStart cfg i (now (world st))) s1) as (s2 & E2).
      exists s2. unfold tryCatch, bind in *. rewrite E1. exact E2. }
    destruct B as (s2 & B).
    unfold tryFinally. rewrite B.
    unfold cycleFinally, bind, modify.
    destruct (scheduleNextSync_arms i
                (updStats (setScheduledSyncActive false)
                   (setIsSyncInProgress false s2)))
      as (st' & E & Hh & Hin & Hf).
    rewrite E. exists st'. eexists. repeat split; eauto.
Qed.

(** *** The time spent waiting *)

Lemma waitedMs_app (a b : list RetryStep) :
  waitedMs (a ++ b) = waitedMs a + waitedMs b.
Proof.
  induction a as [|[k ms|k] a IH]; cbn [waitedMs app]; lia.
Qed.

Lemma specDelay_le_max (cfg : Config) (k : Z) :
  specDelay cfg k <= maxDelayMs (retryConfig cfg).
Proof. unfold specDelay. apply Z.le_min_r. Qed.

Lemma waitedMs_timeline (cfg : Config) :
  0 <= maxDelayMs (retryConfig cfg) ->
  forall (m : nat) (k : Z),
    waitedMs (timelineFrom cfg k m)
    <= Z.of_nat m * maxDelayMs (retryConfig cfg).
Proof.
  intros Hd. induction m as [|m IH]; intros k.
  - cbn. lia.
  - cbn [timelineFrom]. rewrite waitedMs_app. cbn [waitedMs].
    specialize (IH (k + 1)). pose proof (specDelay_le_max cfg k).
    destruct (0 <? k); cbn [waitedMs]; lia.
Qed.

Lemma sleptMs_app (a b : list RetryStep) :
  sleptMs (a ++ b) = sleptMs a + sleptMs b.
Proof.
  induction a as [|[k ms|k] a IH]; cbn [sleptMs app]; lia.
Qed.

Lemma timerDelay_positive (ms : Z) : 1 <= timerDelay ms.
Proof.
  unfold timerDelay.
  destruct (ms <? 1) eqn:L; cbn [orb]; [lia|].
  destruct (2147483647 <? ms); lia.
Qed.

Lemma timerDelay_in_range (ms : Z) :
  1 <= ms <= 2147483647 -> timerDelay ms = ms.
Proof.
  intros [L U]. unfold timerDelay.
  apply Z.ltb_ge in L. rewrite L. cbn [orb].
  apply Z.ltb_ge in U. rewrite U. reflexivity.
Qed.

Lemma sleptMs_nonneg (l : list RetryStep) : 0 <= sleptMs l.
Proof.
  induction l as [|[k ms|k] l IH]; cbn [sleptMs]; [lia| |exact IH].
  pose proof (timerDelay_positive ms). lia.
Qed.

(** With delays that a timer takes as they are, the time slept is the
    time asked for. *)
Lemma sleptMs_timeline (cfg : Config) :
  1 <= initialDelayMs (retryConfig cfg) ->
  1 <= backoffMultiplier (retryConfig cfg) ->
  1 <= maxDelayMs (retryConfig cfg) <= 2147483647 ->
  forall (m : nat) (k : Z),
    sleptMs (timelineFrom cfg k m) = waitedMs (timelineFrom cfg k m).
Proof.
  intros Hi Hm Hd. induction m as [|m IH]; intros k; [reflexivity|].
  cbn [timelineFrom]. rewrite sleptMs_app, waitedMs_app.
  cbn [sleptMs waitedMs]. rewrite (IH (k + 1)).
  destruct (0 <? k) eqn:K; cbn [sleptMs waitedMs]; [|reflexivity].
  apply Z.ltb_lt in K. rewrite timerDelay_in_range; [reflexivity|].
  unfold specDelay.
  assert (P : 1 <= backoffMultiplier (retryConfig cfg) ^ (k - 1)).
  { rewrite <- (Z.pow_1_l (k - 1)) at 1 by lia.
    apply Z.pow_le_mono_l. lia. }
  split; [apply Z.min_glb; nia|].
  etransitivity; [apply Z.le_min_r|lia].
Qed.

Lemma retryFrom_clock (cfg : Config) {A : Type} (operation : M A) :
  keepsClock operation ->
  forall (n : nat) (k : Z) (last : thrown) (st : State),
    let r := retryFrom cfg operation n k last st in
    now (world (final r)) = now (world st) + sleptMs (steps r).
Proof.
  intros Hc. induction n as [|n IH]; intros k last st; cbn [retryFrom].
  - cbn. lia.
  - set (st1 := if 0 <? k then snd (sleep (backoffDelay cfg k) st) else st).
    assert (C1 : now (world st1)
                 = now (world st)
                   + sleptMs (if 0 <? k
                              then [Waited k (backoffDelay cfg k)] else [])).
    { unfold st1. destruct (0 <? k); cbn; lia. }
    pose proof (Hc st1) as C2.
    destruct (operation st1) as [[v|[e|]|] s2]; cbn [final steps snd] in *.
    + rewrite sleptMs_app. cbn [sleptMs]. cbn [updStats world]. lia.
    + rewrite sleptMs_app. cbn [sleptMs].
      specialize (IH (k + 1) (ThrownError e) s2). cbv zeta in IH. lia.
    + rewrite sleptMs_app. cbn [sleptMs]. lia.
    + rewrite sleptMs_app. cbn [sleptMs]. lia.
Qed.

(** X11.  The time [retryWithBackoff] spends waiting is bounded: with
    [maxRetries] and [maxDelayMs] not negative, the waits one call asks
    for sum up to at most [maxRetries * maxDelayMs].  The waits are all
    the time the call takes beyond the operation's own: around an
    operation that leaves the clock alone the clock moves forward by the
    delays the timers of those waits ran with (a delay below 1 ms or
    above 2^31-1 ms runs as 1 ms), which is the sum of the waits asked
    for when [initialDelayMs] and the multiplier are at least 1 and
    [maxDelayMs] lies between 1 and 2^31-1. *)
Theorem retry_waits_are_bounded :
  forall (cfg : Config) (A : Type) (operation : M A) (st : State),
    0 <= maxRetries (retryConfig cfg) ->
    0 <= maxDelayMs (retryConfig cfg) ->
    let r := retryRun cfg operation st in
    waitedMs (steps r)
    <= maxRetries (retryConfig cfg) * maxDelayMs (retryConfig cfg)
    /\ (keepsClock operation ->
        now (world (snd (retryWithBackoff cfg operation st)))
        = now (world st) + sleptMs (steps r)
        /\ now (world st)
           <= now (world (snd (retryWithBackoff cfg operation st)))
        /\ (1 <= initialDelayMs (retryConfig cfg) ->
            1 <= backoffMultiplier (retryConfig cfg) ->
            1 <= maxDelayMs (retryConfig cfg) <= 2147483647 ->
            sleptMs (steps r) = waitedMs (steps r))).
Proof.
  intros cfg A operation st Hr Hd r.
  destruct (RetryProps.retryFrom_timeline cfg A operation
              (Z.to_nat (maxRetries (retryConfig cfg) + 1)) 0
              ThrownUndefined st) as [T B].
  fold (retryRun cfg operation st) in T, B. fold r in T, B.
  split.
  - rewrite T.
    destruct (attemptsOf (steps r)) as [|m] eqn:Am.
    + cbn. nia.
    + cbn [timelineFrom]. change (0 <? 0) with false.
      cbn [app waitedMs].
      pose proof (waitedMs_timeline cfg Hd m (0 + 1)). nia.
  - intros Hc. unfold retryWithBackoff. cbn [snd].
    pose proof (retryFrom_clock cfg operation Hc
                  (Z.to_nat (maxRetries (retryConfig cfg) + 1)) 0
                  ThrownUndefined st) as C.
    cbv zeta in C. fold (retryRun cfg operation st) in C. fold r in C.
    split; [exact C|]. split.
    + fold r. pose proof (sleptMs_nonneg (steps r)). lia.
    + intros Hi Hm Hd'. rewrite T. apply sleptMs_timeline; assumption.
Qed.

Lemma retry_waits_are_bounded_witness :
  waitedMs (steps (retryRun defaultConfig alwaysFails freshState)) <= 90000
  /\ now (world (snd (retryWithBackoff defaultConfig alwaysFails freshState)))
     = now (world freshState) + 7000.
Proof.
  destruct (retry_waits_are_bounded defaultConfig unit alwaysFails freshState)
    as [B C]; [cbn; lia|cbn; lia|].
  split; [exact B|].
  destruct C as [C _]; [intros st; reflexivity|].
  rewrite C. reflexivity.
Defined.

End FailureProps.

(* ================================================================== *)
(** * The scheduled pass: selection, order and pagination *)
(* ================================================================== *)

Module BatchProps.
Import JS Transformer Engine EventLoop Spec Behaviour.
Import FrameProps TotalProps FailureProps.

(** *** The query *)










(** *** Orders of the same rows *)






(** *** What a scan can do *)

(** Every order of the table is the scan of some list of positions. *)
Lemma scanBy_complete (order : list SourceUser) :
  forall table : list SourceUser,
    Permutation table order -> exists picks, scanBy picks table = order.
Proof.
  induction order as [|x order IH]; intros table P.
  - exists []. symmetry in P. apply Permutation_nil in P. subst table.
    reflexivity.
  - assert (I : In x table)
      by (apply (Permutation_in _ (Permutation_sym P)); left; reflexivity).
    apply In_nth_error in I as [p E].
    destruct (IH (removeAt p table)) as [picks S].
    { apply (Permutation_cons_inv (a := x)).
      rewrite <- (removeAt_perm table p x E). exact P. }
    exists (p :: picks). cbn [scanBy]. rewrite E, S. reflexivity.
Qed.

Lemma filter_partition {A : Type} (f : A -> bool) (l : list A) :
  Permutation l (filter f l ++ filter (fun x => negb (f x)) l).
Proof.
  induction l as [|a l IH]; [reflexivity|]. cbn [filter].
  destruct (f a); cbn [negb app].
  - apply perm_skip, IH.
  - apply Permutation_cons_app, IH.
Qed.

Lemma filter_all {A : Type} (f : A -> bool) (l : list A) :
  (forall x, In x l -> f x = true) -> filter f l = l.
Proof.
  induction l as [|a l IH]; intros H; [reflexivity|]. cbn [filter].
  rewrite (H a (or_introl eq_refl)), IH; [reflexivity|].
  intros x X. apply H. right. exact X.
Qed.

Lemma filter_none {A : Type} (f : A -> bool) (l : list A) :
  filter f (filter (fun x => negb (f x)) l) = [].
Proof.
  induction l as [|a l IH]; [reflexivity|]. cbn [filter].
  destruct (f a) eqn:F; cbn [negb filter]; [exact IH|].
  rewrite F. exact IH.
Qed.

(** The sort leaves a sorted list as it is: it is stable. *)
Lemma sorted_fixed (l : list SourceUser) :
  StronglySorted (fun a b => precedes a b = true) l ->
  orderByUpdatedAtDesc l = l.
Proof.
  induction 1 as [|a l S IH F]; [reflexivity|].
  cbn [orderByUpdatedAtDesc]. rewrite IH.
  destruct l as [|b l]; [reflexivity|]. cbn [insertDesc].
  inversion F as [|? ? P _]; subst. rewrite P. reflexivity.
Qed.

(** Every order of the selected rows that ORDER BY updated_at DESC
    allows is the answer of the query under some scan. *)
Lemma orders_reachable (f : SourceUser -> bool)
    (table order : list SourceUser) :
  Permutation order (filter f table) ->
  StronglySorted (fun a b => precedes a b = true) order ->
  exists picks,
    orderByUpdatedAtDesc (filter f (scanBy picks table)) = order.
Proof.
  intros P S.
  destruct (scanBy_complete
              (order ++ filter (fun x => negb (f x)) table) table)
    as [picks E].
  { rewrite P. apply filter_partition. }
  exists picks. rewrite E, filter_app, filter_none, app_nil_r.
  rewrite filter_all; [apply sorted_fixed, S|].
  intros x X. apply (Permutation_in _ P) in X.
  apply filter_In in X. apply X.
Qed.

Section Orders.

Variable st : State.
Variable since : Z.

Let rows := eligibleRows since (sourceUsers (world st)).







(** With an exhausted list of scans every query reads the table as it
    lies. *)
Lemma orderAt_no_scan (k : nat) :
  sourceScans (world st) = [] -> orderAt st since k = rows.
Proof.
  intros E. unfold orderAt. rewrite E.
  destruct k; reflexivity.
Qed.

End Orders.

(** *** Pages *)






Section Pages.

Variable limit : nat.
Variable st : State.
Variable since : Z.
Hypothesis positive : limit <> O.

Let rows := eligibleRows since (sourceUsers (world st)).
Let last := (List.length rows / limit)%nat.









End Pages.

(** *** Scripts of faults and scans *)







(** *** One row *)







Section Replay.

Variable cfg : Config.
Hypothesis retries : 0 <= maxRetries (retryConfig cfg).



End Replay.

Section Pass.

Variable cfg : Config.
Hypothesis retries : 0 <= maxRetries (retryConfig cfg).

Variable limit : nat.
Variable since : Z.
Variable st0 : State.



Hypothesis positive : limit <> O.

Let rows := eligibleRows since (sourceUsers (world st0)).


End Pass.


(** *** Claim *)






End BatchProps.

(* ================================================================== *)
(** * The listener below its maximum *)
(* ================================================================== *)

Module ReconnectProps.
Import JS Transformer Engine EventLoop Spec Behaviour.
Import FrameProps TotalProps FailureProps.

#[export] Instance listenerIdle_frame : Frame listenerIdle.
Proof.
  split.
  - intros s. repeat split.
  - intros a b c (L1 & A1 & T1 & N1) (L2 & A2 & T2 & N2).
    repeat split; congruence.
  - intros f st. repeat split.
  - intros f st Q. destruct (Q (world st)) as (T & N & _).
    repeat split; assumption.
Qed.

Lemma onThrow_bind (R : State -> State -> Prop) `{Frame R} {A B : Type}
    (m : M A) (k : A -> M B) :
  keeps R m -> (forall a, onThrow R (k a)) -> onThrow R (bind m k).
Proof.
  intros Km Hk st st' t E. unfold bind in E. specialize (Km st).
  destruct (m st) as [[a|t'|] s1]; cbn [snd] in Km.
  - eapply frame_trans; [exact Km|]. eapply Hk, E.
  - injection E as <- <-. exact Km.
  - discriminate E.
Qed.

Lemma errors_clientCall : throwsErrors clientCall.
Proof.
  intros st st' t. unfold clientCall.
  destruct (nextFault (clientFaults (world st))) as [[f|] rest]; intros H;
    [injection H as <- _; eauto|discriminate H].
Qed.

Lemma errors_connectAndListen : throwsErrors connectAndListen.
Proof.
  unfold connectAndListen.
  apply errors_bind; [apply errors_gets|intros hasClient].
  apply errors_bind.
  { destruct hasClient; [|apply errors_ret].
    apply errors_bind; [|intros _; apply errors_modify].
    apply errors_tryCatch. intros t. apply errors_ret. }
  intros _.
  apply errors_bind; [apply errors_modify|intros _].
  do 4 (apply errors_bind; [apply errors_clientCall|intros _]).
  apply errors_bind; [apply errors_modify|intros _].
  apply errors_bind; [apply errors_modify|intros _].
  apply errors_modify.
Qed.

(** A [try] block of [startRealTimeSync] that throws has changed neither
    the listening flag, nor the counter, nor the timers. *)
Lemma connectAndListen_throw_idle : onThrow listenerIdle connectAndListen.
Proof.
  unfold connectAndListen.
  assert (Kc : keeps listenerIdle clientCall) by apply keeps_clientCall.
  assert (Km : forall b, keeps listenerIdle (modify (setRealtimeClient b)))
    by (intros b st; repeat split).
  apply onThrow_bind; [exact _|apply keeps_gets|intros hasClient].
  apply onThrow_bind; [exact _| |intros _].
  { destruct hasClient; [|apply keeps_ret].
    apply keeps_bind; [|intros _; apply Km].
    apply keeps_tryCatch; [exact Kc|intros _; apply keeps_ret]. }
  apply onThrow_bind; [exact _|apply Km|intros _].
  do 4 (apply onThrow_bind; [exact _|exact Kc|intros _]).
  intros st st' t E. discriminate E.
Qed.

(** X12.  Below the maximum, a start of the listener that fails reports
    it and arms exactly one retry: [startRealTimeSync] logs
    [REALTIME_SYNC_START_FAILED], adds one to the reconnection counter,
    adds one timer that calls it again after
    [min(initialDelayMs * backoffMultiplier^(attempts - 1), maxDelayMs)]
    with the new count, keeps its handle in [realtimeReconnectTimeout],
    leaves the listening flag clear, and throws the error of the client
    again. *)
Theorem failed_start_arms_one_reconnection :
  forall (cfg : Config) (st st' : State) (t : thrown),
    isListening (svc st) = false ->
    realtimeReconnectAttempts (svc st) < maxReconnectAttempts cfg ->
    startRealTimeSync cfg st = (Threw t, st') ->
    isListening (svc st') = false
    /\ realtimeReconnectAttempts (svc st')
       = realtimeReconnectAttempts (svc st) + 1
    /\ timers (world st')
       = (timers (world st)
            ++ [mkTimer (nextHandle (world st))
                  (specDelay cfg (realtimeReconnectAttempts (svc st) + 1))
                  Reconnect])%list
    /\ realtimeReconnectTimeout (svc st') = Some (nextHandle (world st))
    /\ exists (e : error) (at_ : Z),
        t = ThrownError e
        /\ lastError (syncStats (svc st'))
           = Some (errorRecordOf at_ "REALTIME_SYNC_START_FAILED" None e).
Proof.
  intros cfg st st' t L Hlt E.
  unfold startRealTimeSync, bind at 1, gets at 1 in E. rewrite L in E.
  unfold tryCatch in E.
  destruct (connectAndListen st) as [[[]|t0|] s1] eqn:C;
    try discriminate E.
  destruct (connectAndListen_throw_idle _ _ _ C) as (L1 & A1 & T1 & N1).
  destruct (errors_connectAndListen _ _ _ C) as [e ->].
  unfold bind at 1 in E. rewrite logError_effect in E.
  unfold bind at 1, attemptRealtimeReconnection, bind at 1, gets in E.
  match type of E with
  | context [maxReconnectAttempts cfg <=? ?a] =>
      replace (maxReconnectAttempts cfg <=? a) with false in E
  end.
  2:{ symmetry. apply Z.leb_gt.
      destruct (nextChatFault s1); cbn; rewrite A1; exact Hlt. }
  unfold bind, modify, setTimeout, throw in E.
  injection E as <- <-.
  destruct (nextChatFault s1); cbn;
    rewrite ?L1, ?A1, ?T1, ?N1, ?L;
    (repeat split; try reflexivity); eauto.
Qed.

Lemma failed_start_arms_one_reconnection_witness :
  timers (world (snd (startRealTimeSync defaultConfig
                        (updWorld (setClientFaults [Some boom])
                                  freshState))))
  = [mkTimer 0 1000 Reconnect].
Proof.
  destruct (failed_start_arms_one_reconnection defaultConfig
              (updWorld (setClientFaults [Some boom]) freshState)
              (snd (startRealTimeSync defaultConfig
                      (updWorld (setClientFaults [Some boom]) freshState)))
              (ThrownError boom))
    as (_ & _ & T & _).
  - reflexivity.
  - cbn. lia.
  - reflexivity.
  - exact T.
Defined.

End ReconnectProps.

(* ================================================================== *)
(** * The schedule stays alive *)
(* ================================================================== *)

Module ScheduleProps.
Import JS Transformer Engine EventLoop Spec Behaviour.
Import FrameProps TotalProps FailureProps.

#[export] Instance sameSchedule_frame : Frame sameSchedule.
Proof.
  split.
  - intros s. repeat split.
  - intros a b c (F1 & H1 & T1 & U1) (F2 & H2 & T2 & U2).
    repeat split; congruence.
  - intros f st. repeat split.
  - intros f st Q. destruct (Q (world st)) as (T & N & U).
    unfold sameSchedule, syncTimers. cbn [updWorld svc world].
    rewrite T. repeat split. exact U.
Qed.

(** *** Timers *)

Lemma syncTimers_added (ts : list Timer) (t : Timer) :
  filter isSyncTimer (ts ++ [t])
  = (filter isSyncTimer ts ++ if isSyncTimer t then [t] else [])%list.
Proof.
  rewrite filter_app. cbn [filter]. destruct (isSyncTimer t); reflexivity.
Qed.

Lemma filter_filter_nil {A : Type} (p g : A -> bool) (l : list A) :
  filter p l = [] -> filter p (filter g l) = [].
Proof.
  induction l as [|x l IH]; cbn [filter]; [reflexivity|].
  destruct (p x) eqn:P; [discriminate|]. intros H.
  destruct (g x); cbn [filter]; [rewrite P|]; auto.
Qed.

Lemma takeTimer_split (h : nat) (ts : list Timer) (t : Timer)
    (rest : list Timer) :
  takeTimer h ts = Some (t, rest) ->
  exists l1 l2, ts = (l1 ++ t :: l2)%list /\ rest = (l1 ++ l2)%list.
Proof.
  revert rest. induction ts as [|x ts IH]; intros rest; cbn [takeTimer];
    [discriminate|].
  destruct (Nat.eqb (handle x) h).
  - intros E. injection E as <- <-. exists [], ts. auto.
  - destruct (takeTimer h ts) as [[found rest']|]; [|discriminate].
    intros E. injection E as <- <-.
    destruct (IH rest' eq_refl) as (l1 & l2 & -> & ->).
    exists (x :: l1), l2. auto.
Qed.

(** Taking a timer out of the pending ones: a trigger of the scheduled
    sync that was the only one leaves none, any other timer leaves the
    triggers as they were. *)
Lemma takeTimer_syncTimers (h : nat) (ts : list Timer) (t : Timer)
    (rest : list Timer) :
  takeTimer h ts = Some (t, rest) ->
  (isSyncTimer t = false -> filter isSyncTimer rest = filter isSyncTimer ts)
  /\ (forall x, filter isSyncTimer ts = [x] -> isSyncTimer t = true ->
      filter isSyncTimer rest = [])
  /\ (filter isSyncTimer ts = [] -> isSyncTimer t = false).
Proof.
  intros E. destruct (takeTimer_split h ts t rest E) as (l1 & l2 & -> & ->).
  rewrite !filter_app. cbn [filter]. repeat split.
  - intros P. rewrite P. reflexivity.
  - intros x H P. rewrite P in H.
    destruct (filter isSyncTimer l1) as [|a l1'].
    + cbn in H. injection H as _ H. exact H.
    + cbn in H. injection H as _ H.
      destruct l1'; discriminate H.
  - intros H. destruct (isSyncTimer t); [|reflexivity].
    destruct (filter isSyncTimer l1); discriminate H.
Qed.

(** *** The listener does not touch the schedule *)

Lemma schedule_setTimeout_reconnect (ms : Z) :
  keeps sameSchedule (setTimeout Reconnect ms).
Proof.
  intros st. unfold sameSchedule, syncTimers, setTimeout.
  cbn [snd updWorld svc world setTimers timers sourceUsers].
  rewrite syncTimers_added. cbn. rewrite app_nil_r. repeat split.
Qed.

Ltac frame_schedule :=
  repeat first
    [ apply keeps_ret | apply keeps_throw | apply keeps_gets
    | apply keeps_logError | apply keeps_clientCall
    | apply schedule_setTimeout_reconnect
    | apply keeps_bind; [|intros ?]
    | apply keeps_tryCatch; [|intros ?]
    | match goal with
      | |- keeps _ (if ?b then _ else _) => destruct b
      | |- keeps _ (match ?x with _ => _ end) => destruct x
      end
    | (intros ?; repeat split) ].

Lemma schedule_attemptRealtimeReconnection (cfg : Config) :
  keeps sameSchedule (attemptRealtimeReconnection cfg).
Proof. unfold attemptRealtimeReconnection. frame_schedule. Qed.

Lemma schedule_startRealTimeSync (cfg : Config) :
  keeps sameSchedule (startRealTimeSync cfg).
Proof.
  unfold startRealTimeSync, connectAndListen.
  pose proof (schedule_attemptRealtimeReconnection cfg).
  repeat first
    [ assumption | apply keeps_ret | apply keeps_throw | apply keeps_gets
    | apply keeps_logError | apply keeps_clientCall
    | apply keeps_bind; [|intros ?]
    | apply keeps_tryCatch; [|intros ?]
    | match goal with
      | |- keeps _ (if ?b then _ else _) => destruct b
      end
    | (intros ?; repeat split) ].
Qed.

Lemma schedule_reconnectCallback (cfg : Config) :
  keeps sameSchedule (reconnectCallback cfg).
Proof.
  unfold reconnectCallback.
  apply keeps_tryCatch; [apply schedule_startRealTimeSync|].
  intros _. apply keeps_ret.
Qed.

Lemma schedule_onClientError (cfg : Config) :
  keeps sameSchedule (onClientError cfg).
Proof.
  unfold onClientError.
  apply keeps_bind; [intros ?; repeat split|intros _].
  apply keeps_bind; [apply keeps_stats|intros _].
  apply schedule_attemptRealtimeReconnection.
Qed.

Lemma schedule_onClientEnd (cfg : Config) :
  keeps sameSchedule (onClientEnd cfg).
Proof.
  unfold onClientEnd.
  apply keeps_bind; [apply keeps_gets|intros [|]]; [|apply keeps_ret].
  apply keeps_bind; [intros ?; repeat split|intros _].
  apply keeps_bind; [apply keeps_stats|intros _].
  apply schedule_attemptRealtimeReconnection.
Qed.

(** *** A pass, from its suspension to the next trigger *)

(** A pass that resumes with no trigger pending ends with the flag
    clear and exactly one trigger pending, the one it has just set. *)
Lemma cycleResume_arms (cfg : Config) (p : Pass) (st : State) :
  syncTimers st = [] ->
  exists t,
    isSyncInProgress (svc (snd (cycleResume cfg p st))) = false
    /\ syncTimers (snd (cycleResume cfg p st)) = [t]
    /\ scheduledSyncTimeout (svc (snd (cycleResume cfg p st)))
       = Some (handle t).
Proof.
  intros Hnone. unfold cycleResume, tryFinally.
  destruct (pass_settles cfg (passStart p) (passSince p) st) as (s2 & E).
  assert (K : sameSchedule st s2).
  { pose proof (keeps_tryCatch (R := sameSchedule)
                  (cyclePages cfg (passStart p) (passSince p)) cycleCatch
                  (keeps_cyclePages cfg (passStart p) (passSince p))
                  (fun t => keeps_logError "SCHEDULED_SYNC_FAILED" None t)
                  st) as K.
    rewrite E in K. exact K. }
  rewrite E. destruct K as (_ & _ & T & _).
  unfold cycleFinally, bind, modify.
  rewrite MutexProps.scheduleNextSync_returns.
  exists (mkTimer (nextHandle (world s2)) (passInterval p * 60 * 1000)
                  (RunScheduledSyncCycle (passInterval p))).
  cbn [snd]. split; [reflexivity|].
  unfold syncTimers in *.
  cbn [world setTimers timers svc setScheduledSyncTimeout
       scheduledSyncTimeout updStats setIsSyncInProgress].
  rewrite syncTimers_added. cbn [isSyncTimer action].
  split; [|reflexivity].
  replace (filter isSyncTimer _) with (@nil Timer); [reflexivity|].
  symmetry. unfold withoutHandle.
  destruct (scheduledSyncTimeout (svc s2));
    [apply filter_filter_nil|]; congruence.
Qed.

Lemma armed_start (cfg : Config) (w : World) (i : option Z) :
  armed (step cfg (boot w) (ScheduledSyncStarts i)).
Proof.
  left. cbn. repeat split. eexists. split; reflexivity.
Qed.

Lemma armed_step (cfg : Config) (rt : Runtime) (e : Occurrence) :
  isRestart e = false -> armed rt -> armed (step cfg rt e).
Proof.
  intros Hr Inv.
  assert (K : forall st', sameSchedule (state rt) st' ->
                armed (mkRuntime st' (running rt))).
  { intros st' (F & H & T & _). unfold armed. cbn [state running].
    rewrite F, H, T. exact Inv. }
  destruct e as [ms|h| | | |i]; cbn [step]; try discriminate Hr.
  - destruct (0 <=? ms); [|exact Inv].
    apply K. apply frame_quiet. auto with frame.
  - destruct (takeTimer h (timers (world (state rt)))) as [[t rest]|] eqn:TT;
      [|exact Inv].
    destruct (takeTimer_syncTimers _ _ _ _ TT) as (Hother & Hone & Hnone).
    set (st' := updWorld (setTimers rest (nextHandle (world (state rt))))
                         (state rt)).
    destruct (isSyncTimer t) eqn:P.
    + (* the trigger of the scheduled sync *)
      destruct Inv as [(R & F & x & Hx & _)|(q & _ & _ & Hn)].
      2:{ unfold syncTimers in Hn. discriminate (Hnone Hn). }
      assert (B : forall i, armed
                              (cycleBegin cfg i (mkRuntime st' (running rt)))).
      { intros i. unfold cycleBegin. cbn [state running].
        change (isSyncInProgress (svc st'))
          with (isSyncInProgress (svc (state rt))).
        rewrite F.
        destruct (MutexProps.cycleEnter_sets cfg i st') as (s2 & E & F2).
        rewrite E. right. rewrite R. eexists. cbn [state running app].
        split; [reflexivity|]. split; [exact F2|].
        assert (S2 : syncTimers s2 = syncTimers st').
        { apply (f_equal snd) in E. cbn [snd] in E. subst s2. reflexivity. }
        rewrite S2. unfold syncTimers, st'. cbn.
        apply (Hone x); [exact Hx|reflexivity]. }
      unfold isSyncTimer in P.
      destruct (action t); [apply B|apply B|discriminate P].
    + (* a reconnection *)
      unfold isSyncTimer in P.
      destruct (action t); try discriminate P.
      apply K. apply (frame_trans _ st').
      * unfold sameSchedule, syncTimers, st'. cbn.
        rewrite Hother by reflexivity. repeat split.
      * apply schedule_reconnectCallback.
  - destruct (running rt) as [|p rest] eqn:R; [exact Inv|].
    destruct Inv as [(C & _)|(q & Q & _ & Hn)]; [congruence|].
    assert (rest = []) by congruence. subst rest.
    destruct (cycleResume_arms cfg p (state rt) Hn) as (t & F & T & H).
    left. cbn [state running]. split; [reflexivity|]. split; [exact F|].
    exists t. auto.
  - apply K, schedule_onClientError.
  - apply K, schedule_onClientEnd.
Qed.

Lemma armed_run (cfg : Config) (events : list Occurrence) :
  forall rt,
    forallb (fun e => negb (isRestart e)) events = true ->
    armed rt -> armed (run cfg rt events).
Proof.
  induction events as [|e events IH]; intros rt H Inv; [exact Inv|].
  cbn [forallb] in H. apply andb_true_iff in H as [He H].
  apply negb_true_iff in He.
  cbn [run fold_left]. apply IH; [exact H|]. apply armed_step; assumption.
Qed.

(** X13.  Once [startScheduledSync] has been called (once), the schedule
    neither stalls nor doubles: after any sequence of timers firing,
    passes ending, time passing and listener events, either exactly one
    trigger of the scheduled sync is pending, it is the one kept in
    [scheduledSyncTimeout] and no pass is in flight, or exactly one pass
    is in flight and no trigger is pending. *)
Theorem schedule_stays_armed :
  forall (cfg : Config) (w : World) (intervalMinutes : option Z)
         (events : list Occurrence),
    forallb (fun e => negb (isRestart e)) events = true ->
    armed (run cfg (step cfg (boot w) (ScheduledSyncStarts intervalMinutes))
               events).
Proof.
  intros cfg w i events H. apply armed_run; [exact H|]. apply armed_start.
Qed.

Lemma schedule_stays_armed_witness :
  armed (run defaultConfig
           (step defaultConfig (boot emptyWorld) (ScheduledSyncStarts None))
           [TimePasses 60000; TimerFires 0; ClientError; PassSettles;
            TimerFires 1; TimerFires 2; PassSettles]).
Proof.
  apply (schedule_stays_armed defaultConfig emptyWorld None). reflexivity.
Defined.

End ScheduleProps.

(* ================================================================== *)
(** * The recommendations of the health report *)
(* ================================================================== *)

Module AdviceProps.
Import JS Transformer Engine EventLoop Spec.
Import Health.

(** A service that listens and whose last sync ended exactly 600
    seconds ago. *)
Lemma stale_by_a_hair (cfg : Config) :
  let st := updStats (recordBatch 0 0 400000) listeningState in
  timeSinceLastSyncMs st = Some 600000
  /\ status (getHealthStatus cfg st) = "UNHEALTHY"
  /\ recommendations (getHealthStatus cfg st) = [].
Proof. repeat split. Qed.

(** X14.  What [getHealthRecommendations] adds to a status.  HEALTHY
    comes with exactly one line: "All systems operational", or the
    warning that the last pass took more than 80% of the interval.
    UNHEALTHY never comes with "All systems operational", and comes with
    at least one remediation hint except at one boundary, which exists:
    a last sync exactly 600 seconds old fails the recency check
    ([< 600]) without getting the hint for it ([> 600]). *)
Theorem recommendations_follow_status :
  forall cfg : Config,
    (forall st : State,
        let report := getHealthStatus cfg st in
        (status report = "HEALTHY" ->
         recommendations report = [AllSystemsOperational]
         \/ recommendations report = [DurationApproachingInterval])
        /\ (status report = "UNHEALTHY" ->
            ~ In AllSystemsOperational (recommendations report)
            /\ (recommendations report = [] ->
                timeSinceLastSyncMs st = Some 600000
                /\ isListening (svc st) = true
                /\ consecutiveFailures (syncStats (svc st)) < 5)))
    /\ exists st : State,
        status (getHealthStatus cfg st) = "UNHEALTHY"
        /\ recommendations (getHealthStatus cfg st) = [].
Proof.
  intros cfg. split.
  2:{ eexists. exact (proj2 (stale_by_a_hair cfg)). }
  intros st report. subst report.
  unfold getHealthStatus, getHealthRecommendations, isHealthy, recentEnough.
  cbn [status recommendations].
  destruct (isListening (svc st)) eqn:L;
    destruct (Z.ltb_spec (consecutiveFailures (syncStats (svc st))) 5)
      as [F|F];
    destruct (Z.leb_spec 5 (consecutiveFailures (syncStats (svc st))))
      as [G|G]; try lia;
    destruct (timeSinceLastSyncMs st) as [ms|];
    try (destruct (Z.ltb_spec ms 600000) as [A|A];
         destruct (Z.ltb_spec 600000 ms) as [B|B]; try lia);
    destruct (lastSyncDuration (syncStats (svc st))) as [d|];
    try destruct (negb (d =? 0) && (syncIntervalMinutes cfg * 48000 <? d));
    cbn;
    (split; [intros H; try discriminate H; auto|]);
    (intros H; try discriminate H);
    (split; [intros C; repeat (destruct C as [C|C]; try discriminate C);
             try contradiction|]);
    intros E; try discriminate E;
    repeat split; try reflexivity; try lia;
    f_equal; lia.
Qed.

End AdviceProps.

(* ================================================================== *)
(** * The upsert and the delete on the chat table *)
(* ================================================================== *)

Module TableProps.
Import JS Transformer Engine Spec Realtime TableView.

Lemma externalIdIs_none (row : ChatUser) : externalIdIs None row = false.
Proof. reflexivity. Qed.

Lemma externalIdIs_spec (k : string) (row : ChatUser) :
  externalIdIs (Some k) row = true <-> externalId row = Some k.
Proof.
  unfold externalIdIs. destruct (externalId row) as [x|].
  - rewrite String.eqb_eq. split; congruence.
  - split; discriminate.
Qed.

Lemma externalIdIs_key (k : option string) (row : ChatUser) :
  externalIdIs k row = true -> externalId row = k.
Proof.
  destruct k as [k|]; [apply externalIdIs_spec|discriminate].
Qed.

Lemma externalIdIs_self (row : ChatUser) :
  externalId row <> None -> externalIdIs (externalId row) row = true.
Proof.
  unfold externalIdIs. destruct (externalId row);
    [intros _; apply String.eqb_refl|contradiction].
Qed.

Lemma sameChatSide_conflict (existing excluded : ChatUser) :
  sameChatSide existing (onConflictUpdate existing excluded).
Proof. repeat split. Qed.

Lemma sameSourceSide_conflict (existing excluded : ChatUser) :
  sameSourceSide excluded (onConflictUpdate existing excluded).
Proof. repeat split. Qed.

(** The keys of a table after an upsert: as before when the key was
    there, one more at the end otherwise. *)
Lemma keysOf_upsertRow (proposed : ChatUser) (table : list ChatUser) :
  keysOf (upsertRow proposed table)
  = match externalId proposed with
    | Some k => if existsb (String.eqb k) (keysOf table)
                then keysOf table else (keysOf table ++ [k])%list
    | None => keysOf table
    end.
Proof.
  unfold keysOf.
  induction table as [|row table IH]; cbn [upsertRow flat_map existsb].
  - destruct (externalId proposed); reflexivity.
  - unfold externalIdIs at 1.
    destruct (externalId proposed) as [k|] eqn:K.
    + destruct (externalId row) as [x|] eqn:X; cbn [app existsb].
      * destruct (String.eqb k x) eqn:E.
        -- cbn [flat_map onConflictUpdate externalId]. rewrite X.
           reflexivity.
        -- cbn [flat_map orb]. rewrite X, IH.
           destruct (existsb (String.eqb k) _); reflexivity.
      * cbn [flat_map]. rewrite X, IH. reflexivity.
    + cbn [flat_map]. rewrite IH. reflexivity.
Qed.

Lemma keysOf_deleteRows (userId : option string) (table : list ChatUser) :
  keysOf (deleteRows userId table)
  = match userId with
    | Some k => filter (fun x => negb (String.eqb k x)) (keysOf table)
    | None => keysOf table
    end.
Proof.
  unfold keysOf, deleteRows.
  induction table as [|row table IH]; cbn [filter flat_map].
  - destruct userId; reflexivity.
  - unfold externalIdIs at 1. destruct userId as [k|].
    + destruct (externalId row) as [x|] eqn:X.
      * cbn [app filter]. destruct (String.eqb k x); cbn [negb flat_map];
          rewrite ?X, IH; reflexivity.
      * cbn [negb flat_map app]. rewrite X, IH. reflexivity.
    + cbn [negb flat_map]. rewrite IH. reflexivity.
Qed.

Lemma existsb_eqb_in (k : string) (l : list string) :
  existsb (String.eqb k) l = false -> ~ In k l.
Proof.
  intros H C. assert (T : existsb (String.eqb k) l = true).
  { apply existsb_exists. exists k. split; [exact C|apply String.eqb_refl]. }
  congruence.
Qed.

Lemma NoDup_snoc {A : Type} (l : list A) (x : A) :
  NoDup l -> ~ In x l -> NoDup (l ++ [x]).
Proof.
  intros N H. induction N as [|y l Hy N IH]; cbn.
  - constructor; [intros []|constructor].
  - constructor.
    + intros C. apply in_app_or in C as [C|[C|[]]]; [contradiction|].
      subst. apply H. left. reflexivity.
    + apply IH. intros C. apply H. right. exact C.
Qed.

Lemma NoDup_filter {A : Type} (f : A -> bool) (l : list A) :
  NoDup l -> NoDup (filter f l).
Proof.
  intros N. induction N as [|y l Hy N IH]; cbn; [constructor|].
  destruct (f y); [|exact IH].
  constructor; [|exact IH]. intros C. apply filter_In in C as [C _].
  contradiction.
Qed.

(** X15.  The statements of the service keep the index on
    ["externalId"]: on a table in which no two rows share a non-null
    ["externalId"], neither the upsert, nor the delete, nor any sequence
    of journaled statements produces two such rows. *)
Theorem statements_keep_keys_unique :
  forall table : list ChatUser,
    keysUnique table ->
    (forall proposed, keysUnique (upsertRow proposed table))
    /\ (forall userId, keysUnique (deleteRows userId table))
    /\ (forall statements, keysUnique (replay statements table)).
Proof.
  assert (U : forall table proposed,
             keysUnique table -> keysUnique (upsertRow proposed table)).
  { intros table proposed N. unfold keysUnique in *.
    rewrite keysOf_upsertRow.
    destruct (externalId proposed) as [k|]; [|exact N].
    destruct (existsb (String.eqb k) (keysOf table)) eqn:E; [exact N|].
    apply NoDup_snoc; [exact N|apply existsb_eqb_in, E]. }
  intros table N. split; [intros proposed; apply U, N|]. split.
  - intros userId. unfold keysUnique in *. rewrite keysOf_deleteRows.
    destruct userId; [apply NoDup_filter, N|exact N].
  - intros statements. revert table N. unfold replay.
    induction statements as [|s l IH]; intros table N; cbn [fold_left];
      [exact N|].
    apply IH. destruct s; cbn [applyStatement]; [exact N|apply U, N|exact N].
Qed.

Lemma statements_keep_keys_unique_witness :
  keysUnique
    (upsertRow scenarioResult (upsertRow scenarioResult [])).
Proof.
  apply (statements_keep_keys_unique (upsertRow scenarioResult [])).
  repeat constructor. intros [].
Defined.

(** X16.  An upsert never removes a row and never writes the columns of
    the chat server: every row of the table is still there afterwards
    with its [id], ["externalId"], ["socketId"], ["isOnline"],
    ["lastSeen"] and ["createdAt"]; it is either untouched, or it is the
    row with the proposed ["externalId"] and then carries the proposed
    name, phone, email, role, avatar, ["updatedAt"], first and last
    name. *)
Theorem upsert_keeps_chat_columns :
  forall (proposed row : ChatUser) (table : list ChatUser),
    In row table ->
    exists row',
      In row' (upsertRow proposed table)
      /\ sameChatSide row row'
      /\ (row' = row
          \/ (externalId row = externalId proposed
              /\ externalId proposed <> None
              /\ sameSourceSide proposed row')).
Proof.
  intros proposed row table. induction table as [|x table IH];
    intros H; [contradiction|].
  cbn [upsertRow].
  destruct (externalIdIs (externalId proposed) x) eqn:E.
  - destruct H as [->|H].
    + exists (onConflictUpdate row proposed).
      split; [left; reflexivity|].
      split; [apply sameChatSide_conflict|]. right.
      split; [apply externalIdIs_key, E|].
      split; [|apply sameSourceSide_conflict].
      intros C. rewrite C in E. discriminate E.
    + exists row. split; [right; exact H|].
      split; [repeat split|left; reflexivity].
  - destruct H as [->|H].
    + exists row. split; [left; reflexivity|].
      split; [repeat split|left; reflexivity].
    + destruct (IH H) as (row' & I & S & C).
      exists row'. split; [right; exact I|]. auto.
Qed.

Lemma upsert_keeps_chat_columns_witness :
  exists row',
    In row' (upsertRow
               (mkChatUser (Some "x") (Some "abc123ef-0000-4000-8000-000000000000")
                  "New Name" "905550000000" None (VString "customer")
                  None false None None None None None None)
               [mkChatUser (Some "abc123ef-0000-4000-8000-000000000000")
                  (Some "abc123ef-0000-4000-8000-000000000000")
                  "User abc123ef" "9288156158" None (VString "usta")
                  (Some "socket-7") true (Some 5) None None None None None])
    /\ socketId row' = Some "socket-7" /\ isOnline row' = true.
Proof.
  destruct (upsert_keeps_chat_columns
              (mkChatUser (Some "x") (Some "abc123ef-0000-4000-8000-000000000000")
                 "New Name" "905550000000" None (VString "customer")
                 None false None None None None None None)
              (mkChatUser (Some "abc123ef-0000-4000-8000-000000000000")
                 (Some "abc123ef-0000-4000-8000-000000000000")
                 "User abc123ef" "9288156158" None (VString "usta")
                 (Some "socket-7") true (Some 5) None None None None None)
              [mkChatUser (Some "abc123ef-0000-4000-8000-000000000000")
                 (Some "abc123ef-0000-4000-8000-000000000000")
                 "User abc123ef" "9288156158" None (VString "usta")
                 (Some "socket-7") true (Some 5) None None None None None])
    as (row' & I & (_ & _ & S & O & _) & _).
  - left. reflexivity.
  - exists row'. cbn in S, O. auto.
Defined.

Lemma upsertRow_no_key (proposed : ChatUser) (table : list ChatUser) :
  externalId proposed = None ->
  upsertRow proposed table = (table ++ [proposed])%list.
Proof.
  intros K. induction table as [|x table IH]; cbn [upsertRow app];
    [reflexivity|].
  rewrite K. cbn [externalIdIs]. rewrite IH. reflexivity.
Qed.

Lemma onConflictUpdate_twice (existing excluded : ChatUser) :
  onConflictUpdate (onConflictUpdate existing excluded) excluded
  = onConflictUpdate existing excluded.
Proof. reflexivity. Qed.

Lemma onConflictUpdate_self (row : ChatUser) :
  onConflictUpdate row row = row.
Proof. destruct row. reflexivity. Qed.

(** X17.  Replaying a record is harmless: with an ["externalId"], a
    second upsert of the same row leaves the table as the first one left
    it.  Without one nothing conflicts, and every upsert adds a row. *)
Theorem upsert_is_idempotent :
  forall (proposed : ChatUser) (table : list ChatUser),
    match externalId proposed with
    | Some _ =>
        upsertRow proposed (upsertRow proposed table)
        = upsertRow proposed table
    | None =>
        upsertRow proposed (upsertRow proposed table)
        = (table ++ [proposed; proposed])%list
    end.
Proof.
  intros proposed table. destruct (externalId proposed) as [k|] eqn:K.
  - induction table as [|x table IH]; cbn [upsertRow].
    + rewrite externalIdIs_self by congruence.
      rewrite onConflictUpdate_self. reflexivity.
    + destruct (externalIdIs (externalId proposed) x) eqn:E;
        cbn [upsertRow].
      * assert (E' : externalIdIs (externalId proposed)
                       (onConflictUpdate x proposed) = true)
          by exact E.
        rewrite E', onConflictUpdate_twice. reflexivity.
      * rewrite E. f_equal. exact IH.
  - rewrite !upsertRow_no_key by exact K.
    rewrite <- app_assoc. reflexivity.
Qed.

(** A delete undoes an upsert that added a row. *)
Lemma deleteRows_upsertRow (proposed : ChatUser) (table : list ChatUser) :
  externalId proposed <> None ->
  deleteRows (externalId proposed) (upsertRow proposed table)
  = deleteRows (externalId proposed) table.
Proof.
  intros K. unfold deleteRows.
  induction table as [|x table IH]; cbn [upsertRow filter].
  - rewrite (externalIdIs_self proposed K). reflexivity.
  - destruct (externalIdIs (externalId proposed) x) eqn:E; cbn [filter].
    + assert (E' : externalIdIs (externalId proposed)
                     (onConflictUpdate x proposed) = true) by exact E.
      rewrite E'. reflexivity.
    + rewrite E. cbn [negb]. f_equal. exact IH.
Qed.

End TableProps.

(* ================================================================== *)
(** * The real-time path *)
(* ================================================================== *)

Module RealtimeProps.
Import JS Transformer Engine Spec Behaviour Realtime TableView.
Import TotalProps FailureProps TableProps.

(** *** Quiet failures *)

Lemma failedQuietly_refl (s : State) : failedQuietly s s.
Proof. repeat split. Qed.

Lemma failedQuietly_trans (a b c : State) :
  failedQuietly a b -> failedQuietly b c -> failedQuietly a c.
Proof.
  intros (S1 & J1 & T1) (S2 & J2 & T2). repeat split; congruence.
Qed.

Section Quiet.

Variable cfg : Config.
Variable A : Type.
Variable operation : M A.
Hypothesis fails_quietly :
  forall s t s', operation s = (Threw t, s') -> failedQuietly s s'.

(** Around an operation whose failures leave no trace, a run of the
    retry loop that fails leaves none either, and a run that succeeds
    leaves that of the one attempt that went through. *)
Lemma retryFrom_quiet (n : nat) :
  forall (k : Z) (last : thrown) (st : State),
    let r := retryFrom cfg operation n k last st in
    match result r with
    | Returned v =>
        exists s1 s2,
          failedQuietly st s1
          /\ operation s1 = (Returned v, s2)
          /\ final r = updStats (setConsecutiveFailures 0) s2
    | Threw _ => failedQuietly st (final r)
    | OutOfFuel => True
    end.
Proof.
  induction n as [|n IH]; intros k last st; cbn [retryFrom].
  - cbn. apply failedQuietly_refl.
  - set (st1 := if 0 <? k then snd (sleep (backoffDelay cfg k) st) else st).
    assert (Q1 : failedQuietly st st1).
    { unfold st1. destruct (0 <? k); repeat split. }
    destruct (operation st1) as [[v|[e|]|] s2] eqn:O; cbn [result final].
    + exists st1, s2. auto.
    + pose proof (fails_quietly _ _ _ O) as Q2.
      specialize (IH (k + 1) (ThrownError e) s2). cbv zeta in IH.
      destruct (result (retryFrom cfg operation n (k + 1) (ThrownError e)
                          s2)).
      * destruct IH as (s1 & s3 & Q3 & O3 & F). exists s1, s3.
        split; [|auto].
        eapply failedQuietly_trans; [exact Q1|].
        eapply failedQuietly_trans; eassumption.
      * eapply failedQuietly_trans; [exact Q1|].
        eapply failedQuietly_trans; eassumption.
      * exact I.
    + pose proof (fails_quietly _ _ _ O) as Q2.
      eapply failedQuietly_trans; eassumption.
    + exact I.
Qed.

End Quiet.

(** *** The journal and the table *)

Lemma journaledSince_app (a b : State) (l : list Statement) :
  journal (world b) = (journal (world a) ++ l)%list ->
  journaledSince a b = l.
Proof.
  intros E. unfold journaledSince. rewrite E.
  rewrite skipn_app, skipn_all, Nat.sub_diag. reflexivity.
Qed.

Lemma journaledSince_same (a b : State) :
  journal (world b) = journal (world a) -> journaledSince a b = [].
Proof.
  intros E. apply journaledSince_app. rewrite app_nil_r. exact E.
Qed.

Lemma logError_journal (errorType : string) (userId : option string)
    (e : error) (st : State) :
  exists st',
    logError errorType userId (ThrownError e) st = (Returned tt, st')
    /\ syncStats (svc st')
       = recordError (errorRecordOf (now (world st)) errorType userId e)
           (syncStats (svc st))
    /\ upsertsIn (journaledSince st st') = []
    /\ replay (journaledSince st st') = (fun table => table).
Proof.
  eexists. split; [apply logError_effect|].
  destruct (nextChatFault st).
  - split; [reflexivity|].
    rewrite journaledSince_same by reflexivity. split; reflexivity.
  - split; [reflexivity|].
    erewrite journaledSince_app by reflexivity. split; reflexivity.
Qed.

(** *** [upsertUser] *)

Lemma upsertUserOperation_cases (data : SourceUser) (st : State) :
  (exists c st',
      transformUserData data = Returned c
      /\ upsertUserOperation data st = (Returned tt, st')
      /\ journal (world st') = (journal (world st) ++ [ChatUpsert c])%list
      /\ syncStats (svc st') = countSynced (syncStats (svc st)))
  \/ (exists e st',
         upsertUserOperation data st = (Threw (ThrownError e), st')
         /\ failedQuietly st st').
Proof.
  unfold upsertUserOperation, bind, liftO, chatQuery, modify.
  destruct (transformUserData data) as [c|t|] eqn:T.
  - destruct (nextFault (chatFaults (world st))) as [[f|] rest].
    + right. eexists. eexists. split; [reflexivity|]. repeat split.
    + left. eexists. eexists. split; [reflexivity|].
      split; [reflexivity|]. split; reflexivity.
  - right. apply transformUserData_threw in T as [_ [->| ->]];
      eexists; eexists; (split; [reflexivity|]); repeat split.
  - exfalso. exact (transformUserData_total data T).
Qed.

Lemma upsertUserOperation_quiet (data : SourceUser) :
  forall s t s',
    upsertUserOperation data s = (Threw t, s') -> failedQuietly s s'.
Proof.
  intros s t s' E.
  destruct (upsertUserOperation_cases data s)
    as [(c & x & _ & E' & _)|(e & x & E' & Q)]; congruence.
Qed.

Lemma total_upsertUserOperation (data : SourceUser) :
  total (upsertUserOperation data).
Proof.
  intros st C.
  destruct (upsertUserOperation_cases data st)
    as [(c & x & _ & E & _)|(e & x & E & _)]; rewrite E in C;
    discriminate C.
Qed.

Lemma errors_upsertUserOperation (data : SourceUser) :
  throwsErrors (upsertUserOperation data).
Proof.
  intros st st' t E.
  destruct (upsertUserOperation_cases data st)
    as [(c & x & _ & E' & _)|(e & x & E' & _)]; [congruence|].
  exists e. congruence.
Qed.

(** What a retried operation throws, once it was attempted. *)
Lemma retry_throws_errors (cfg : Config) {A : Type} (operation : M A)
    (st st' : State) (t : thrown) :
  0 <= maxRetries (retryConfig cfg) ->
  throwsErrors operation ->
  retryWithBackoff cfg operation st = (Threw t, st') ->
  exists e, t = ThrownError e.
Proof.
  intros Hr He E. unfold retryWithBackoff, retryRun in E.
  injection E as E _.
  destruct (RetryProps.retryFrom_threw cfg A operation _ _ _ _ _ E)
    as [[_ [[C _]|(e & s1 & -> & O)]]|(-> & _)]; [lia|eauto|].
  unfold messageOfUndefined, typeError. eauto.
Qed.

Lemma upsertUser_cases (cfg : Config) (data : SourceUser) (st : State) :
  0 <= maxRetries (retryConfig cfg) ->
  (exists c st',
      transformUserData data = Returned c
      /\ upsertUser cfg data st = (Returned tt, st')
      /\ journaledSince st st' = [ChatUpsert c]
      /\ syncStats (svc st')
         = setConsecutiveFailures 0 (countSynced (syncStats (svc st))))
  \/ (exists e st' at_,
         upsertUser cfg data st = (Threw (ThrownError e), st')
         /\ upsertsIn (journaledSince st st') = []
         /\ replay (journaledSince st st') = (fun table => table)
         /\ syncStats (svc st')
            = recordError
                (errorRecordOf at_ "UPSERT_USER_FAILED" (id data) e)
                (syncStats (svc st))).
Proof.
  intros Hr. unfold upsertUser, tryCatch.
  pose proof (retryFrom_quiet cfg unit (upsertUserOperation data)
                (upsertUserOperation_quiet data)
                (Z.to_nat (maxRetries (retryConfig cfg) + 1)) 0
                ThrownUndefined st) as Q.
  cbv zeta in Q.
  destruct (retryWithBackoff cfg (upsertUserOperation data) st)
    as [[[]|t|] s1] eqn:E.
  - left. unfold retryWithBackoff, retryRun in E.
    injection E as E1 E2. rewrite E1 in Q.
    destruct Q as (a & b & (Sa & Ja & _) & O & F).
    destruct (upsertUserOperation_cases data a)
      as [(c & x & T & O' & J & S)|(e & x & O' & _)]; [|congruence].
    assert (x = b) by congruence. subst x.
    exists c, s1. split; [exact T|]. split; [reflexivity|].
    rewrite <- E2, F. cbn [updStats world svc syncStats].
    split.
    + apply journaledSince_app. cbn [updStats world].
      rewrite J, Ja. reflexivity.
    + rewrite S, Sa. reflexivity.
  - right. destruct (retry_throws_errors cfg _ _ _ _ Hr
                       (errors_upsertUserOperation data) E) as [e ->].
    unfold retryWithBackoff, retryRun in E.
    injection E as E1 E2. rewrite E1 in Q. rewrite E2 in Q.
    destruct Q as (S1 & J1 & _).
    unfold bind.
    destruct (logError_journal "UPSERT_USER_FAILED" (id data) e s1)
      as (s2 & L & S2 & U & R).
    rewrite L. exists e, s2, (now (world s1)).
    split; [reflexivity|].
    assert (JJ : journaledSince st s2 = journaledSince s1 s2).
    { unfold journaledSince. rewrite J1. reflexivity. }
    rewrite JJ, S2, S1. auto.
  - exfalso.
    apply (total_retryWithBackoff cfg _ (total_upsertUserOperation data) st).
    rewrite E. reflexivity.
Qed.

(** X18.  [upsertUser], followed down to the table.  It either returns,
    and then the table has taken exactly one upsert of the transformed
    record, [totalSynced] has grown by one and [consecutiveFailures] is
    0; or it throws an [Error], and then the table is as it was,
    [UPSERT_USER_FAILED] is the last error logged, [errors] has grown by
    one and [totalSynced] has not moved. *)
Theorem upsertUser_writes_or_reports :
  forall (cfg : Config) (userData : SourceUser) (d : Desk),
    0 <= maxRetries (retryConfig cfg) ->
    let stats := syncStats (svc (engine d)) in
    match onTable (upsertUser cfg userData) d with
    | (Returned _, d') =>
        exists transformedUser,
          transformUserData userData = Returned transformedUser
          /\ chatUsers d' = upsertRow transformedUser (chatUsers d)
          /\ totalSynced (syncStats (svc (engine d')))
             = totalSynced stats + 1
          /\ errors (syncStats (svc (engine d'))) = errors stats
          /\ failuresOf (engine d') = 0
    | (Threw t, d') =>
        chatUsers d' = chatUsers d
        /\ totalSynced (syncStats (svc (engine d'))) = totalSynced stats
        /\ errors (syncStats (svc (engine d'))) = errors stats + 1
        /\ exists (e : error) (at_ : Z),
            t = ThrownError e
            /\ lastError (syncStats (svc (engine d')))
               = Some (errorRecordOf at_ "UPSERT_USER_FAILED"
                         (id userData) e)
    | (OutOfFuel, _) => False
    end.
Proof.
  intros cfg data d Hr stats. unfold onTable.
  destruct (upsertUser_cases cfg data (engine d) Hr)
    as [(c & st' & T & E & J & S)|(e & st' & ts & E & _ & R & S)];
    rewrite E; cbn [engine chatUsers].
  - exists c. unfold failuresOf. rewrite J, S. repeat split; auto.
  - rewrite R, S. repeat split. exists e, ts. split; reflexivity.
Qed.

Lemma upsertUser_writes_or_reports_witness :
  chatUsers
    (snd (onTable (upsertUser defaultConfig scenarioUser)
            (mkDesk freshState [])))
  = [scenarioResult].
Proof.
  pose proof (upsertUser_writes_or_reports defaultConfig scenarioUser
                (mkDesk freshState []) ltac:(cbn; lia)) as H.
  cbv zeta in H.
  destruct (onTable (upsertUser defaultConfig scenarioUser)
              (mkDesk freshState [])) as [[[]|t|] d'] eqn:E.
  - destruct H as (c & T & U & _). cbn [snd]. rewrite U.
    assert (c = scenarioResult).
    { change (transformUserData scenarioUser)
        with (Returned scenarioResult) in T.
      congruence. }
    subst c. reflexivity.
  - exfalso. apply (f_equal fst) in E. vm_compute in E. discriminate E.
  - contradiction.
Defined.

(** *** [deleteUserFromChat] *)

Lemma chatCall_quiet (s s' : State) (o : outcome unit) :
  chatCall s = (o, s') -> failedQuietly s s'.
Proof.
  unfold chatCall.
  destruct (nextFault (chatFaults (world s))) as [[f|] rest];
    intros E; injection E as _ <-; repeat split.
Qed.

Lemma total_chatCall : total chatCall.
Proof.
  intros st. unfold chatCall.
  destruct (nextFault (chatFaults (world st))) as [[f|] rest]; discriminate.
Qed.

Lemma errors_chatCall : throwsErrors chatCall.
Proof.
  intros st st' t. unfold chatCall.
  destruct (nextFault (chatFaults (world st))) as [[f|] rest]; intros H;
    [injection H as <- _; eauto|discriminate H].
Qed.

(** The retried DELETE: it goes through, or it fails with an [Error];
    either way the journal is as before. *)
Lemma retry_chatCall (cfg : Config) (st : State) :
  0 <= maxRetries (retryConfig cfg) ->
  exists st',
    journal (world st') = journal (world st)
    /\ ((retryWithBackoff cfg chatCall st = (Returned tt, st')
         /\ syncStats (svc st')
            = setConsecutiveFailures 0 (syncStats (svc st)))
        \/ (exists e,
               retryWithBackoff cfg chatCall st = (Threw (ThrownError e), st')
               /\ syncStats (svc st') = syncStats (svc st))).
Proof.
  intros Hr.
  pose proof (retryFrom_quiet cfg unit chatCall
                (fun s t s' => chatCall_quiet s s' (Threw t))
                (Z.to_nat (maxRetries (retryConfig cfg) + 1)) 0
                ThrownUndefined st) as Q.
  cbv zeta in Q.
  destruct (retryWithBackoff cfg chatCall st) as [[[]|t|] s1] eqn:E.
  - exists s1. unfold retryWithBackoff, retryRun in E.
    injection E as E1 E2. rewrite E1 in Q.
    destruct Q as (a & b & (Sa & Ja & _) & O & F).
    destruct (chatCall_quiet _ _ _ O) as (Sb & Jb & _).
    rewrite <- E2, F. cbn [updStats world svc syncStats].
    split; [congruence|]. left. split; [reflexivity|]. congruence.
  - destruct (retry_throws_errors cfg _ _ _ _ Hr errors_chatCall E)
      as [e ->].
    exists s1. unfold retryWithBackoff, retryRun in E.
    injection E as E1 E2. rewrite E1, E2 in Q.
    destruct Q as (S1 & J1 & _).
    split; [exact J1|]. right. exists e. split; [reflexivity|].
    congruence.
  - exfalso. apply (total_retryWithBackoff cfg _ total_chatCall st).
    rewrite E. reflexivity.
Qed.

Lemma deleteUserFromChat_cases (cfg : Config) (userId : option string)
    (d : Desk) :
  0 <= maxRetries (retryConfig cfg) ->
  exists st',
    (deleteUserFromChat cfg userId d
     = (Returned tt, mkDesk st' (deleteRows userId (chatUsers d)))
     /\ syncStats (svc st')
        = setConsecutiveFailures 0 (syncStats (svc (engine d))))
    \/ (deleteUserFromChat cfg userId d
        = (Returned tt, mkDesk st' (chatUsers d))
        /\ exists (e : error) (at_ : Z),
            syncStats (svc st')
            = recordError (errorRecordOf at_ "DELETE_USER_FAILED" userId e)
                (syncStats (svc (engine d)))).
Proof.
  intros Hr.
  destruct (retry_chatCall cfg (engine d) Hr)
    as (s1 & J & [[E S]|(e & E & S)]).
  - exists s1. left. split; [|exact S].
    unfold deleteUserFromChat, tryCatchT, bindT, onTable.
    rewrite E, (journaledSince_same _ _ J). reflexivity.
  - destruct (logError_journal "DELETE_USER_FAILED" userId e s1)
      as (s2 & L & S2 & _ & R).
    exists s2. right. split.
    + unfold deleteUserFromChat, tryCatchT, bindT, onTable.
      rewrite E, (journaledSince_same _ _ J).
      cbn [engine chatUsers replay fold_left]. rewrite L, R. reflexivity.
    + exists e, (now (world s1)). rewrite S2, S. reflexivity.
Qed.

(** X19.  [deleteUserFromChat] never throws ([maxRetries] not negative).
    Either the DELETE went through: no row with that ["externalId"] is
    left, the other rows are as they were, and [consecutiveFailures] is
    0; or it failed at every attempt: the table is as it was, and the
    failure is only logged, as [DELETE_USER_FAILED].  Without an id
    (null), the DELETE removes nothing. *)
Theorem deleteUserFromChat_never_throws :
  forall (cfg : Config) (userId : option string) (d : Desk),
    0 <= maxRetries (retryConfig cfg) ->
    exists d',
      deleteUserFromChat cfg userId d = (Returned tt, d')
      /\ ((chatUsers d' = deleteRows userId (chatUsers d)
           /\ (forall row, In row (chatUsers d') <->
                             In row (chatUsers d)
                             /\ externalId row <> userId \/
                             In row (chatUsers d) /\ userId = None)
           /\ failuresOf (engine d') = 0
           /\ errors (syncStats (svc (engine d')))
              = errors (syncStats (svc (engine d))))
          \/ (chatUsers d' = chatUsers d
              /\ errors (syncStats (svc (engine d')))
                 = errors (syncStats (svc (engine d))) + 1
              /\ exists (e : error) (at_ : Z),
                  lastError (syncStats (svc (engine d')))
                  = Some (errorRecordOf at_ "DELETE_USER_FAILED" userId e))).
Proof.
  intros cfg userId d Hr.
  destruct (deleteUserFromChat_cases cfg userId d Hr)
    as (st' & [[E S]|(E & e & ts & S)]); rewrite E; eexists;
    (split; [reflexivity|]); cbn [engine chatUsers].
  - left. unfold failuresOf. rewrite S. split; [reflexivity|].
    split; [|split; reflexivity].
    intros row. unfold deleteRows. rewrite filter_In, negb_true_iff.
    destruct userId as [k|].
    + split.
      * intros [I N]. left. split; [exact I|].
        intros C. apply externalIdIs_spec in C. congruence.
      * intros [[I N]|[_ C]]; [|discriminate C].
        split; [exact I|].
        destruct (externalIdIs (Some k) row) eqn:X; [|reflexivity].
        apply externalIdIs_spec in X. contradiction.
    + split.
      * intros [I _]. right. auto.
      * intros [[I _]|[I _]]; auto.
  - right. rewrite S. split; [reflexivity|]. split; [reflexivity|].
    exists e, ts. reflexivity.
Qed.

Lemma deleteUserFromChat_never_throws_witness :
  exists d',
    deleteUserFromChat defaultConfig
      (Some "abc123ef-0000-4000-8000-000000000000")
      (mkDesk freshState [scenarioResult])
    = (Returned tt, d')
    /\ chatUsers d' = [].
Proof.
  destruct (deleteUserFromChat_never_throws defaultConfig
              (Some "abc123ef-0000-4000-8000-000000000000")
              (mkDesk freshState [scenarioResult]) ltac:(cbn; lia))
    as (d' & E & _).
  exists d'. split; [exact E|].
  apply (f_equal snd) in E. cbn [snd] in E. subst d'. reflexivity.
Defined.

(** *** The handler of notifications *)

Lemma sameChatSide_trans (a b c : ChatUser) :
  sameChatSide a b -> sameChatSide b c -> sameChatSide a c.
Proof.
  intros (A1 & A2 & A3 & A4 & A5 & A6) (B1 & B2 & B3 & B4 & B5 & B6).
  repeat split; congruence.
Qed.

Lemma upsertRow_keeps_rows (proposed row : ChatUser)
    (table : list ChatUser) :
  In row table ->
  exists row', In row' (upsertRow proposed table) /\ sameChatSide row row'.
Proof.
  induction table as [|x table IH]; intros H; [contradiction|].
  cbn [upsertRow].
  destruct (externalIdIs (externalId proposed) x), H as [->|H].
  - eexists. split; [left; reflexivity|apply sameChatSide_conflict].
  - exists row. split; [right; exact H|repeat split].
  - exists row. split; [left; reflexivity|repeat split].
  - destruct (IH H) as (row' & I & S). exists row'.
    split; [right; exact I|exact S].
Qed.

(** No sequence of journaled statements removes a row or writes its
    chat-side columns. *)
Lemma replay_keeps_rows (l : list Statement) :
  forall (table : list ChatUser) (row : ChatUser),
    In row table ->
    exists row', In row' (replay l table) /\ sameChatSide row row'.
Proof.
  unfold replay. induction l as [|s l IH]; intros table row H;
    cbn [fold_left].
  - exists row. split; [exact H|repeat split].
  - assert (K : exists r, In r (applyStatement table s)
                          /\ sameChatSide row r).
    { destruct s; cbn [applyStatement];
        try (exists row; split; [exact H|repeat split]).
      apply upsertRow_keeps_rows, H. }
    destruct K as (r & I & S).
    destruct (IH _ r I) as (row' & I' & S').
    exists row'. split; [exact I'|].
    eapply sameChatSide_trans; eassumption.
Qed.

(** X20.  A notification that cannot be handled is not logged by the
    handler: its [catch] block throws a ReferenceError ([payload] is not
    in scope there) instead of logging [REALTIME_NOTIFICATION_FAILED],
    and the handler's promise rejects.  That happens on text that is no
    JSON and on [null], with the state exactly as it was, and on an
    active row that [upsertUser] gave up on, logging
    [UPSERT_USER_FAILED]; never on a DELETE.  The table is as it was. *)
Theorem notification_failure_escapes :
  forall (cfg : Config) (payload : Payload) (d d' : Desk) (t : thrown),
    0 <= maxRetries (retryConfig cfg) ->
    onNotification cfg payload d = (Threw t, d') ->
    t = referenceError "payload"
    /\ chatUsers d' = chatUsers d
    /\ match payload with
       | NotJson _ => d' = d
       | JsonNull => d' = d
       | Deleted _ => False
       | Changed None => False
       | Changed (Some data) =>
           isActive data = true
           /\ exists (e : error) (at_ : Z),
               lastError (syncStats (svc (engine d')))
               = Some (errorRecordOf at_ "UPSERT_USER_FAILED" (id data) e)
       end.
Proof.
  intros cfg payload d d' t Hr E.
  unfold onNotification, tryCatchT in E.
  destruct payload as [e| |userId|[data|]].
  - cbn in E. injection E as <- <-. auto.
  - cbn in E. injection E as <- <-. auto.
  - destruct (deleteUserFromChat_cases cfg userId d Hr)
      as (st' & [[E' _]|[E' _]]); rewrite E' in E; discriminate E.
  - destruct (isActive data) eqn:Act; [|discriminate E].
    unfold onTable in E.
    destruct (upsertUser_cases cfg data (engine d) Hr)
      as [(c & st' & _ & E' & _)|(e & st' & ts & E' & _ & R & S)];
      rewrite E' in E; [discriminate E|].
    unfold throwT in E. injection E as <- <-.
    cbn [engine chatUsers]. rewrite R, S.
    split; [reflexivity|]. split; [reflexivity|].
    split; [reflexivity|]. exists e, ts. reflexivity.
  - discriminate E.
Qed.

Lemma notification_failure_escapes_witness :
  fst (onNotification defaultConfig (Changed (Some scenarioUser))
         (mkDesk (updWorld (setChatFaults
                              [Some boom; Some boom; Some boom; Some boom])
                           freshState) []))
  = Threw (referenceError "payload").
Proof.
  destruct (onNotification defaultConfig (Changed (Some scenarioUser))
              (mkDesk (updWorld (setChatFaults
                                   [Some boom; Some boom; Some boom;
                                    Some boom])
                                freshState) []))
    as [o d'] eqn:E.
  destruct o as [u|t|].
  - apply (f_equal fst) in E. vm_compute in E. discriminate E.
  - destruct (notification_failure_escapes defaultConfig _ _ _ _
                ltac:(cbn; lia) E) as [-> _].
    reflexivity.
  - apply (f_equal fst) in E. vm_compute in E. discriminate E.
Defined.

(** X21.  Only a DELETE removes a row.  Whatever else is notified, and
    whatever the databases do, every row of the table is still there
    after the handler ran, with its [id], ["externalId"], ["socketId"],
    ["isOnline"], ["lastSeen"] and ["createdAt"]; and the notification of
    a row that is not active (a user suspended or deactivated, say)
    changes nothing at all: the row it had in the chat table stays. *)
Theorem only_delete_removes_rows :
  forall (cfg : Config) (payload : Payload) (d : Desk),
    (forall userId, payload <> Deleted userId) ->
    (forall row,
        In row (chatUsers d) ->
        exists row',
          In row' (chatUsers (snd (onNotification cfg payload d)))
          /\ sameChatSide row row')
    /\ (forall data,
           payload = Changed (Some data) -> isActive data = false ->
           onNotification cfg payload d = (Returned tt, d)).
Proof.
  intros cfg payload d Hnd. split.
  - intros row H. unfold onNotification, tryCatchT.
    destruct payload as [e| |userId|[data|]];
      try (exists row; split; [exact H|repeat split]).
    + exfalso. apply (Hnd userId). reflexivity.
    + destruct (isActive data);
        [|exists row; split; [exact H|repeat split]].
      unfold onTable.
      destruct (upsertUser cfg data (engine d)) as [[u|t|] st'];
        cbn [snd throwT chatUsers]; apply replay_keeps_rows, H.
  - intros data -> Act. unfold onNotification, tryCatchT.
    rewrite Act. reflexivity.
Qed.

Lemma only_delete_removes_rows_witness :
  onNotification defaultConfig
    (Changed (Some (mkSourceUser (Some "0d000000-0000-4000-8000-000000000004")
                      (Some "Dee") None None None None None
                      (Some "suspended") None None (Some 990000))))
    (mkDesk freshState [scenarioResult])
  = (Returned tt, mkDesk freshState [scenarioResult]).
Proof.
  destruct (only_delete_removes_rows defaultConfig
              (Changed (Some (mkSourceUser
                                (Some "0d000000-0000-4000-8000-000000000004")
                                (Some "Dee") None None None None None
                                (Some "suspended") None None (Some 990000))))
              (mkDesk freshState [scenarioResult])) as [_ H].
  - intros userId. discriminate.
  - apply (H (mkSourceUser (Some "0d000000-0000-4000-8000-000000000004")
                (Some "Dee") None None None None None
                (Some "suspended") None None (Some 990000)));
      reflexivity.
Defined.

End RealtimeProps.

(* ================================================================== *)
(** * Settings, verification, the full run and [setup] *)
(* ================================================================== *)

Module LifecycleProps.
Import JS Transformer Engine EventLoop Spec Behaviour Realtime TableView.
Import Lifecycle.
Import FrameProps TotalProps FailureProps RealtimeProps.

(** *** Settings *)

Lemma orDefault_cases (x : number) (fallback : Z) :
  (orDefault x fallback = fallback /\ (x = NaN \/ x = Num 0))
  \/ (exists z, x = Num z /\ z <> 0 /\ orDefault x fallback = z).
Proof.
  destruct x as [|z]; cbn [orDefault]; [left; auto|].
  destruct (Z.eqb_spec z 0) as [->|N]; [left; auto|].
  right. exists z. auto.
Qed.

(** X22.  No setting of the constructor can be 0: a variable that is
    not set, that does not start with a number, or that reads 0 gives
    the default, since [parseInt(...) || default] takes 0 for missing;
    any other number is taken as it is, a negative one too.  So
    [MAX_RETRIES=0] gives 3 retries and [MAX_RETRIES=-1] gives -1; and
    without any variable the settings are the defaults. *)
Theorem settings_are_never_zero :
  forall (env : Env) (backoffMultiplier : Z),
    let c := configure env backoffMultiplier in
    (maxRetries (retryConfig c) <> 0
     /\ initialDelayMs (retryConfig c) <> 0
     /\ maxDelayMs (retryConfig c) <> 0
     /\ maxReconnectAttempts c <> 0
     /\ syncIntervalMinutes c <> 0
     /\ syncWindowMultiplier c <> 0)
    /\ (forall (name : string) (fallback : Z),
           intSetting env name fallback = fallback
           \/ exists v z,
               env name = Some v /\ parseInt v = Num z /\ z <> 0
               /\ intSetting env name fallback = z)
    /\ configure (fun _ => None) 2 = defaultConfig
    /\ intSetting (fun _ => Some "0") "MAX_RETRIES" 3 = 3
    /\ intSetting (fun _ => Some "-1") "MAX_RETRIES" 3 = -1.
Proof.
  intros env m c.
  assert (S : forall name fallback,
             intSetting env name fallback = fallback
             \/ exists v z,
                 env name = Some v /\ parseInt v = Num z /\ z <> 0
                 /\ intSetting env name fallback = z).
  { intros name fallback. unfold intSetting.
    destruct (env name) as [v|]; [|left; reflexivity].
    destruct (orDefault_cases (parseInt v) fallback)
      as [[E _]|(z & P & N & E)]; [left; exact E|].
    right. exists v, z. auto. }
  assert (N : forall name fallback,
             fallback <> 0 -> intSetting env name fallback <> 0).
  { intros name fallback F.
    destruct (S name fallback) as [->|(v & z & _ & _ & Z0 & ->)];
      assumption. }
  split; [|split; [exact S|repeat split]].
  subst c. cbn. repeat split; apply N; discriminate.
Qed.

(** *** [verifySyncStatus] *)

(** Only the fault scripts, the journal and the statistics moved. *)
Lemma bothPools_effect (st : State) :
  exists (o : outcome unit) (st' : State),
    bothPools st = (o, st')
    /\ o <> OutOfFuel
    /\ (forall t, o = Threw t -> exists e, t = ThrownError e)
    /\ svc st' = svc st
    /\ journal (world st') = journal (world st)
    /\ now (world st') = now (world st)
    /\ sourceUsers (world st') = sourceUsers (world st)
    /\ timers (world st') = timers (world st).
Proof.
  unfold bothPools, sourceCall, chatCall.
  destruct (nextFault (sourceFaults (world st))) as [[sf|] srest];
    cbn [updWorld world setSourceFaults chatFaults];
    destruct (nextFault (chatFaults (world st))) as [[cf|] crest];
    eexists; eexists; (split; [reflexivity|]);
    (split; [discriminate|]);
    (split; [intros t E; try discriminate E; injection E as <-; eauto|]);
    repeat split.
Qed.

Lemma reportOf_same (a b : Desk) :
  chatUsers b = chatUsers a ->
  now (world (engine b)) = now (world (engine a)) ->
  sourceUsers (world (engine b)) = sourceUsers (world (engine a)) ->
  reportOf b = reportOf a.
Proof.
  intros C N S. unfold reportOf. rewrite C, N, S. reflexivity.
Qed.

Lemma verifySyncStatus_cases (d : Desk) :
  (exists st',
      verifySyncStatus d
      = (Returned (Verified (reportOf d)), mkDesk st' (chatUsers d))
      /\ svc st' = svc (engine d)
      /\ timers (world st') = timers (world (engine d)))
  \/ (exists st' e at_,
         verifySyncStatus d
         = (Returned (VerificationError (message e)),
            mkDesk st' (chatUsers d))
         /\ syncStats (svc st')
            = recordError (errorRecordOf at_ "VERIFICATION_FAILED" None e)
                (syncStats (svc (engine d)))
         /\ isListening (svc st') = isListening (svc (engine d))
         /\ scheduledSyncTimeout (svc st')
            = scheduledSyncTimeout (svc (engine d))
         /\ timers (world st') = timers (world (engine d))).
Proof.
  assert (Fail : forall st e,
             svc st = svc (engine d) ->
             timers (world st) = timers (world (engine d)) ->
             exists st' at_,
               bindT (onTable (logError "VERIFICATION_FAILED" None
                                 (ThrownError e)))
                     (fun _ => retT (VerificationError (message e)))
                     (mkDesk st (chatUsers d))
               = (Returned (VerificationError (message e)),
                  mkDesk st' (chatUsers d))
               /\ syncStats (svc st')
                  = recordError
                      (errorRecordOf at_ "VERIFICATION_FAILED" None e)
                      (syncStats (svc (engine d)))
               /\ isListening (svc st') = isListening (svc (engine d))
               /\ scheduledSyncTimeout (svc st')
                  = scheduledSyncTimeout (svc (engine d))
               /\ timers (world st') = timers (world (engine d))).
  { intros st e Hs Ht. unfold bindT, onTable. cbn [engine chatUsers].
    destruct (logError_journal "VERIFICATION_FAILED" None e st)
      as (s2 & L & S2 & _ & R).
    rewrite L, R. exists s2, (now (world st)).
    split; [reflexivity|]. rewrite S2, Hs. split; [reflexivity|].
    rewrite logError_effect in L. injection L as <-.
    destruct (nextChatFault st); cbn; rewrite ?Hs, ?Ht; repeat split. }
  destruct (verifySyncStatus d) as [o d'] eqn:V.
  unfold verifySyncStatus, tryCatchT in V. unfold bindT at 1 in V.
  unfold onTable at 1 in V.
  destruct (bothPools_effect (engine d))
    as (o1 & s1 & E1 & T1 & X1 & S1 & J1 & N1 & U1 & M1).
  rewrite E1, (journaledSince_same _ _ J1) in V.
  cbn [replay fold_left] in V.
  destruct o1 as [[]|t|]; [| |contradiction].
  2:{ destruct (X1 t eq_refl) as [e ->]. right.
      destruct (Fail s1 e S1 M1) as (st' & ts & E & R).
      exists st', e, ts. split; [|exact R]. rewrite <- V. exact E. }
  unfold bindT at 1 in V. unfold onTable at 1 in V.
  cbn [engine chatUsers] in V.
  destruct (bothPools_effect s1)
    as (o2 & s2 & E2 & T2 & X2 & S2 & J2 & N2 & U2 & M2).
  rewrite E2, (journaledSince_same _ _ J2) in V.
  cbn [replay fold_left] in V.
  destruct o2 as [[]|t|]; [| |contradiction].
  - left. exists s2. split; [|split; congruence].
    rewrite <- V. f_equal. f_equal. f_equal.
    apply reportOf_same; cbn [engine chatUsers]; congruence.
  - destruct (X2 t eq_refl) as [e ->]. right.
    destruct (Fail s2 e) as (st' & ts & E & R); [congruence|congruence|].
    exists st', e, ts. split; [|exact R]. rewrite <- V. exact E.
Qed.

(** X23.  [verifySyncStatus] never throws and never writes to the
    [users] table.  When its four queries go through it reports the
    number of active source rows, the number of chat rows and their
    absolute difference, [consistent] exactly when that difference is at
    most 5, and leaves the statistics alone.  When a query fails it
    returns [{error: message}] and the failure counts as any other:
    [VERIFICATION_FAILED] is logged, [errors] and [consecutiveFailures]
    grow by one. *)
Theorem verifySyncStatus_reports_or_logs :
  forall d : Desk,
    exists (d' : Desk) (v : Verification),
      verifySyncStatus d = (Returned v, d')
      /\ chatUsers d' = chatUsers d
      /\ match v with
         | Verified report =>
             syncStats (svc (engine d')) = syncStats (svc (engine d))
             /\ sourceCount report
                = countIf isActive (sourceUsers (world (engine d)))
             /\ chatCount report = Z.of_nat (List.length (chatUsers d))
             /\ difference report
                = Z.abs (sourceCount report - chatCount report)
             /\ (consistent report = true
                 <-> - 5 <= sourceCount report - chatCount report <= 5)
         | VerificationError message' =>
             errors (syncStats (svc (engine d')))
             = errors (syncStats (svc (engine d))) + 1
             /\ failuresOf (engine d') = failuresOf (engine d) + 1
             /\ exists (e : error) (at_ : Z),
                 message' = message e
                 /\ lastError (syncStats (svc (engine d')))
                    = Some (errorRecordOf at_ "VERIFICATION_FAILED" None e)
         end.
Proof.
  intros d.
  destruct (verifySyncStatus_cases d)
    as [(st' & E & S & _)|(st' & e & ts & E & S & _)];
    rewrite E; eexists; eexists; (split; [reflexivity|]);
    (split; [reflexivity|]); cbn [engine].
  - rewrite S. split; [reflexivity|]. split; [reflexivity|].
    split; [reflexivity|]. split; [reflexivity|].
    cbn [consistent reportOf sourceCount chatCount].
    rewrite Z.leb_le. lia.
  - unfold failuresOf. rewrite S. repeat split.
    exists e, ts. split; reflexivity.
Qed.

(** *** [setup] *)

Lemma initialPages_total (cfg : Config) (limit : nat) :
  forall (fuel offset : nat) (st : State),
    (List.length
       (orderByUpdatedAtDesc
          (filter (whereClause None) (sourceUsers (world st))))
     - offset < fuel * limit)%nat ->
    fst (initialPages cfg fuel limit offset st) <> OutOfFuel.
Proof.
  induction fuel as [|fuel IH]; intros offset st Hfuel; [lia|].
  cbn [initialPages]. unfold bind.
  pose proof (total_bulkSyncUsers cfg limit offset None st) as T.
  pose proof (keeps_bulkSyncUsers (R := sameFlag) cfg limit offset
                None st) as [_ K].
  destruct (bulkSyncUsers cfg limit offset None st)
    as [[[|]|t|] st1] eqn:B; cbn [fst snd] in *;
    try discriminate; try contradiction.
  destruct (bulkSyncUsers_hasMore _ _ _ _ _ _ B) as [L N].
  unfold selectPage in L.
  rewrite length_firstn, length_skipn, orderByUpdatedAtDesc_length,
    selected_length in L.
  apply IH. rewrite K. rewrite orderByUpdatedAtDesc_length in *. lia.
Qed.

Lemma errors_initialPages (cfg : Config) (limit : nat) :
  forall fuel offset, throwsErrors (initialPages cfg fuel limit offset).
Proof.
  induction fuel as [|fuel IH]; intros offset; cbn [initialPages].
  - apply errors_outOfFuel.
  - apply errors_bind; [apply errors_bulkSyncUsers|].
    intros [|]; [apply IH|apply errors_ret].
Qed.

Lemma initial_sync_settles (cfg : Config) (st : State) :
  exists o st',
    bind (gets allFuel) (fun fuel => initialPages cfg fuel 1000 0) st
    = (o, st')
    /\ o <> OutOfFuel
    /\ (forall t, o = Threw t -> exists e, t = ThrownError e).
Proof.
  unfold bind at 1, gets.
  pose proof (initialPages_total cfg 1000 (allFuel st) 0 st) as T.
  pose proof (errors_initialPages cfg 1000 (allFuel st) 0 st) as X.
  destruct (initialPages cfg (allFuel st) 1000 0 st) as [o st'].
  exists o, st'. split; [reflexivity|]. split.
  - apply T. rewrite orderByUpdatedAtDesc_length. unfold allFuel.
    pose proof (filter_length_le (whereClause None)
                  (sourceUsers (world st))). lia.
  - intros t ->. eapply X. reflexivity.
Qed.

Lemma attemptRealtimeReconnection_returns (cfg : Config) (st : State) :
  exists st', attemptRealtimeReconnection cfg st = (Returned tt, st').
Proof.
  unfold attemptRealtimeReconnection, bind, gets, modify, setTimeout, ret.
  destruct (maxReconnectAttempts cfg <=? realtimeReconnectAttempts (svc st));
    eexists; reflexivity.
Qed.

(** A start of the listener returns with the listener listening, or
    throws an [Error]. *)
Lemma startRealTimeSync_cases (cfg : Config) (st : State) :
  exists st',
    (startRealTimeSync cfg st = (Returned tt, st')
     /\ isListening (svc st') = true)
    \/ exists e, startRealTimeSync cfg st = (Threw (ThrownError e), st').
Proof.
  destruct (startRealTimeSync cfg st) as [o st'] eqn:E. exists st'.
  destruct (isListening (svc st)) eqn:L.
  - left. unfold startRealTimeSync, bind at 1, gets at 1 in E.
    rewrite L in E. injection E as <- <-. auto.
  - destruct o as [[]|t|].
    + left. split; [reflexivity|].
      apply (ListenerProps.startRealTimeSync_resets cfg st st' L E).
    + right. unfold startRealTimeSync, bind at 1, gets at 1 in E.
      rewrite L in E. unfold tryCatch in E.
      destruct (connectAndListen st) as [[[]|t0|] s1] eqn:C;
        try discriminate E.
      destruct (ReconnectProps.errors_connectAndListen _ _ _ C) as [e ->].
      unfold bind at 1 in E. rewrite logError_effect in E.
      unfold bind at 1 in E.
      match type of E with
      | context [attemptRealtimeReconnection cfg ?x] =>
          destruct (attemptRealtimeReconnection_returns cfg x) as (s3 & A)
      end.
      rewrite A in E. unfold throw in E. injection E as <- _.
      exists e. reflexivity.
    + exfalso. unfold startRealTimeSync, bind at 1, gets at 1 in E.
      rewrite L in E. unfold tryCatch in E.
      pose proof (ListenerProps.connects_body st) as C.
      destruct (connectAndListen st) as [[[]|t0|] s1] eqn:CE;
        try discriminate E; [|contradiction].
      unfold bind at 1 in E.
      destruct (ReconnectProps.errors_connectAndListen _ _ _ CE) as [e ->].
      rewrite logError_effect in E. unfold bind at 1 in E.
      match type of E with
      | context [attemptRealtimeReconnection cfg ?x] =>
          destruct (attemptRealtimeReconnection_returns cfg x) as (s3 & A)
      end.
      rewrite A in E. discriminate E.
Qed.

Lemma setup_gives_up (e : error) (d0 : Desk) :
  exists st' at_,
    bindT (onTable (logError "SETUP_FAILED" None (ThrownError e)))
          (fun _ => retT (Some 1)) d0
    = (Returned (Some 1), mkDesk st' (chatUsers d0))
    /\ lastError (syncStats (svc st'))
       = Some (errorRecordOf at_ "SETUP_FAILED" None e).
Proof.
  unfold bindT, onTable.
  destruct (logError_journal "SETUP_FAILED" None e (engine d0))
    as (s2 & L & S2 & _ & R).
  rewrite L, R. exists s2, (now (world (engine d0))).
  split; [reflexivity|]. rewrite S2. reflexivity.
Qed.

(** X24.  [setup] never throws: either it leaves the service running,
    and then the listener is listening and [scheduledSyncTimeout] refers
    to a pending timer that starts the first scheduled pass one interval
    later; or it ends the process with [process.exit(1)] after logging
    [SETUP_FAILED].  So a listener that cannot connect when the service
    starts is fatal, whatever reconnection was armed, while a failed
    verification is not. *)
Theorem setup_runs_or_exits :
  forall (cfg : Config) (d : Desk),
    match setup cfg d with
    | (Returned None, d') =>
        isListening (svc (engine d')) = true
        /\ exists h,
            scheduledSyncTimeout (svc (engine d')) = Some h
            /\ In (mkTimer h (syncIntervalMinutes cfg * 60 * 1000)
                           (RunScheduledSync (syncIntervalMinutes cfg)))
                  (timers (world (engine d')))
    | (Returned (Some code), d') =>
        code = 1
        /\ exists (e : error) (at_ : Z),
            lastError (syncStats (svc (engine d')))
            = Some (errorRecordOf at_ "SETUP_FAILED" None e)
    | (Threw _, _) => False
    | (OutOfFuel, _) => False
    end.
Proof.
  intros cfg d.
  destruct (setup cfg d) as [o d'] eqn:V.
  assert (G : forall e d0,
             bindT (onTable (logError "SETUP_FAILED" None (ThrownError e)))
                   (fun _ => retT (Some 1)) d0 = (o, d') ->
             match o with
             | Returned None =>
                 isListening (svc (engine d')) = true
                 /\ exists h,
                     scheduledSyncTimeout (svc (engine d')) = Some h
                     /\ In (mkTimer h (syncIntervalMinutes cfg * 60 * 1000)
                               (RunScheduledSync (syncIntervalMinutes cfg)))
                           (timers (world (engine d')))
             | Returned (Some code) =>
                 code = 1
                 /\ exists (e : error) (at_ : Z),
                     lastError (syncStats (svc (engine d')))
                     = Some (errorRecordOf at_ "SETUP_FAILED" None e)
             | Threw _ => False
             | OutOfFuel => False
             end).
  { intros e d0 E. destruct (setup_gives_up e d0) as (st' & ts & E' & L).
    rewrite E' in E. injection E as <- <-.
    split; [reflexivity|]. exists e, ts. exact L. }
  unfold setup, tryCatchT in V. unfold bindT at 1 in V.
  unfold onTable at 1 in V.
  destruct (initial_sync_settles cfg (engine d)) as (o1 & s1 & E1 & T1 & X1).
  rewrite E1 in V.
  destruct o1 as [[]|t|]; [| |contradiction].
  2:{ destruct (X1 t eq_refl) as [e ->]. exact (G _ _ V). }
  unfold bindT at 1 in V. unfold onTable at 1 in V.
  cbn [engine chatUsers] in V.
  destruct (startRealTimeSync_cases cfg s1) as (s2 & [[E2 L2]|[e E2]]);
    rewrite E2 in V.
  2:{ exact (G _ _ V). }
  unfold bindT at 1 in V. unfold onTable at 1 in V.
  cbn [engine chatUsers] in V.
  unfold startScheduledSync, bind at 1, setTimeout at 1, modify at 1 in V.
  cbn [engine chatUsers] in V.
  unfold bindT at 1 in V.
  match type of V with
  | context [verifySyncStatus ?x] =>
      destruct (verifySyncStatus_cases x)
        as [(s4 & E4 & S4 & M4)|(s4 & e & ts & E4 & _ & L4 & H4 & M4)];
      rewrite E4 in V; cbn [engine chatUsers retT] in *;
      injection V as <- <-; cbn [engine]
  end.
  - rewrite S4, M4. cbn. rewrite L2. split; [reflexivity|].
    eexists. split; [reflexivity|].
    apply in_or_app. right. left. reflexivity.
  - rewrite L4, H4, M4. cbn. rewrite L2. split; [reflexivity|].
    eexists. split; [reflexivity|].
    apply in_or_app. right. left. reflexivity.
Qed.

(** *** [syncAllUsers] *)

Lemma sourceCall_effect (st : State) :
  exists (o : outcome unit) (st' : State),
    sourceCall st = (o, st')
    /\ o <> OutOfFuel
    /\ (forall t, o = Threw t -> exists e, t = ThrownError e)
    /\ svc st' = svc st
    /\ sourceUsers (world st') = sourceUsers (world st).
Proof.
  unfold sourceCall.
  destruct (nextFault (sourceFaults (world st))) as [[f|] rest];
    eexists; eexists; (split; [reflexivity|]);
    (split; [discriminate|]);
    (split; [intros t E; try discriminate E; injection E as <-; eauto|]);
    split; reflexivity.
Qed.

Lemma keeps_syncAllEach (cfg : Config) users :
  forall s e, keeps sameFlag (syncAllEach cfg users s e).
Proof.
  induction users as [|u users IH]; intros s e; cbn [syncAllEach].
  - apply keeps_ret.
  - apply keeps_bind.
    + apply keeps_tryCatch.
      * apply keeps_bind; [|intros _; apply keeps_ret].
        apply keeps_retryWithBackoff, keeps_upsertOperation.
      * intros t. apply keeps_bind; [apply keeps_logError|].
        intros _. apply keeps_ret.
    + intros [|]; apply IH.
Qed.

(** The loop over one page of [syncAllUsers]: every row is counted
    once, and only the error count of the statistics moves. *)
Lemma syncAllEach_counts (cfg : Config) (users : list SourceUser) :
  0 <= maxRetries (retryConfig cfg) ->
  forall (s e : Z) (st : State),
    exists (st' : State) (failed : Z),
      0 <= failed <= Z.of_nat (List.length users)
      /\ syncAllEach cfg users s e st
         = (Returned (s + (Z.of_nat (List.length users) - failed),
                      e + failed), st')
      /\ totalSynced (syncStats (svc st')) = totalSynced (syncStats (svc st))
      /\ errors (syncStats (svc st'))
         = errors (syncStats (svc st)) + failed
      /\ lastSyncTime (syncStats (svc st'))
         = lastSyncTime (syncStats (svc st))
      /\ lastSyncDuration (syncStats (svc st'))
         = lastSyncDuration (syncStats (svc st)).
Proof.
  intros Hr. induction users as [|u users IH]; intros s e st.
  - exists st, 0. cbn. repeat split; try lia.
    unfold ret. do 3 f_equal; lia.
  - cbn [syncAllEach]. unfold bind at 1. unfold tryCatch, bind at 1.
    destruct (retry_upsert cfg u st Hr) as (s1 & [[E S1]|(err & E & S1)]);
      rewrite E.
    + unfold ret at 1.
      destruct (IH (s + 1) e s1) as (st' & k & Hk & E' & T & Er & L & D).
      exists st', k. rewrite E', T, Er, L, D, S1.
      cbn [List.length]. repeat split; try lia.
      do 3 f_equal; lia.
    + unfold bind at 1. rewrite logError_effect. unfold ret at 1.
      match goal with
      | |- context [syncAllEach cfg users s (e + 1) ?x] =>
          destruct (IH s (e + 1) x) as (st' & k & Hk & E' & T & Er & L & D)
      end.
      exists st', (k + 1). rewrite E', T, Er, L, D.
      cbn [List.length].
      destruct (nextChatFault s1); stats_simpl; rewrite ?S1;
        (repeat split; try lia); do 3 f_equal; lia.
Qed.

Lemma length_skipn_more {A : Type} (n m : nat) (l : list A) :
  (List.length (skipn n l)
   = List.length (firstn m (skipn n l)) + List.length (skipn (n + m) l))%nat.
Proof.
  rewrite length_firstn, !length_skipn. lia.
Qed.

(** The loop of [syncAllUsers] from [offset] on, over a table that does
    not change: when it returns, every row from [offset] on has been
    counted once; when it throws, it throws the [Error] of a query and
    neither [totalSynced] nor [lastSyncTime] has moved. *)
Lemma allPages_accounts (cfg : Config) :
  0 <= maxRetries (retryConfig cfg) ->
  forall (fuel offset : nat) (total S E : Z) (st : State),
    let rows := activeById (sourceUsers (world st)) in
    Z.of_nat (List.length rows) <= total ->
    (0 < fuel)%nat ->
    total - Z.of_nat offset <= (Z.of_nat fuel - 1) * 1000 ->
    match allPages cfg fuel offset total S E st with
    | (Returned (s, e), st') =>
        exists failed,
          0 <= failed
          /\ e = E + failed
          /\ s = S + (Z.of_nat (List.length (skipn offset rows)) - failed)
          /\ totalSynced (syncStats (svc st'))
             = totalSynced (syncStats (svc st))
          /\ errors (syncStats (svc st'))
             = errors (syncStats (svc st)) + failed
          /\ lastSyncTime (syncStats (svc st'))
             = lastSyncTime (syncStats (svc st))
          /\ lastSyncDuration (syncStats (svc st'))
             = lastSyncDuration (syncStats (svc st))
    | (Threw t, st') =>
        (exists e, t = ThrownError e)
        /\ totalSynced (syncStats (svc st'))
           = totalSynced (syncStats (svc st))
        /\ lastSyncTime (syncStats (svc st'))
           = lastSyncTime (syncStats (svc st))
        /\ lastSyncDuration (syncStats (svc st'))
           = lastSyncDuration (syncStats (svc st))
    | (OutOfFuel, _) => False
    end.
Proof.
  intros Hr. induction fuel as [|fuel IH];
    intros offset total S E st rows Hrows Hpos Hfuel; [lia|].
  cbn [allPages].
  destruct (Z.ltb_spec (Z.of_nat offset) total) as [Hlt|Hge].
  - unfold bind at 1. unfold selectById, bind at 1.
    destruct (sourceCall_effect st) as (o1 & s1 & -> & T1 & X1 & S1 & U1).
    destruct o1 as [[]|t|]; [| |contradiction].
    2:{ destruct (X1 t eq_refl) as [e ->]. rewrite S1.
        split; [eauto|]. repeat split. }
    unfold gets at 1. rewrite U1. fold rows.
    set (users := firstn allLimit (skipn offset rows)).
    unfold bind at 1.
    destruct (syncAllEach_counts cfg users Hr 0 0 s1)
      as (s2 & k1 & Hk1 & E2 & T2 & Er2 & L2 & D2).
    pose proof (keeps_syncAllEach cfg users 0 0 s1) as [_ U2].
    rewrite E2 in U2 |- *. cbn [snd fst] in *.
    assert (Rows2 : activeById (sourceUsers (world s2)) = rows).
    { unfold rows. rewrite U2, U1. reflexivity. }
    specialize (IH (offset + allLimit)%nat total
                   (S + (0 + (Z.of_nat (List.length users) - k1)))
                   (E + (0 + k1)) s2).
    cbv zeta in IH. rewrite Rows2 in IH.
    assert (Hf : (0 < fuel)%nat) by (unfold allLimit in *; lia).
    specialize (IH Hrows Hf ltac:(unfold allLimit; lia)).
    destruct (allPages cfg fuel (offset + allLimit) total _ _ s2)
      as [[[s e]|t|] s3].
    + destruct IH as (k2 & Hk2 & -> & -> & T3 & Er3 & L3 & D3).
      exists (k1 + k2). rewrite T3, Er3, L3, D3, T2, Er2, L2, D2, S1.
      pose proof (length_skipn_more offset allLimit rows) as Hl.
      fold users in Hl.
      repeat split; lia.
    + destruct IH as (X & T3 & L3 & D3).
      rewrite T3, L3, D3, T2, L2, D2, S1. auto.
    + exact IH.
  - exists 0. unfold ret.
    assert (Hz : List.length (skipn offset rows) = 0%nat)
      by (rewrite length_skipn; lia).
    rewrite Hz. repeat split; lia.
Qed.

Lemma countIf_le {A : Type} (p : A -> bool) (l : list A) :
  countIf p l <= Z.of_nat (List.length l).
Proof.
  unfold countIf. pose proof (filter_length_le p l). lia.
Qed.

Lemma insertById_length (u : SourceUser) (l : list SourceUser) :
  List.length (insertById u l) = S (List.length l).
Proof.
  induction l as [|v l IH]; cbn [insertById]; [reflexivity|].
  destruct (idPrecedes u v); cbn [List.length]; [reflexivity|].
  rewrite IH. reflexivity.
Qed.

Lemma orderById_length (l : list SourceUser) :
  List.length (orderById l) = List.length l.
Proof.
  induction l as [|u l IH]; cbn [orderById]; [reflexivity|].
  rewrite insertById_length, IH. reflexivity.
Qed.

(** There are at least as many active rows as active rows with an
    id. *)
Lemma activeById_count (table : list SourceUser) :
  Z.of_nat (List.length (activeById table)) <= countIf isActive table.
Proof.
  unfold activeById, countIf. rewrite orderById_length.
  apply Nat2Z.inj_le.
  induction table as [|u table IH]; cbn [filter]; [lia|].
  destruct (isActive u); cbn [andb List.length];
    [destruct (hasId u); cbn [List.length]; lia|exact IH].
Qed.

(** X25.  [syncAllUsers], over a source table that does not change
    during the run ([maxRetries] not negative).  When it returns
    [{synced, errors}], every active row with an id has been counted
    once ([synced + errors] is their number), [totalSynced] has grown by
    [synced], [errors] by twice [errors] (once in [logError], once in
    the sum), and [lastSyncTime] and [lastSyncDuration] are set.  When a
    query fails it logs [COMPLETE_SYNC_FAILED] and throws the query's
    error again, and then [totalSynced] and [lastSyncTime] are as
    before, whatever was written in the batches already done. *)
Theorem syncAllUsers_counts_every_row :
  forall (cfg : Config) (st : State),
    0 <= maxRetries (retryConfig cfg) ->
    let stats := syncStats (svc st) in
    match syncAllUsers cfg st with
    | (Returned (synced, failed), st') =>
        0 <= failed
        /\ synced + failed
           = Z.of_nat (List.length (activeById (sourceUsers (world st))))
        /\ totalSynced (syncStats (svc st')) = totalSynced stats + synced
        /\ errors (syncStats (svc st')) = errors stats + 2 * failed
        /\ lastSyncTime (syncStats (svc st')) = Some (now (world st'))
        /\ lastSyncDuration (syncStats (svc st'))
           = Some (now (world st') - now (world st))
    | (Threw t, st') =>
        totalSynced (syncStats (svc st')) = totalSynced stats
        /\ lastSyncTime (syncStats (svc st')) = lastSyncTime stats
        /\ exists (e : error) (at_ : Z),
            t = ThrownError e
            /\ lastError (syncStats (svc st'))
               = Some (errorRecordOf at_ "COMPLETE_SYNC_FAILED" None e)
    | (OutOfFuel, _) => False
    end.
Proof.
  intros cfg st Hr stats. subst stats.
  unfold syncAllUsers, bind at 1, dateNow at 1, gets at 1, tryCatch.
  unfold bind at 1. unfold countActive, bind at 1.
  assert (Fail : forall e s1,
             totalSynced (syncStats (svc s1))
             = totalSynced (syncStats (svc st)) ->
             lastSyncTime (syncStats (svc s1))
             = lastSyncTime (syncStats (svc st)) ->
             match bind (logError "COMPLETE_SYNC_FAILED" None
                           (ThrownError e))
                        (fun _ => @throw (Z * Z) (ThrownError e)) s1 with
             | (Returned _, _) => False
             | (Threw t, st') =>
                 totalSynced (syncStats (svc st'))
                 = totalSynced (syncStats (svc st))
                 /\ lastSyncTime (syncStats (svc st'))
                    = lastSyncTime (syncStats (svc st))
                 /\ exists (e : error) (at_ : Z),
                     t = ThrownError e
                     /\ lastError (syncStats (svc st'))
                        = Some (errorRecordOf at_ "COMPLETE_SYNC_FAILED"
                                  None e)
             | (OutOfFuel, _) => False
             end).
  { intros e s1 T L. unfold bind. rewrite logError_effect. unfold throw.
    destruct (nextChatFault s1); stats_simpl; rewrite T, L;
      (split; [reflexivity|]); (split; [reflexivity|]);
      eexists; eexists; split; reflexivity. }
  destruct (sourceCall_effect st) as (o1 & s1 & -> & T1 & X1 & S1 & U1).
  destruct o1 as [[]|t|]; [| |contradiction].
  2:{ destruct (X1 t eq_refl) as [e ->].
      pose proof (Fail e s1) as F. rewrite S1 in F.
      specialize (F eq_refl eq_refl).
      destruct (bind _ _ s1) as [[[a b]|t'|] s'];
        first [exact F|contradiction]. }
  unfold gets at 1. unfold bind at 1. unfold gets at 1.
  unfold bind at 1.
  pose proof (allPages_accounts cfg Hr (allFuel s1) 0
                (countIf isActive (sourceUsers (world s1))) 0 0 s1) as A.
  cbv zeta in A.
  specialize (A (activeById_count _) ltac:(unfold allFuel; lia)).
  assert (Hf : countIf isActive (sourceUsers (world s1)) - Z.of_nat 0
               <= (Z.of_nat (allFuel s1) - 1) * 1000).
  { pose proof (countIf_le isActive (sourceUsers (world s1))).
    unfold allFuel. lia. }
  specialize (A Hf).
  destruct (allPages cfg (allFuel s1) 0 _ 0 0 s1) as [[[s e]|t|] s2].
  - destruct A as (k & Hk & -> & -> & T2 & Er2 & L2 & D2).
    unfold bind, dateNow, gets, modify, ret. stats_simpl.
    rewrite T2, Er2, S1, U1. cbn [skipn].
    split; [lia|]. split; [lia|]. split; [lia|]. split; [lia|].
    split; reflexivity.
  - destruct A as ([e ->] & T2 & L2 & _).
    pose proof (Fail e s2) as F. rewrite T2, L2, S1 in F.
    specialize (F eq_refl eq_refl).
    destruct (bind _ _ s2) as [[[a b]|t'|] s'];
      first [exact F|contradiction].
  - exact A.
Qed.

Lemma syncAllUsers_counts_every_row_witness :
  fst (syncAllUsers defaultConfig sampleState) = Returned (3, 0).
Proof.
  pose proof (syncAllUsers_counts_every_row defaultConfig sampleState
                ltac:(cbn; lia)) as H.
  cbv zeta in H.
  destruct (syncAllUsers defaultConfig sampleState) as [[[s e]|t|] st']
    eqn:E; cbn [fst].
  - apply (f_equal fst) in E. cbn [fst] in E. rewrite <- E. reflexivity.
  - exfalso. apply (f_equal fst) in E. vm_compute in E. discriminate E.
  - contradiction.
Defined.

End LifecycleProps.

(* ================================================================== *)
(** * The tools and the service *)
(* ================================================================== *)

Module ToolsProps.
Import JS Transformer Engine Spec Tools.
Import TransformerProps RecordProps.

(** *** The lists of the diagnostic tool *)

Lemma allSpaces_keepDigits (s : string) :
  allSpaces s = true -> keepDigits s = "".
Proof.
  induction s as [|c s IH]; cbn [allSpaces keepDigits]; [reflexivity|].
  intros H. apply andb_true_iff in H as [C H].
  apply Ascii.eqb_eq in C. subst c. cbn. apply IH, H.
Qed.

Lemma nullOrEmpty_trimmed (x : option string) :
  nullOrEmpty x = true -> trimmedOrEmpty x = "".
Proof.
  destruct x as [s|]; cbn; [|reflexivity].
  intros H. apply String.eqb_eq in H. subst s. reflexivity.
Qed.

(** A user whose phone is ["n/a"] and whose first name is a blank. *)
Definition unlisted : SourceUser :=
  mkSourceUser (Some "0a000000-0000-4000-8000-000000000001") (Some " ")
    None None (Some "n/a") None None (Some "active") None None None.

(** X26.  The lists of the diagnostic tool are sound and incomplete.
    Every row it lists with a phone issue gets the placeholder phone
    from the service, and every row it lists with a name issue gets the
    name "User " plus the first 8 characters of the id.  But the service
    does the same to rows the tool does not list: a phone without any
    digit (["n/a"]) gets the placeholder, and names of white space only
    give the fallback name. *)
Theorem diagnostic_lists_are_incomplete :
  (forall (u : SourceUser) (i : string),
      id u = Some i -> phoneIssue u = true ->
      sanitizePhone (phone u) (id u) = placeholderPhone (Some i))
  /\ (forall (u : SourceUser) (i : string),
         id u = Some i -> nameIssue u = true ->
         buildFullName u = Returned ("User " ++ substring0 8 i))
  /\ (isActive unlisted = true
      /\ phoneIssue unlisted = false
      /\ sanitizePhone (phone unlisted) (id unlisted)
         = placeholderPhone (id unlisted))
  /\ (isActive unlisted = true
      /\ nameIssue unlisted = false
      /\ buildFullName unlisted = Returned "User 0a000000").
Proof.
  split; [|split; [|split; repeat split]].
  - intros u i Hi H. unfold phoneIssue in H.
    apply andb_true_iff in H as [_ H]. rewrite Hi.
    destruct (phone u) as [p|]; [|reflexivity].
    apply sanitizePhone_without_digits.
    apply orb_true_iff in H as [H|H].
    + apply String.eqb_eq in H. subst p. reflexivity.
    + apply allSpaces_keepDigits, H.
  - intros u i Hi H. unfold nameIssue in H.
    apply andb_true_iff in H as [H L].
    apply andb_true_iff in H as [_ F].
    unfold buildFullName. cbv zeta.
    rewrite (nullOrEmpty_trimmed _ F), (nullOrEmpty_trimmed _ L), Hi.
    reflexivity.
Qed.

(** *** The discrepancy report of the monitor *)

(** What the loop would push without its limit. *)
Definition allDiscrepancies (chatUsers entries : list (option string * Entry))
  : list Discrepancy :=
  flat_map (fun entry => match discrepancyOf chatUsers entry with
                         | Some found => [found]
                         | None => []
                         end) entries.

Lemma scan_firstn (chatUsers : list (option string * Entry)) :
  forall (entries : list (option string * Entry)) (n : nat),
    scan chatUsers entries n
    = firstn (10 - n) (allDiscrepancies chatUsers entries).
Proof.
  unfold allDiscrepancies.
  induction entries as [|entry rest IH]; intros n; cbn [scan flat_map].
  - rewrite firstn_nil. reflexivity.
  - destruct (Nat.leb_spec 10 n) as [H|H].
    + replace (10 - n)%nat with 0%nat by lia. reflexivity.
    + destruct (discrepancyOf chatUsers entry) as [found|].
      * rewrite IH. replace (10 - n)%nat with (S (10 - S n)) by lia.
        reflexivity.
      * apply IH.
Qed.

(** X27.  The monitor reports the first ten discrepancies and stops:
    its list is the list of all the source entries that differ from
    their chat entry, in the order of the source rows, cut after ten. *)
Theorem monitor_reports_first_ten :
  forall sourceRows chatRows : list Entry,
    discrepancies sourceRows chatRows
    = firstn 10 (allDiscrepancies (newMap chatRows) (newMap sourceRows))
    /\ (List.length (discrepancies sourceRows chatRows) <= 10)%nat.
Proof.
  intros sourceRows chatRows. unfold discrepancies.
  rewrite scan_firstn. split; [reflexivity|].
  rewrite length_firstn. lia.
Qed.

Lemma rolesDiffer_false (a b : option string) :
  rolesDiffer a b = false <-> a = b.
Proof.
  destruct a as [x|], b as [y|]; cbn; try (split; congruence).
  rewrite negb_false_iff, String.eqb_eq. split; congruence.
Qed.

(** A role that is its own image is one of two. *)
Lemma mapRole_fixed (r : string) :
  mapRole (Some r) = VString r <-> r = "customer" \/ r = "administrator".
Proof.
  split.
  - intros H. unfold mapRole, getProperty in H.
    destruct (ownProperty roleMapping (toLowerCase r)) as [dest|] eqn:O.
    + cbn [orElse truthy] in H.
      unfold roleMapping in O. cbn [ownProperty] in O.
      repeat match type of O with
             | (if ?b then _ else _) = _ => destruct b eqn:?
             end; try discriminate O; injection O as <-; cbn in H;
        injection H as <-; auto;
        match goal with
        | E : String.eqb _ (toLowerCase "usta") = _ |- _ =>
            cbn in E; discriminate E
        | _ => idtac
        end.
      all: exfalso;
        repeat match goal with
               | E : String.eqb _ _ = true |- _ =>
                   apply String.eqb_eq in E
               | E : String.eqb _ _ = false |- _ => clear E
               end;
        match goal with
        | E : _ = toLowerCase "usta" |- _ => cbn in E; discriminate E
        end.
    + destruct (existsb (String.eqb (toLowerCase r)) objectPrototypeKeys);
        cbn in H; [discriminate H|]. injection H as <-. auto.
  - intros [->| ->]; reflexivity.
Qed.

(** X28.  The monitor compares the source role with the role the
    service wrote, which is the mapped one.  So for a row the service
    has just written (same timestamp, role as [mapRole] gave it), the
    monitor reports no discrepancy exactly when the source role is
    literally ['customer'] or ['administrator']: service providers,
    admins, users without role and roles in capitals are all reported as
    role mismatches although they are in sync. *)
Theorem monitor_flags_mapped_roles :
  forall (sourceUser : SourceUser) (chatUser : ChatUser) (mapped : string)
         (chatUsers : list (option string * Entry)),
    transformUserData sourceUser = Returned chatUser ->
    chatRole chatUser = VString mapped ->
    mapGet (id sourceUser) chatUsers
    = Some (mkEntry (externalId chatUser) (updatedAt chatUser)
              (Some mapped)) ->
    discrepancyOf chatUsers
      (id sourceUser,
       mkEntry (id sourceUser) (updated_at sourceUser) (role sourceUser))
    = None
    <-> (role sourceUser = Some "customer"
         \/ role sourceUser = Some "administrator").
Proof.
  intros u c mapped chatUsers T R G.
  unfold transformUserData, bindO in T.
  destruct (buildFullName u); try discriminate T.
  destruct (sanitizePhone (phone u) (id u)); try discriminate T.
  injection T as <-. cbn [chatRole externalId updatedAt] in *.
  unfold discrepancyOf. rewrite G. cbn [entryUpdated entryRole].
  rewrite Z.ltb_irrefl. cbn [orb].
  destruct (rolesDiffer (role u) (Some mapped)) eqn:D.
  - split; [discriminate|]. intros H. exfalso.
    assert (E : role u = Some mapped).
    { destruct H as [H|H]; rewrite H in R |- *; cbn in R;
        injection R as <-; reflexivity. }
    apply rolesDiffer_false in E. congruence.
  - split; [intros _|reflexivity].
    apply rolesDiffer_false in D. rewrite D in R |- *.
    apply mapRole_fixed in R. destruct R as [->| ->]; auto.
Qed.

Lemma monitor_flags_mapped_roles_witness :
  discrepancyOf
    [(Some "abc123ef-0000-4000-8000-000000000000",
      mkEntry (Some "abc123ef-0000-4000-8000-000000000000") None
        (Some "usta"))]
    (Some "abc123ef-0000-4000-8000-000000000000",
     mkEntry (Some "abc123ef-0000-4000-8000-000000000000") None
       (Some "service_provider"))
  <> None.
Proof.
  intros C.
  apply (monitor_flags_mapped_roles scenarioUser scenarioResult "usta"
           [(Some "abc123ef-0000-4000-8000-000000000000",
             mkEntry (Some "abc123ef-0000-4000-8000-000000000000") None
               (Some "usta"))]
           eq_refl eq_refl eq_refl) in C.
  destruct C as [C|C]; discriminate C.
Defined.

End ToolsProps.
